(** * comfy_pack: workflow templates and model retrieval

    A shallow embedding of [comfy_pack/utils.py] (parsing a workflow
    document into named inputs and outputs, the input schema, population
    and output retrieval) and of the model part of [comfy_pack/package.py]
    ([create_model_symlink], [retrive_models]), with the properties the
    specification states about them.

    Python values are modelled as follows.
    - A [str] is a [string] whose characters are the code points below 256.
    - A JSON value is a [json]; a [dict] is an association list in insertion
      order, read with [dict_get] and written with [dict_set], which keeps
      the position of a key that is already there, as Python does.
    - An exception is a value of [exn]; a call that may raise returns
      [res A].
    - The file system is a finite map from paths to entries, threaded
      through the functions of [package.py] together with the lines still to
      be read from standard input and the trace of the writes made. *)

From Stdlib Require Import Ascii String Floats.PrimFloat.
From stdpp Require Import gmap strings list.

Set Warnings "-register-all,-inexact-float,-notation-for-abbreviation".
Open Scope string_scope.

(** ** Python prelude *)

Module Py.

(** Exceptions the modelled code can raise. *)
Inductive exn : Type :=
| ValueError (msg : string)
| RuntimeError (msg : string)
| KeyError (key : string)
| TypeError
| AttributeError
| StopIteration
| EOFError
| FileExistsError
| FileNotFoundError
| NotADirectoryError
| IsADirectoryError.

Inductive res (A : Type) : Type :=
| Ok (a : A)
| Err (e : exn).
Arguments Ok {A} a.
Arguments Err {A} e.

Definition bind {A B} (m : res A) (f : A -> res B) : res B :=
  match m with
  | Ok a => f a
  | Err e => Err e
  end.

Notation "x <- m ;; k" := (bind m (fun x => k))
  (at level 100, m at next level, right associativity).

(** [for x in l: acc = f(acc, x)], stopping at the first exception. *)
Fixpoint foldM {A B} (f : A -> B -> res A) (acc : A) (l : list B) : res A :=
  match l with
  | [] => Ok acc
  | x :: l' => acc' <- f acc x ;; foldM f acc' l'
  end.

Definition of_option {A} (o : option A) (e : exn) : res A :=
  match o with
  | Some a => Ok a
  | None => Err e
  end.

(** *** Dictionaries *)

Definition dict (V : Type) : Type := list (string * V).

Fixpoint dict_get {V} (k : string) (d : dict V) : option V :=
  match d with
  | [] => None
  | (k', v) :: d' => if String.eqb k k' then Some v else dict_get k d'
  end.

Definition dict_has {V} (k : string) (d : dict V) : bool :=
  match dict_get k d with
  | Some _ => true
  | None => false
  end.

(** [d[k] = v]: an existing key keeps its place, a new one goes last. *)
Fixpoint dict_set {V} (k : string) (v : V) (d : dict V) : dict V :=
  match d with
  | [] => [(k, v)]
  | (k', v') :: d' =>
      if String.eqb k k' then (k', v) :: d' else (k', v') :: dict_set k v d'
  end.

Definition keys {V} (d : dict V) : list string := d.*1.

(** *** JSON values *)

Inductive json : Type :=
| JNull
| JBool (b : bool)
| JInt (z : Z)
| JFloat (f : float)
| JStr (s : string)
| JList (l : list json)
| JDict (d : list (string * json)).

(** [bool(v)]. *)
Definition truthy (v : json) : bool :=
  match v with
  | JNull => false
  | JBool b => b
  | JInt z => negb (Z.eqb z 0)
  | JFloat f => negb (PrimFloat.eqb f 0)
  | JStr s => negb (String.eqb s "")
  | JList l => match l with [] => false | _ => true end
  | JDict d => match d with [] => false | _ => true end
  end.

(** [hash(v)] succeeds. *)
Definition hashable (v : json) : bool :=
  match v with
  | JList _ | JDict _ => false
  | _ => true
  end.

(** [v == 0], for the second component of a link probed with [(nid, 0)]. *)
Definition eq_zero (v : json) : bool :=
  match v with
  | JBool b => negb b
  | JInt z => Z.eqb z 0
  | JFloat f => PrimFloat.eqb f 0
  | _ => false
  end.

(** [v[k]] *)
Definition getitem (v : json) (k : string) : res json :=
  match v with
  | JDict d => of_option (dict_get k d) (KeyError k)
  | _ => Err TypeError
  end.

(** [v[k] = x] *)
Definition setitem (v : json) (k : string) (x : json) : res json :=
  match v with
  | JDict d => Ok (JDict (dict_set k x d))
  | _ => Err TypeError
  end.

(** [v.get(k, default)] *)
Definition dget (v : json) (k : string) (default : json) : res json :=
  match v with
  | JDict d => Ok (match dict_get k d with Some x => x | None => default end)
  | _ => Err AttributeError
  end.

(** [v.items()] *)
Definition items (v : json) : res (dict json) :=
  match v with
  | JDict d => Ok d
  | _ => Err AttributeError
  end.

(** The receiver of a [str] method. *)
Definition as_str (v : json) : res string :=
  match v with
  | JStr s => Ok s
  | _ => Err AttributeError
  end.

(** *** Strings *)

Definition code (c : ascii) : N := Ascii.N_of_ascii c.

Definition in_range (lo hi : N) (c : ascii) : bool :=
  N.leb lo (code c) && N.leb (code c) hi.

Definition is_ascii_letter (c : ascii) : bool :=
  in_range 65 90 c || in_range 97 122 c.

Definition is_ascii_digit (c : ascii) : bool := in_range 48 57 c.

Definition underscore : ascii := Ascii.ascii_of_N 95.

Definition is_underscore (c : ascii) : bool := N.eqb (code c) 95.

(** The class [[a-zA-Z0-9_]]. *)
Definition is_word (c : ascii) : bool :=
  is_ascii_letter c || is_ascii_digit c || is_underscore c.

(** XID_Start and XID_Continue on the code points below 256. *)
Definition xid_start (c : ascii) : bool :=
  is_ascii_letter c
  || N.eqb (code c) 170 || N.eqb (code c) 181 || N.eqb (code c) 186
  || in_range 192 214 c || in_range 216 246 c || in_range 248 255 c.

Definition xid_continue (c : ascii) : bool :=
  xid_start c || is_ascii_digit c || is_underscore c || N.eqb (code c) 183.

Fixpoint all_chars (p : ascii -> bool) (s : string) : bool :=
  match s with
  | EmptyString => true
  | String c s' => p c && all_chars p s'
  end.

(** [s.isidentifier()] *)
Definition isidentifier (s : string) : bool :=
  match s with
  | EmptyString => false
  | String c s' => (xid_start c || is_underscore c) && all_chars xid_continue s'
  end.

(** [c.isdigit()]: the decimal digits and the superscripts 1, 2, 3. *)
Definition isdigit (c : ascii) : bool :=
  is_ascii_digit c
  || N.eqb (code c) 178 || N.eqb (code c) 179 || N.eqb (code c) 185.

Fixpoint map_chars (f : ascii -> ascii) (s : string) : string :=
  match s with
  | EmptyString => EmptyString
  | String c s' => String (f c) (map_chars f s')
  end.

(** [re.sub(r"[^a-zA-Z0-9_]", "_", s)] *)
Definition sub_nonword (s : string) : string :=
  map_chars (fun c => if is_word c then c else underscore) s.

(** [re.sub(r"_+", "_", s)] *)
Fixpoint sub_underscores (s : string) : string :=
  match s with
  | EmptyString => EmptyString
  | String c s' =>
      if is_underscore c then
        match s' with
        | String c' _ =>
            if is_underscore c' then sub_underscores s'
            else String c (sub_underscores s')
        | EmptyString => String c EmptyString
        end
      else String c (sub_underscores s')
  end.

Fixpoint lstrip_underscore (s : string) : string :=
  match s with
  | String c s' => if is_underscore c then lstrip_underscore s' else s
  | EmptyString => EmptyString
  end.

Fixpoint rstrip_underscore (s : string) : string :=
  match s with
  | EmptyString => EmptyString
  | String c s' =>
      match rstrip_underscore s' with
      | EmptyString => if is_underscore c then EmptyString else String c EmptyString
      | r => String c r
      end
  end.

(** [s.strip("_")] *)
Definition strip_underscore (s : string) : string :=
  rstrip_underscore (lstrip_underscore s).

Definition lower_char (c : ascii) : ascii :=
  if in_range 65 90 c || in_range 192 214 c || in_range 216 222 c
  then Ascii.ascii_of_N (code c + 32)
  else c.

(** [s.lower()] *)
Definition lower (s : string) : string := map_chars lower_char s.

(** [s.startswith(p)] *)
Definition startswith (s p : string) : bool := String.prefix p s.

End Py.

(** ** comfy_pack/utils.py *)

Module Utils.
Import Py.

Definition CPACK_OUTPUT_NODES : list string :=
  ["CPackOutputFile"; "CPackOutputImage"].

Definition CPACK_PATH_INPUT_NODES : list string :=
  ["CPackInputFile"; "CPackInputImage"].

Definition str_in (s : string) (l : list string) : bool :=
  existsb (String.eqb s) l.

(** [v in S] for a set [S] of strings: a value that is not a [str] is not
    in it, and one that cannot be hashed raises. *)
Definition in_set (v : json) (l : list string) : res bool :=
  match v with
  | JStr s => Ok (str_in s l)
  | JList _ | JDict _ => Err TypeError
  | _ => Ok false
  end.

(** [next(iter(d.items()))] *)
Definition first_item {V} (d : dict V) : res (string * V) :=
  match d with
  | [] => Err StopIteration
  | kv :: _ => Ok kv
  end.

Definition _get_node_value (node : json) : res json :=
  ins <- getitem node "inputs" ;;
  d <- items ins ;;
  kv <- first_item d ;;
  Ok kv.2.

(** The reverse dependency map. The code keys it by the tuple of a link and
    probes it with [(nid, 0)] only, [nid] a [str]; the model keeps the
    assignments made, the latest first, and a probe takes the first entry
    whose key equals [(nid, 0)], which is the value the latest assignment to
    that key left. The consumer node stored beside the input name is never
    read and is left out. *)
Definition dep_map : Type := list (json * json * string).

Definition key_is (nid : string) (a b : json) : bool :=
  match a with
  | JStr s => String.eqb s nid && eq_zero b
  | _ => false
  end.

Fixpoint dep_lookup (nid : string) (dm : dep_map) : option string :=
  match dm with
  | [] => None
  | (a, b, input_name) :: dm' =>
      if key_is nid a b then Some input_name else dep_lookup nid dm'
  end.

Definition _normalize_to_identifier (s : string) : string :=
  match s with
  | EmptyString => "_"
  | String _ _ =>
      let s := sub_nonword s in
      let s :=
        match s with
        | String c _ => if isdigit c then String underscore s else s
        | EmptyString => s
        end in
      let s := sub_underscores s in
      let s := strip_underscore s in
      let s := match s with EmptyString => "_" | _ => s end in
      lower s
  end.

(** [node["id"]] is the document key [_parse_workflow] has just stored, a
    [str]; a probe with anything else finds nothing in the model. *)
Definition _get_node_identifier (node : json) (dm : dep_map) : res string :=
  meta <- getitem node "_meta" ;;
  title <- getitem meta "title" ;;
  title <- as_str title ;;
  if isidentifier title then Ok title
  else
    nid <- getitem node "id" ;;
    match (match nid with JStr s => dep_lookup s dm | _ => None end) with
    | Some input_name => Ok (_normalize_to_identifier input_name)
    | None => Ok (_normalize_to_identifier title)
    end.

Definition dq : string := String (Ascii.ascii_of_N 34) EmptyString.

Definition API_WORKFLOW_MESSAGE : string :=
  "
It seems you are trying to parse an ordinary Workflow json file.
Please save the Workflow with the Save (API Format).
If you don't have this button, you must enable the " ++ dq ++
  "Dev mode Options" ++ dq ++
  " by clicking the Settings button on the top right (gear icon). Check the setting option "
  ++ dq ++ "Enable Dev Mode options" ++ dq ++
  ". After that, the Button Save (API Format) should appear.
".

(** [dep_map[tuple(v)] = node, input_name] when [v] is a list of two. *)
Definition add_link (dm : dep_map) (slot : string * json) : res dep_map :=
  match slot.2 with
  | JList [a; b] =>
      if hashable a && hashable b then Ok ((a, b, slot.1) :: dm)
      else Err TypeError
  | _ => Ok dm
  end.

Definition node_links (dm : dep_map) (item : string * json) : res dep_map :=
  ins <- getitem item.2 "inputs" ;;
  d <- items ins ;;
  foldM add_link dm d.

Definition build_dep_map (workflow : dict json) : res dep_map :=
  foldM node_links [] workflow.

(** What [_parse_workflow] returns, with the document as the second loop
    leaves it: every node carries its [id]. *)
Record parsed : Type := Parsed {
  p_inputs : dict json;
  p_outputs : dict json;
  p_workflow : dict json
}.

Definition suffixed (name id : string) (inputs : dict json) : string :=
  if dict_has name inputs then name ++ "_" ++ id else name.

(** The body of the second loop; [p_workflow st] holds the nodes already
    visited. *)
Definition classify_node (dm : dep_map) (st : parsed) (item : string * json)
  : res parsed :=
  let id := item.1 in
  node <- setitem item.2 "id" (JStr id) ;;
  class_type <- getitem node "class_type" ;;
  class_type <- as_str class_type ;;
  let workflow := (p_workflow st ++ [(id, node)])%list in
  if startswith class_type "CPackInput" then
    name <- _get_node_identifier node dm ;;
    let name := suffixed name id (p_inputs st) in
    Ok (Parsed (dict_set name node (p_inputs st)) (p_outputs st) workflow)
  else if startswith class_type "CPackOutput" then
    name <- _get_node_identifier node [] ;;
    let name := suffixed name id (p_inputs st) in
    Ok (Parsed (p_inputs st) (dict_set name node (p_outputs st)) workflow)
  else Ok (Parsed (p_inputs st) (p_outputs st) workflow).

Definition _parse_workflow (workflow : dict json) : res parsed :=
  if dict_has "last_node_id" workflow then Err (ValueError API_WORKFLOW_MESSAGE)
  else
    dm <- build_dep_map workflow ;;
    foldM (classify_node dm) (Parsed [] [] []) workflow.

Definition parse_workflow (workflow : dict json) : res parsed :=
  _parse_workflow workflow.

(** *** The input schema *)

Inductive py_type : Type :=
| TNoneType | TBool | TInt | TFloat | TStr | TList | TDict
| TPath
| TLiteral (choices : list json).

(** A pair [(type, Field(default=.., ge=.., le=..))]; [None] stands for
    [PydanticUndefined]. *)
Record field : Type := Field {
  f_type : py_type;
  f_default : option json;
  f_ge : option json;
  f_le : option json
}.

(** [type(v)] *)
Definition type_of (v : json) : py_type :=
  match v with
  | JNull => TNoneType
  | JBool _ => TBool
  | JInt _ => TInt
  | JFloat _ => TFloat
  | JStr _ => TStr
  | JList _ => TList
  | JDict _ => TDict
  end.

(** [v < 1] *)
Definition lt_one (v : json) : res bool :=
  match v with
  | JBool b => Ok (negb b)
  | JInt z => Ok (Z.ltb z 1)
  | JFloat f => Ok (PrimFloat.ltb f 1)
  | _ => Err TypeError
  end.

(** [tuple(v)] *)
Definition tuple_of (v : json) : res (list json) :=
  match v with
  | JList l => Ok l
  | JStr s => Ok ((fun c => JStr (String c EmptyString)) <$> list_ascii_of_string s)
  | JDict d => Ok (JStr <$> keys d)
  | _ => Err TypeError
  end.

(** [d.get(k, PydanticUndefined)] *)
Definition dget_opt (v : json) (k : string) : res (option json) :=
  match v with
  | JDict d => Ok (dict_get k d)
  | _ => Err AttributeError
  end.

(** [any(f in options for f in fs)] on a [dict]. *)
Definition any_key (options : json) (fs : list string) : res bool :=
  match options with
  | JDict d => Ok (existsb (fun f => dict_has f d) fs)
  | _ => Err TypeError
  end.

(** The body of the loop of [generate_input_model]. [class_type] is a
    [str]: [_parse_workflow] has called [startswith] on it. *)
Definition input_field (node : json) : res field :=
  class_type <- getitem node "class_type" ;;
  class_type <- as_str class_type ;;
  if str_in class_type CPACK_PATH_INPUT_NODES then Ok (Field TPath None None None)
  else if String.eqb class_type "CPackInputValue" then
    meta <- dget node "_meta" (JDict []) ;;
    options <- dget meta "options" JNull ;;
    value <- _get_node_value node ;;
    if negb (truthy options) then Ok (Field (type_of value) (Some value) None None)
    else
      values <- dget options "values" JNull ;;
      if truthy values then
        choices <- tuple_of values ;;
        Ok (Field (TLiteral choices) (Some value) None None)
      else
        numeric <- any_key options ["min"; "max"; "round"; "precision"; "step"] ;;
        if numeric then
          round <- dget options "round" (JInt 1) ;;
          below <- lt_one round ;;
          let type_ := if below then TFloat else TInt in
          ge <- dget_opt options "min" ;;
          le <- dget_opt options "max" ;;
          Ok (Field type_ (Some value) ge le)
        else Ok (Field (type_of value) (Some value) None None)
  else Err (ValueError ("Unsupported class type: " ++ class_type)).

(** The fields handed to [create_model], by name; the pydantic class built
    from them is the library's. *)
Definition generate_input_model (workflow : dict json) : res (dict field) :=
  p <- _parse_workflow workflow ;;
  foldM (fun input_fields item =>
           f <- input_field item.2 ;;
           Ok (dict_set item.1 f input_fields))
        [] (p_inputs p).

(** *** Population and retrieval *)

Section Pathlib.

(** [pathlib.Path], with [p / s], [p.as_posix()] and [p.glob(pattern)]; the
    last reads the directory as it is when outputs are retrieved. *)
Variable Path : Type.
Variable truediv : Path -> string -> Path.
Variable as_posix : Path -> string.
Variable glob : Path -> string -> list Path.

(** A value handed to [populate_workflow]. *)
Inductive pyval : Type :=
| PJson (j : json)
| PPath (p : Path).

Definition plain (value : pyval) : json :=
  match value with
  | PPath p => JStr (as_posix p)
  | PJson j => j
  end.

(** [node["inputs"][key] = value] replaces the slot inside the node. *)
Definition _set_node_value (node : json) (value : pyval) : res json :=
  ins <- getitem node "inputs" ;;
  d <- items ins ;;
  kv <- first_item d ;;
  ins' <- setitem ins kv.1 (plain value) ;;
  setitem node "inputs" ins'.

(** [workflow[key]], [key] a value read from a node. *)
Definition lookup_node (workflow : dict json) (key : json) : res (string * json) :=
  match key with
  | JStr s => n <- of_option (dict_get s workflow) (KeyError s) ;; Ok (s, n)
  | JList _ | JDict _ => Err TypeError
  | _ => Err (KeyError "")
  end.

(** The body of the first loop of [populate_workflow]. The node found in
    [input_spec] is the object the document holds: its [class_type] and
    [id] are read from it, and the write goes to the document. *)
Definition set_input (input_spec : dict json) (workflow : dict json)
    (kv : string * pyval) : res (dict json) :=
  node <- of_option (dict_get kv.1 input_spec) (KeyError kv.1) ;;
  class_type <- getitem node "class_type" ;;
  class_type <- as_str class_type ;;
  if negb (startswith class_type "CPackInput")
  then Err (ValueError ("Node " ++ kv.1 ++ " is not an input node"))
  else
    nid <- getitem node "id" ;;
    target <- lookup_node workflow nid ;;
    node' <- _set_node_value target.2 kv.2 ;;
    Ok (dict_set target.1 node' workflow).

Definition filename_prefix (output_path : Path) (session_id node_id : string)
  : json :=
  JStr (as_posix (truediv output_path (session_id ++ node_id ++ "_"))).

(** The body of the second loop of [populate_workflow]. *)
Definition set_prefix (output_path : Path) (session_id : string)
    (workflow : dict json) (kv : string * json) : res (dict json) :=
  let node := kv.2 in
  node_id <- getitem node "id" ;;
  class_type <- getitem node "class_type" ;;
  recognized <- in_set class_type CPACK_OUTPUT_NODES ;;
  if recognized then
    target <- lookup_node workflow node_id ;;
    ins <- getitem target.2 "inputs" ;;
    ins' <- setitem ins "filename_prefix"
              (filename_prefix output_path session_id target.1) ;;
    node' <- setitem target.2 "inputs" ins' ;;
    Ok (dict_set target.1 node' workflow)
  else Ok workflow.

Definition populate_workflow (workflow : dict json) (output_path : Path)
    (session_id : string) (inputs : dict pyval) : res (dict json) :=
  p <- _parse_workflow workflow ;;
  workflow <- foldM (set_input (p_inputs p)) (p_workflow p) inputs ;;
  foldM (set_prefix output_path session_id) workflow (p_outputs p).

(** What one output resolves to: the path when exactly one file matches, the
    list of matches otherwise. *)
Inductive found : Type :=
| One (p : Path)
| Many (l : list Path).

Definition collect (l : list Path) : found :=
  match l with
  | [p] => One p
  | _ => Many l
  end.

Inductive retrieved : Type :=
| Single (f : found)
| ByName (value_map : dict found).

Definition node_id_str (node : json) : res string :=
  node_id <- getitem node "id" ;;
  as_str node_id.

Definition retrieve_workflow_outputs (workflow : dict json) (output_path : Path)
    (session_id : string) : res retrieved :=
  p <- _parse_workflow workflow ;;
  match p_outputs p with
  | [(name, node)] =>
      class_type <- getitem node "class_type" ;;
      recognized <- in_set class_type CPACK_OUTPUT_NODES ;;
      if negb recognized then
        Err (ValueError ("Output node " ++ name ++
                         " is not of type {'CPackOutputFile', 'CPackOutputImage'}"))
      else
        node_id <- node_id_str node ;;
        Ok (Single (collect (glob output_path (session_id ++ node_id ++ "_*"))))
  | outputs =>
      value_map <-
        foldM (fun value_map kv =>
                 node_id <- node_id_str kv.2 ;;
                 Ok (dict_set kv.1 (collect (glob output_path (node_id ++ "_*")))
                       value_map))
              [] outputs ;;
      Ok (ByName value_map)
  end.

End Pathlib.

Arguments PJson {Path} j.
Arguments PPath {Path} p.
Arguments One {Path} p.
Arguments Many {Path} l.
Arguments Single {Path} f.
Arguments ByName {Path} value_map.

End Utils.

(** ** comfy_pack/package.py: model retrieval *)

Module Package.
Import Py.
#[local] Open Scope list_scope.

(** A path is the list of its components; [p / q] appends. *)
Abbreviation path := (list string).

Definition parent (p : path) : path := removelast p.

Inductive entry : Type :=
| File (content : string)
| Symlink (target : path)
| Dir.

(** The changes made to the file system, the latest first. *)
Inductive write : Type :=
| WMkdir (p : path)
| WUnlink (p : path)
| WSymlink (source target : path)
| WMove (src dst : path)
| WStore (p : path) (content : string).

Record world : Type := World {
  files : gmap path entry;
  stdin : list string;
  writes : list write
}.

(** State and exceptions: a call returns its result, or the exception it
    raised, with the world as it left it. *)
Definition io (A : Type) : Type := world -> res A * world.

Definition ret {A} (a : A) : io A := fun w => (Ok a, w).

Definition raise {A} (e : exn) : io A := fun w => (Err e, w).

Definition iobind {A B} (m : io A) (f : A -> io B) : io B :=
  fun w =>
    match m w with
    | (Ok a, w') => f a w'
    | (Err e, w') => (Err e, w')
    end.

Notation "x <~ m ;; k" := (iobind m (fun x => k))
  (at level 100, m at next level, right associativity).
Notation "m ;;; k" := (iobind m (fun _ => k))
  (at level 100, right associativity).

(** [try: m except Exception: pass], telling whether [m] completed. *)
Definition try_ (m : io unit) : io bool :=
  fun w =>
    match m w with
    | (Ok _, w') => (Ok true, w')
    | (Err _, w') => (Ok false, w')
    end.

Definition read {A} (f : gmap path entry -> A) : io A :=
  fun w => (Ok (f (files w)), w).

(** A change of the file system, recorded in the trace. *)
Definition change (ev : write) (f : gmap path entry -> gmap path entry) : io unit :=
  fun w => (Ok tt, World (f (files w)) (stdin w) (ev :: writes w)).

Fixpoint forM {A} (f : A -> io unit) (l : list A) : io unit :=
  match l with
  | [] => ret tt
  | x :: l' => f x ;;; forM f l'
  end.

(** *** The file system *)

(** The number of symbolic links the system follows before it gives up. *)
Definition max_links : nat := 40.

(** The path a chain of links ends at. *)
Fixpoint realpath (fuel : nat) (fs : gmap path entry) (p : path) : option path :=
  match fs !! p with
  | Some (Symlink q) =>
      match fuel with
      | O => None
      | S fuel' => realpath fuel' fs q
      end
  | _ => Some p
  end.

(** [os.stat], which follows links. *)
Definition stat (fs : gmap path entry) (p : path) : option entry :=
  q ← realpath max_links fs p; fs !! q.

(** [p.exists()] *)
Definition exists_ (fs : gmap path entry) (p : path) : bool :=
  match stat fs p with
  | Some _ => true
  | None => false
  end.

(** [p.is_symlink()] *)
Definition is_symlink (fs : gmap path entry) (p : path) : bool :=
  match fs !! p with
  | Some (Symlink _) => true
  | _ => false
  end.

(** [p.is_file()] *)
Definition is_file (fs : gmap path entry) (p : path) : bool :=
  match stat fs p with
  | Some (File _) => true
  | _ => false
  end.

(** [p.is_dir()]; the root is a directory. *)
Definition is_dir (fs : gmap path entry) (p : path) : bool :=
  match p with
  | [] => true
  | _ =>
      match stat fs p with
      | Some Dir => true
      | _ => false
      end
  end.

(** [p.unlink()] *)
Definition unlink (p : path) : io unit :=
  present <~ read (fun fs => fs !! p) ;;
  match present with
  | None => raise FileNotFoundError
  | Some Dir => raise IsADirectoryError
  | Some _ => change (WUnlink p) (delete p)
  end.

(** [os.symlink(source, target)] *)
Definition symlink (source target : path) : io unit :=
  present <~ read (fun fs => fs !! target) ;;
  match present with
  | Some _ => raise FileExistsError
  | None =>
      ok <~ read (fun fs => is_dir fs (parent target)) ;;
      if ok then change (WSymlink source target) (<[target := Symlink source]>)
      else raise FileNotFoundError
  end.

(** [p.mkdir(parents=True, exist_ok=True)], on the reversed path: an entry
    that is there must be a directory, a missing parent is made first. *)
Fixpoint mkdir_parents (rp : list string) : io unit :=
  match rp with
  | [] => ret tt
  | _ :: rparent =>
      let p := reverse rp in
      present <~ read (fun fs => fs !! p) ;;
      match present with
      | Some _ =>
          ok <~ read (fun fs => is_dir fs p) ;;
          if ok then ret tt else raise FileExistsError
      | None =>
          above <~ read (fun fs => fs !! reverse rparent) ;;
          ok <~ read (fun fs => is_dir fs (reverse rparent)) ;;
          if ok then change (WMkdir p) (<[p := Dir]>)
          else
            match above with
            | Some (Symlink _) => raise FileExistsError
            | Some _ => raise NotADirectoryError
            | None =>
                mkdir_parents rparent ;;;
                change (WMkdir p) (<[p := Dir]>)
            end
      end
  end.

Definition mkdir (p : path) : io unit := mkdir_parents (reverse p).

(** [shutil.move(src, dst)] where [dst] is not a directory: the entry at
    [src], a link included, is renamed, replacing what [dst] holds. *)
Definition shutil_move (src dst : path) : io unit :=
  present <~ read (fun fs => fs !! src) ;;
  match present with
  | None => raise FileNotFoundError
  | Some e =>
      ok <~ read (fun fs => is_dir fs (parent dst)) ;;
      if ok then change (WMove src dst) (fun fs => <[dst := e]> (delete src fs))
      else raise FileNotFoundError
  end.

(** [open(p, "wb")] and the writes that follow: the file a chain of links
    ends at is created or replaced. *)
Definition store (p : path) (content : string) : io unit :=
  final <~ read (fun fs => realpath max_links fs p) ;;
  match final with
  | None => raise FileNotFoundError
  | Some q =>
      present <~ read (fun fs => fs !! q) ;;
      ok <~ read (fun fs => is_dir fs (parent q)) ;;
      match present with
      | Some Dir => raise IsADirectoryError
      | _ =>
          if ok then change (WStore q content) (<[q := File content]>)
          else raise FileNotFoundError
      end
  end.

(** Reading a whole file. *)
Definition slurp (p : path) : io string :=
  st <~ read (fun fs => stat fs p) ;;
  match st with
  | Some (File content) => ret content
  | Some _ => raise IsADirectoryError
  | None => raise FileNotFoundError
  end.

(** [shutil.copy2(src, dst)] where [dst] is not a directory. *)
Definition shutil_copy2 (src dst : path) : io unit :=
  content <~ slurp src ;;
  store dst content.

(** [input(prompt)] *)
Definition input : io string :=
  fun w =>
    match stdin w with
    | [] => (Err EOFError, w)
    | line :: rest => (Ok line, World (files w) rest (writes w))
    end.

(** [Path(s)]: the components of [s], without the empty ones and [.]. *)
Fixpoint components (s : string) (cur : string) : list string :=
  let close (cur : string) (rest : list string) :=
    if String.eqb cur "" || String.eqb cur "." then rest else cur :: rest in
  match s with
  | EmptyString => close cur []
  | String c s' =>
      if Ascii.eqb c "/"%char then close cur (components s' "")
      else components s' (String.append cur (String c EmptyString))
  end.

Definition Path (s : string) : path := components s "".

(** A manifest entry, [{filename, sha256, disabled}]. *)
Record model : Type := Model {
  filename : path;
  sha256 : string;
  disabled : bool
}.

(** What [urllib.request.urlopen(url)] and reading the response give:
    [urlopen] raises; or every [read] returns and [content] is what they
    returned up to the empty one, whether or not that is all the server
    announced; or a [read] raises after [received]. *)
Inductive response : Type :=
| Refused
| Body (content : string)
| Broken (received : string).

Section Environment.

(** [MODEL_DIR] of [const.py], the digest [get_sha256] of [hash.py] computes
    from the content of a file, and the network. *)
Variable MODEL_DIR : path.
Variable digest : string -> string.
Variable urlopen : string -> response.

(** [get_sha256(str(p))] *)
Definition get_sha256 (p : path) : io string :=
  content <~ slurp p ;;
  ret (digest content).

(** [download_file(url, dest_path, progress_callback)]: an exception is
    caught, what was written is removed, and the result is [False]. *)
Definition download_file (url : string) (dest_path : path) : io bool :=
  let transfer : io unit :=
    match urlopen url with
    | Refused => raise (RuntimeError "urlopen")
    | Body content => store dest_path content
    | Broken received =>
        store dest_path received ;;; raise (RuntimeError "read")
    end in
  done <~ try_ transfer ;;
  if done then ret true
  else
    there <~ read (fun fs => exists_ fs dest_path) ;;
    (if there then unlink dest_path else ret tt) ;;;
    ret false.

Definition create_model_symlink (global_path : path) (sha : string)
    (target_path : path) (filename : path) : io unit :=
  let source := global_path ++ [sha] in
  let target := target_path ++ filename in
  there <~ read (fun fs => exists_ fs target) ;;
  (if there then
     link <~ read (fun fs => is_symlink fs target) ;;
     if link then unlink target
     else raise (RuntimeError "File already exists and is not a symlink")
   else ret tt) ;;;
  mkdir (parent target) ;;;
  symlink source target.

(** One pass of the body of [while True], after [input]: [true] stands for
    [break], [false] for [continue]. *)
Definition install_from (workspace : path) (m : model) (answer : string) : io bool :=
  let sha := sha256 m in
  let target_path := MODEL_DIR ++ [sha] in
  fetched <~
    (if startswith answer "http://" || startswith answer "https://" then
       try_ (download_file answer target_path ;;; ret tt) ;;;
       there <~ read (fun fs => exists_ fs target_path) ;;
       if negb there then ret false
       else
         terget_sha <~ get_sha256 target_path ;;
         if negb (String.eqb terget_sha sha) then
           unlink target_path ;;; ret false
         else ret true
     else
       let downloaded_path := Path answer in
       there <~ read (fun fs => exists_ fs downloaded_path) ;;
       if negb there then ret false
       else
         target_sha <~ get_sha256 downloaded_path ;;
         if negb (String.eqb target_sha sha) then ret false
         else shutil_copy2 downloaded_path target_path ;;; ret true) ;;
  if fetched then
    create_model_symlink MODEL_DIR sha workspace (filename m) ;;; ret true
  else ret false.

(** [while True: path = input(..); ..], on the lines standard input still
    holds: each turn reads one, and [input] raises at the end of input. *)
Fixpoint ask (lines : list string) (workspace : path) (m : model) : io unit :=
  match lines with
  | [] => raise EOFError
  | _ :: lines' =>
      answer <~ input ;;
      if String.eqb (lower answer) "skip" then ret tt
      else
        installed <~
          (fun w =>
             match install_from workspace m answer w with
             | (Ok b, w') => (Ok b, w')
             | (Err _, w') => (Ok false, w')
             end) ;;
        if installed then ret tt else ask lines' workspace m
  end.

(** The body of [for model in models]. *)
Definition retrive_model (workspace : path) (download : bool) (m : model) : io unit :=
  let sha := sha256 m in
  let here := workspace ++ filename m in
  there <~ read (fun fs => exists_ fs here) ;;
  if there then
    adopt <~ read (fun fs => negb (exists_ fs (MODEL_DIR ++ [sha])) && is_file fs here) ;;
    if adopt then
      shutil_move here (MODEL_DIR ++ [sha]) ;;;
      create_model_symlink MODEL_DIR sha workspace (filename m)
    else ret tt
  else
    cached <~ read (fun fs => exists_ fs (MODEL_DIR ++ [sha])) ;;
    if cached then create_model_symlink MODEL_DIR sha workspace (filename m)
    else if disabled m then ret tt
    else if negb download then ret tt
    else fun w => ask (stdin w) workspace m w.

Definition retrive_models (models : list model) (workspace : path)
    (download : bool) : io unit :=
  match models with
  | [] => ret tt
  | _ =>
      mkdir MODEL_DIR ;;;
      forM (retrive_model workspace download) models
  end.

End Environment.

End Package.

(** ** Well-formed documents *)

Module Shape.
Import Py Utils.

(** A slot that reads as a link holds two hashable values. *)
Definition valid_slot (v : json) : bool :=
  match v with
  | JList [a; b] => hashable a && hashable b
  | _ => true
  end.

(** The node has a title, a [str], under [_meta]. *)
Definition titled (d : dict json) : bool :=
  match dict_get "_meta" d with
  | Some (JDict meta) =>
      match dict_get "title" meta with
      | Some (JStr _) => true
      | _ => false
      end
  | _ => false
  end.

Definition is_input_type (class_type : string) : bool :=
  startswith class_type "CPackInput".

Definition is_output_type (class_type : string) : bool :=
  startswith class_type "CPackOutput".

(** A node of the API format: a mapping with its [inputs], a mapping, and
    its [class_type], a [str]; an input or output node has a title. *)
Definition valid_node (node : json) : bool :=
  match node with
  | JDict d =>
      match dict_get "inputs" d, dict_get "class_type" d with
      | Some (JDict ins), Some (JStr class_type) =>
          forallb (fun slot : string * json => valid_slot slot.2) ins
          && (if is_input_type class_type || is_output_type class_type
              then titled d else true)
      | _, _ => false
      end
  | _ => false
  end.

(** A valid graph document: the API format, every node well formed. *)
Definition valid_workflow (workflow : dict json) : bool :=
  negb (dict_has "last_node_id" workflow)
  && forallb (fun item : string * json => valid_node item.2) workflow.

(** The class of a node, when it has one. *)
Definition class_of (node : json) : option string :=
  match getitem node "class_type" with
  | Ok (JStr class_type) => Some class_type
  | _ => None
  end.

Definition is_input_node (node : json) : bool :=
  match class_of node with
  | Some class_type => is_input_type class_type
  | None => false
  end.

Definition is_output_node (node : json) : bool :=
  match class_of node with
  | Some class_type => is_output_type class_type
  | None => false
  end.

(** An output node of one of the two recognized kinds. *)
Definition is_recognized_output (node : json) : bool :=
  match class_of node with
  | Some class_type => is_output_type class_type && str_in class_type CPACK_OUTPUT_NODES
  | None => false
  end.

(** The node as the second loop of [_parse_workflow] leaves it. *)
Definition with_id (id : string) (node : json) : json :=
  match node with
  | JDict d => JDict (dict_set "id" (JStr id) d)
  | _ => node
  end.

Definition annotate (item : string * json) : string * json :=
  (item.1, with_id item.1 item.2).

(** The slot of a node, when the node has it. *)
Definition slot_of (node : json) (slot : string) : option json :=
  match getitem node "inputs" with
  | Ok (JDict ins) => dict_get slot ins
  | _ => None
  end.

(** The first slot of a node, the one [_set_node_value] writes. *)
Definition first_slot (node : json) : option string :=
  match getitem node "inputs" with
  | Ok (JDict ((slot, _) :: _)) => Some slot
  | _ => None
  end.

(** Some name among [names] is that of the parsed input with this id. *)
Definition targets (p : parsed) (names : list string) (id : string) : Prop :=
  exists name node,
    name ∈ names /\ dict_get name (p_inputs p) = Some node /\
    getitem node "id" = Ok (JStr id).

(** The slots population may write: the first slot of a targeted input
    node, and the filename prefix of a recognized output node. *)
Definition written (p : parsed) (names : list string) (id : string) (node : json)
    (slot : string) : Prop :=
  (targets p names id /\ first_slot node = Some slot)
  \/ (slot = "filename_prefix" /\ is_recognized_output node = true).

(** A value that reads as a link: a list of two. *)
Definition is_link (v : json) : bool :=
  match v with
  | JList [_; _] => true
  | _ => false
  end.

(** How an entry of a mapping got its name: the identifier of its node,
    with the node id as a suffix when the identifier was taken. *)
Definition named (dm : dep_map) (name id : string) (node : json) : Prop :=
  exists base, _get_node_identifier node dm = Ok base /\
               (name = base \/ name = base ++ "_" ++ id).

(** Where an entry of the two mappings comes from: a node of the document,
    stored with its key as [id]. *)
Definition from_document (wf : dict json) (dm : dep_map) (entry : string * json) : Prop :=
  exists id node,
    (id, node) ∈ wf /\ entry.2 = with_id id node /\
    getitem entry.2 "id" = Ok (JStr id) /\ named dm entry.1 id entry.2.

(** The node [d] with the slot [s] of its inputs [ins] set to [v]. *)
Definition write_slot (d ins : dict json) (s : string) (v : json) : json :=
  JDict (dict_set "inputs" (JDict (dict_set s v ins)) d).

(** Two documents with the same keys in the same order, node by node in the
    relation [R]. *)
Definition pointwise (R : string -> json -> json -> Prop) (wf wf' : dict json) : Prop :=
  Forall2 (fun x y : string * json => x.1 = y.1 /\ R x.1 x.2 y.2) wf wf'.

(** The node [n'] is the node [n] but for its [id] and for the slots in
    [may]; [same_slots] asks that no slot was added. *)
Definition kept (may : string -> Prop) (same_slots : bool) (n n' : json) : Prop :=
  exists d d' ins ins',
    n = JDict d /\ n' = JDict d' /\
    (forall f, f <> "id" -> f <> "inputs" -> dict_get f d' = dict_get f d) /\
    dict_get "inputs" d = Some (JDict ins) /\
    dict_get "inputs" d' = Some (JDict ins') /\
    (forall s, ~ may s -> dict_get s ins' = dict_get s ins) /\
    (same_slots = true -> keys ins' = keys ins).

(** The node [n'] has the class, the title and the links of [n]; a link it
    holds, [n] holds in the same slot. *)
Definition alike (same_slots : bool) (n n' : json) : Prop :=
  exists d d' ins ins',
    n = JDict d /\ n' = JDict d' /\
    dict_get "class_type" d' = dict_get "class_type" d /\
    dict_get "_meta" d' = dict_get "_meta" d /\
    dict_get "inputs" d = Some (JDict ins) /\
    dict_get "inputs" d' = Some (JDict ins') /\
    (forall dm, foldM add_link dm ins' = foldM add_link dm ins) /\
    (forall s x, dict_get s ins' = Some x -> is_link x = true -> dict_get s ins = Some x) /\
    (same_slots = true -> keys ins' = keys ins).

Section Pathlib.
Variable Path : Type.
Variable truediv : Path -> string -> Path.
Variable as_posix : Path -> string.

(** Population writes no link and overwrites none: no value handed in is a
    list of two, the first slot of a targeted input holds none, and neither
    does the [filename_prefix] of a recognized output. *)
Definition keeps_links (p : parsed) (values : dict (pyval Path)) : Prop :=
  (forall k v, (k, v) ∈ values -> is_link (plain Path as_posix v) = false) /\
  (forall k node x,
      k ∈ keys values -> dict_get k (p_inputs p) = Some node ->
      _get_node_value node = Ok x -> is_link x = false) /\
  (forall name node x,
      (name, node) ∈ p_outputs p -> is_recognized_output node = true ->
      slot_of node "filename_prefix" = Some x -> is_link x = false).

(** The node under [id] has the filename prefix of its id. *)
Definition prefixed (output_path : Path) (session_id : string) (wf : dict json)
    (id : string) : Prop :=
  exists node,
    dict_get id wf = Some node /\
    slot_of node "filename_prefix" = Some (filename_prefix Path truediv as_posix output_path session_id id).

End Pathlib.

End Shape.

(** ** Sample documents *)

Module Samples.
Import Py Utils.

Definition node (class_type title : string) (inputs : dict json) : json :=
  JDict [("inputs", JDict inputs);
         ("class_type", JStr class_type);
         ("_meta", JDict [("title", JStr title)])].

(** An input consumed by a sampler, and one image output. *)
Definition small_workflow : dict json :=
  [("1", node "CPackInputValue" "my input" [("value", JInt 3)]);
   ("2", node "KSampler" "KSampler"
           [("seed", JList [JStr "1"; JInt 0]); ("steps", JInt 20)]);
   ("7", node "CPackOutputImage" "result"
           [("images", JList [JStr "2"; JInt 0]); ("filename_prefix", JStr "x")])].

(** The export of the editor, not of the API. *)
Definition editor_export : dict json :=
  [("last_node_id", JInt 12); ("last_link_id", JInt 9); ("nodes", JList [])].

(** An input of the generic kind with bounds and a step, and no [round]. *)
Definition bounded_input : json :=
  JDict [("inputs", JDict [("value", JFloat 0.5)]);
         ("class_type", JStr "CPackInputValue");
         ("_meta", JDict [("title", JStr "strength");
                          ("options", JDict [("min", JInt 0); ("max", JInt 1);
                                             ("step", JFloat 0.01)])])].

Definition bounded_workflow : dict json := [("5", bounded_input)].

(** An input whose title starts with a digit. *)
Definition digit_workflow : dict json :=
  [("4", node "CPackInputValue" "3D Model" [("value", JStr "cube")])].

(** Two image outputs that kept the same title. *)
Definition twin_outputs : dict json :=
  [("3", node "CPackOutputImage" "out"
           [("images", JList [JStr "9"; JInt 0]); ("filename_prefix", JStr "x")]);
   ("4", node "CPackOutputImage" "out"
           [("images", JList [JStr "9"; JInt 0]); ("filename_prefix", JStr "y")])].

(** Three inputs, the suffixed name of the third being the title of the
    first. *)
Definition shadowed_inputs : dict json :=
  [("1", node "CPackInputValue" "a_2" [("value", JInt 1)]);
   ("x", node "CPackInputValue" "a" [("value", JInt 2)]);
   ("2", node "CPackInputValue" "a" [("value", JInt 3)])].

(** An input that feeds the filename prefix of the output. *)
Definition prefix_link_workflow : dict json :=
  [("1", node "CPackInputValue" "File Prefix" [("value", JStr "img")]);
   ("2", node "CPackOutputImage" "result"
           [("images", JList [JStr "9"; JInt 0]);
            ("filename_prefix", JList [JStr "1"; JInt 0])])].

(** Paths as strings, for the samples: [p / s] joins with a slash. *)
Definition join (p s : string) : string := p ++ "/" ++ s.

End Samples.

(** ** Linked workspaces *)

Module Store.
Import Py Package.
#[local] Open Scope list_scope.

(** The path is the root or holds a directory, itself and not a link. *)
Definition plain_dir (fs : gmap path entry) (p : path) : Prop :=
  p = [] \/ fs !! p = Some Dir.

Section Environment.
Variable MODEL_DIR : path.

(** The place of a hash in the store. *)
Definition stored (sha : string) : path := MODEL_DIR ++ [sha].

(** The entry is linked: its workspace path is a symbolic link to the place
    of its hash in the store, and the link resolves. *)
Definition linked (fs : gmap path entry) (workspace : path) (m : model) : Prop :=
  fs !! (workspace ++ filename m) = Some (Symlink (stored (sha256 m)))
  /\ exists_ fs (workspace ++ filename m) = true.

End Environment.

(** A workspace with a file of the user where the manifest wants a model
    whose hash is another, and an empty store. *)
Definition home : path := ["home"; ".comfypack"; "models"].

Definition wanted : model := Model ["models"; "x.bin"] "ab" false.

Definition zero_digest (content : string) : string := "00".

Definition offline (url : string) : response := Refused.

Definition user_files : gmap path entry :=
  <[ ["ws"; "models"; "x.bin"] := File "user data" ]>
    (<[ ["ws"; "models"] := Dir ]>
       (<[ ["ws"] := Dir ]>
          (<[ ["home"; ".comfypack"; "models"] := Dir ]>
             (<[ ["home"; ".comfypack"] := Dir ]>
                (<[ ["home"] := Dir ]> ∅))))).

Definition user_world : world := World user_files [] [].

(** The same workspace once the model is linked. *)
Definition linked_files : gmap path entry :=
  <[ ["ws"; "models"; "x.bin"] := Symlink ["home"; ".comfypack"; "models"; "ab"] ]>
    (<[ ["home"; ".comfypack"; "models"; "ab"] := File "weights" ]> user_files).

Definition linked_world : world := World linked_files [] [].

End Store.

(** ** Shapes of names *)

Module Names.
Import Py.

(** The class [[a-z0-9_]]. *)
Definition is_lower_word (c : ascii) : bool :=
  in_range 97 122 c || is_ascii_digit c || is_underscore c.

(** The string starts with a decimal digit. *)
Definition starts_with_digit (s : string) : bool :=
  match s with
  | String c _ => is_ascii_digit c
  | EmptyString => false
  end.

Definition starts_with_underscore (s : string) : bool :=
  match s with
  | String c _ => is_underscore c
  | EmptyString => false
  end.

Fixpoint ends_with_underscore (s : string) : bool :=
  match s with
  | EmptyString => false
  | String c EmptyString => is_underscore c
  | String _ s' => ends_with_underscore s'
  end.

(** No two underscores in a row. *)
Fixpoint no_double_underscore (s : string) : bool :=
  match s with
  | String c s' =>
      negb (is_underscore c && starts_with_underscore s') && no_double_underscore s'
  | EmptyString => true
  end.

(** A name as normalisation leaves it: a single underscore, or a name that
    neither starts nor ends with one; never two underscores in a row. *)
Definition tidy (s : string) : Prop :=
  all_chars is_lower_word s = true /\
  no_double_underscore s = true /\
  (s = "_" \/ (s <> "" /\ starts_with_underscore s = false
               /\ ends_with_underscore s = false)).

End Names.

Module Errors.
Import Py.

(** The exception is a [ValueError]. *)
Definition is_value_error (e : exn) : bool :=
  match e with
  | ValueError _ => true
  | _ => false
  end.

End Errors.

Module Ids.
Import Py Utils.

(** The id an entry of a parsed mapping carries. *)
Definition id_of (node : json) : option string :=
  match getitem node "id" with
  | Ok (JStr id) => Some id
  | _ => None
  end.

(** The node under [id] reads as the value [v]. *)
Definition holds (wf : dict json) (id : string) (v : json) : Prop :=
  exists node, dict_get id wf = Some node /\ _get_node_value node = Ok v.

End Ids.

Module Entries.
Import Py Package.

(** An entry that is no symbolic link: a file or a directory. *)
Definition is_real (e : entry) : bool :=
  match e with
  | Symlink _ => false
  | _ => true
  end.

(** Every file and directory of [fs] is in [fs'] as it was. *)
Definition keeps_real (fs fs' : gmap path entry) : Prop :=
  forall p e, fs !! p = Some e -> is_real e = true -> fs' !! p = Some e.

End Entries.

Module Quiet.
Import Py Package.

(** The call reads no line of standard input. *)
Definition keeps_stdin {A} (m : io A) : Prop :=
  forall w, stdin (m w).2 = stdin w.

(** An answer the loop of [retrive_models] can do nothing with: it is not
    [skip], no URL, and names no file that exists. *)
Definition unusable (fs : gmap path entry) (answer : string) : bool :=
  negb (String.eqb (lower answer) "skip")
  && negb (startswith answer "http://" || startswith answer "https://")
  && negb (exists_ fs (Path answer)).

End Quiet.

(** ** The parts of [download_file] and of the loop of [retrive_models] *)

Module Download.
Import Py Package Store.
#[local] Open Scope list_scope.

Section Environment.
Variable MODEL_DIR : path.
Variable digest : string -> string.
Variable urlopen : string -> response.

(** The body of [try] in [download_file]. *)
Definition transfer (url : string) (dest_path : path) : io unit :=
  match urlopen url with
  | Refused => raise (RuntimeError "urlopen")
  | Body content => store dest_path content
  | Broken received => store dest_path received ;;; raise (RuntimeError "read")
  end.

(** The handler of [download_file]: what was written is removed. *)
Definition cleanup (dest_path : path) : io bool :=
  there <~ read (fun fs => exists_ fs dest_path) ;;
  (if there then unlink dest_path else ret tt) ;;;
  ret false.

(** The branch of the loop for a URL, up to the making of the link. *)
Definition fetch_url (answer sha : string) : io bool :=
  let target_path := MODEL_DIR ++ [sha] in
  try_ (download_file urlopen answer target_path ;;; ret tt) ;;;
  there <~ read (fun fs => exists_ fs target_path) ;;
  if negb there then ret false
  else
    terget_sha <~ get_sha256 digest target_path ;;
    if negb (String.eqb terget_sha sha) then
      unlink target_path ;;; ret false
    else ret true.

(** The branch of the loop for a local file, up to the making of the link. *)
Definition fetch_local (answer sha : string) : io bool :=
  let target_path := MODEL_DIR ++ [sha] in
  let downloaded_path := Path answer in
  there <~ read (fun fs => exists_ fs downloaded_path) ;;
  if negb there then ret false
  else
    target_sha <~ get_sha256 digest downloaded_path ;;
    if negb (String.eqb target_sha sha) then ret false
    else shutil_copy2 downloaded_path target_path ;;; ret true.

(** The store holds nothing for the hash, or a file with that digest. *)
Definition verified (fs : gmap path entry) (sha : string) : Prop :=
  fs !! stored MODEL_DIR sha = None
  \/ exists content, fs !! stored MODEL_DIR sha = Some (File content) /\ digest content = sha.

End Environment.

End Download.

(** ** More documents and workspaces *)

Module Cases.
Import Py Utils Package Store Samples.
#[local] Open Scope list_scope.

(** Two outputs with titles of their own. *)
Definition two_outputs : dict json :=
  [("3", node "CPackOutputImage" "first"
           [("images", JList [JStr "9"; JInt 0]); ("filename_prefix", JStr "x")]);
   ("4", node "CPackOutputFile" "second"
           [("filename", JList [JStr "9"; JInt 1]); ("filename_prefix", JStr "y")])].

(** An input of a class the schema does not know. *)
Definition odd_input : dict json :=
  [("9", node "CPackInputAudio" "sound" [("value", JStr "a.wav")])].

(** What the pattern [3_*] finds, and nothing for any other. *)
Definition one_image (dir pattern : string) : list string :=
  if String.eqb pattern "3_*" then [(dir ++ "/3_00001.png")%string] else [].

(** The workspace and the store, with the directories only. *)
Definition bare_files : gmap path entry :=
  <[ ["ws"; "models"] := Dir ]>
    (<[ ["ws"] := Dir ]>
       (<[ ["home"; ".comfypack"; "models"] := Dir ]>
          (<[ ["home"; ".comfypack"] := Dir ]>
             (<[ ["home"] := Dir ]> ∅)))).

(** The store holds the model and the workspace does not. *)
Definition cached_world : world :=
  World (<[ ["home"; ".comfypack"; "models"; "ab"] := File "weights" ]> bare_files) [] [].

(** The workspace links to a place of the store that holds nothing. *)
Definition dangling_world : world :=
  World (<[ ["ws"; "models"; "x.bin"]
            := Symlink ["home"; ".comfypack"; "models"; "ab"] ]> bare_files) [] [].

(** The model is missing, and the user answers. *)
Definition asking_world (answers : list string) : world :=
  World bare_files answers [].

(** A server with one file. *)
Definition serving (url : string) : response :=
  if String.eqb url "http://h/x" then Body "weights" else Refused.

End Cases.

(** * Properties *)

(** ** Dictionaries and loops *)

Module DictFacts.
Import Py.

Ltac eqb_cases k k' :=
  destruct (String.eqb_spec k k') as [?|?]; simplify_eq/=.

Section Dict.
Context {V : Type}.
Implicit Types (d : dict V) (k : string) (v : V).

Lemma dict_get_elem k v d : dict_get k d = Some v -> (k, v) ∈ d.
Proof.
  induction d as [|[k' v'] d IH]; simpl; [done|].
  eqb_cases k k'.
  - intros [= ->]. left.
  - intros H. right. auto.
Qed.

Lemma dict_get_None k d : dict_get k d = None <-> k ∉ keys d.
Proof.
  unfold keys. induction d as [|[k' v'] d IH]; simpl.
  - split; [intros _; apply not_elem_of_nil|done].
  - rewrite not_elem_of_cons. destruct (String.eqb_spec k k') as [->|Hne].
    + split; [done|]. intros [? _]. done.
    + rewrite IH. split; [by intros ?|by intros [_ ?]].
Qed.

Lemma dict_has_keys k d : dict_has k d = true <-> k ∈ keys d.
Proof.
  unfold dict_has. destruct (dict_get k d) eqn:E.
  - split; [intros _|done].
    apply dict_get_elem in E. unfold keys. apply list_elem_of_fmap.
    by exists (k, v).
  - apply dict_get_None in E. split; [done|]. intros; contradiction.
Qed.

Lemma dict_get_NoDup k v d : NoDup (keys d) -> (k, v) ∈ d -> dict_get k d = Some v.
Proof.
  unfold keys. induction d as [|[k' v'] d IH]; simpl.
  - intros _ H. by apply elem_of_nil in H.
  - rewrite NoDup_cons. intros [Hk Hd] H. apply elem_of_cons in H as [H|H].
    + simplify_eq. by rewrite String.eqb_refl.
    + eqb_cases k k'; [|auto].
      exfalso. apply Hk. apply list_elem_of_fmap. by exists (k', v).
Qed.

Lemma dict_get_set_eq k v d : dict_get k (dict_set k v d) = Some v.
Proof.
  induction d as [|[k' v'] d IH]; simpl.
  - by rewrite String.eqb_refl.
  - eqb_cases k k'; simpl.
    + by rewrite String.eqb_refl.
    + destruct (String.eqb_spec k k'); [done|]. exact IH.
Qed.

Lemma dict_get_set_ne k k' v d : k <> k' -> dict_get k' (dict_set k v d) = dict_get k' d.
Proof.
  intros Hne. induction d as [|[k0 v0] d IH]; simpl.
  - destruct (String.eqb_spec k' k); [congruence|done].
  - eqb_cases k k0; simpl.
    + destruct (String.eqb_spec k' k0); [congruence|done].
    + destruct (String.eqb_spec k' k0); [done|]. exact IH.
Qed.

Lemma keys_dict_set k v d :
  keys (dict_set k v d) = if dict_has k d then keys d else (keys d ++ [k])%list.
Proof.
  unfold keys, dict_has. induction d as [|[k' v'] d IH]; simpl; [done|].
  eqb_cases k k'; [done|].
  rewrite IH. by destruct (dict_get k d).
Qed.

Lemma keys_dict_set_present k v d : k ∈ keys d -> keys (dict_set k v d) = keys d.
Proof.
  intros H. rewrite keys_dict_set. apply dict_has_keys in H. by rewrite H.
Qed.

Lemma NoDup_keys_dict_set k v d : NoDup (keys d) -> NoDup (keys (dict_set k v d)).
Proof.
  intros Hd. rewrite keys_dict_set. destruct (dict_has k d) eqn:E; [done|].
  apply NoDup_app. split_and!; [done| |apply NoDup_singleton].
  intros x Hx Hk. apply list_elem_of_singleton in Hk as ->.
  apply dict_has_keys in Hx. congruence.
Qed.

Lemma dict_set_elem k v d x : x ∈ dict_set k v d -> x = (k, v) \/ x ∈ d.
Proof.
  induction d as [|[k' v'] d IH]; simpl.
  - intros H. apply list_elem_of_singleton in H. by left.
  - eqb_cases k k'.
    + intros H. apply elem_of_cons in H as [->|H]; [by left|right; by right].
    + intros H. apply elem_of_cons in H as [->|H]; [right; left|].
      destruct (IH H); [by left|right; by right].
Qed.

End Dict.

Section FoldM.
Context {A B : Type}.
Implicit Types (f : A -> B -> res A) (l : list B).

Lemma foldM_app f a l1 l2 :
  foldM f a (l1 ++ l2) = bind (foldM f a l1) (fun a' => foldM f a' l2).
Proof.
  revert a. induction l1 as [|x l1 IH]; intros a; simpl; [done|].
  destruct (f a x); simpl; [apply IH|done].
Qed.

(** An invariant every step keeps holds when the loop completes. *)
Lemma foldM_invariant (P : A -> Prop) f l a a' :
  (forall a x a', x ∈ l -> P a -> f a x = Ok a' -> P a') ->
  P a -> foldM f a l = Ok a' -> P a'.
Proof.
  revert a. induction l as [|x l IH]; intros a Hstep Ha; simpl.
  - by intros [= <-].
  - destruct (f a x) as [a1|] eqn:E; simpl; [|done].
    apply IH; [|eapply Hstep; [left|done..]].
    intros ? ? ? ?. apply Hstep. by right.
Qed.

End FoldM.

Lemma bind_Ok {A B} (m : res A) (f : A -> res B) b :
  bind m f = Ok b -> exists a, m = Ok a /\ f a = Ok b.
Proof. destruct m; simpl; [eauto|done]. Qed.

(** Takes a hypothesis [bind m f = Ok b] apart. *)
Ltac bind_inv H :=
  repeat lazymatch type of H with
  | bind ?m ?f = Ok ?b =>
      let a := fresh "a" in
      let E := fresh "E" in
      apply bind_Ok in H as (a & E & H)
  end.

End DictFacts.

(** ** Parsing *)

Module ParseProps.
Import Py Utils Shape DictFacts.

Lemma prefix_cons a p s :
  String.prefix (String a p) s = true ->
  exists s', s = String a s' /\ String.prefix p s' = true.
Proof.
  destruct s as [|b s]; simpl; [done|].
  destruct (ascii_dec a b) as [<-|]; [eauto|done].
Qed.

Lemma input_not_output class_type :
  is_input_type class_type = true -> is_output_type class_type = false.
Proof.
  unfold is_input_type, is_output_type, startswith. intros Hi.
  destruct (String.prefix "CPackOutput" class_type) eqn:Ho; [exfalso|done].
  do 6 (apply prefix_cons in Hi as (? & -> & Hi);
        apply prefix_cons in Ho as (? & [= <-] & Ho)).
Qed.

Lemma getitem_with_id id d k :
  k <> "id" -> getitem (JDict (dict_set "id" (JStr id) d)) k = getitem (JDict d) k.
Proof. intros Hk. simpl. by rewrite dict_get_set_ne. Qed.

Lemma getitem_id id d : getitem (JDict (dict_set "id" (JStr id) d)) "id" = Ok (JStr id).
Proof. simpl. by rewrite dict_get_set_eq. Qed.

Lemma class_of_dict node class_type :
  class_of node = Some class_type ->
  exists d, node = JDict d /\ dict_get "class_type" d = Some (JStr class_type).
Proof.
  unfold class_of. destruct node as [| | | | | |d]; try done. simpl.
  destruct (dict_get "class_type" d) as [[| | | |ct| |]|] eqn:E; simpl; try done.
  intros [= ->]. eauto.
Qed.

Lemma class_of_with_id id node : class_of (with_id id node) = class_of node.
Proof.
  destruct node as [| | | | | |d]; try done.
  unfold class_of, with_id. by rewrite getitem_with_id.
Qed.

Lemma recognized_is_output class_type :
  str_in class_type CPACK_OUTPUT_NODES = true -> is_output_type class_type = true.
Proof.
  unfold str_in. simpl. rewrite !orb_true_iff.
  intros [H|[H|H]]; [apply String.eqb_eq in H as ->..|]; done.
Qed.

(** What one turn of the second loop does. *)
Lemma classify_node_inv dm st id node st' :
  classify_node dm st (id, node) = Ok st' ->
  exists class_type,
    class_of node = Some class_type /\
    p_workflow st' = (p_workflow st ++ [annotate (id, node)])%list /\
    if is_input_type class_type then
      exists name,
        _get_node_identifier (with_id id node) dm = Ok name /\
        p_inputs st' = dict_set (suffixed name id (p_inputs st)) (with_id id node) (p_inputs st) /\
        p_outputs st' = p_outputs st
    else if is_output_type class_type then
      exists name,
        _get_node_identifier (with_id id node) [] = Ok name /\
        p_inputs st' = p_inputs st /\
        p_outputs st' = dict_set (suffixed name id (p_inputs st)) (with_id id node) (p_outputs st)
    else p_inputs st' = p_inputs st /\ p_outputs st' = p_outputs st.
Proof.
  unfold classify_node. cbn [fst snd]. intros H.
  destruct node as [| | | | | |d]; try done. cbn [setitem bind] in H.
  rewrite getitem_with_id in H by done.
  destruct (getitem (JDict d) "class_type") as [ct|] eqn:Ect; [|done].
  cbn [bind] in H. destruct ct as [| | | |ct| |]; try done. cbn [as_str bind] in H.
  exists ct. unfold class_of. rewrite Ect. split; [done|].
  unfold annotate, with_id, is_input_type, is_output_type. cbn [fst snd].
  destruct (startswith ct "CPackInput").
  - bind_inv H. injection H as <-. eauto.
  - destruct (startswith ct "CPackOutput").
    + bind_inv H. injection H as <-. eauto.
    + injection H as <-. eauto.
Qed.

Lemma classify_fold_workflow dm wf st st' :
  foldM (classify_node dm) st wf = Ok st' ->
  p_workflow st' = (p_workflow st ++ (annotate <$> wf))%list.
Proof.
  revert st. induction wf as [|[id node] wf IH]; intros st; simpl.
  - intros [= <-]. by rewrite app_nil_r.
  - intros H. bind_inv H. apply classify_node_inv in E as (ct & _ & Hw & _).
    rewrite (IH _ H), Hw, <- app_assoc. done.
Qed.

Lemma classify_fold_NoDup dm wf st st' :
  foldM (classify_node dm) st wf = Ok st' ->
  NoDup (keys (p_inputs st)) /\ NoDup (keys (p_outputs st)) ->
  NoDup (keys (p_inputs st')) /\ NoDup (keys (p_outputs st')).
Proof.
  intros H Hst.
  eapply (foldM_invariant
            (fun st => NoDup (keys (p_inputs st)) /\ NoDup (keys (p_outputs st))));
    [|exact Hst|exact H].
  clear. intros st [id node] st' _ [Hi Ho] H.
  apply classify_node_inv in H as (ct & _ & _ & H).
  destruct (is_input_type ct); [|destruct (is_output_type ct)].
  - destruct H as (name & _ & -> & ->). split; [by apply NoDup_keys_dict_set|done].
  - destruct H as (name & _ & -> & ->). split; [done|by apply NoDup_keys_dict_set].
  - destruct H as [-> ->]. done.
Qed.

Lemma suffixed_cases name id inputs :
  suffixed name id inputs = name \/ suffixed name id inputs = name ++ "_" ++ id.
Proof. unfold suffixed. destruct (dict_has name inputs); auto. Qed.

Lemma classify_fold_entries dm wf st st' :
  foldM (classify_node dm) st wf = Ok st' ->
  (forall e, e ∈ p_inputs st' -> e ∈ p_inputs st \/ from_document wf dm e) /\
  (forall e, e ∈ p_outputs st' -> e ∈ p_outputs st \/ from_document wf [] e).
Proof.
  revert st. induction wf as [|[id node] wf IH]; intros st; simpl.
  - intros [= <-]. auto.
  - intros H. bind_inv H. apply IH in H as [Hi Ho].
    apply classify_node_inv in E as (ct & Hct & _ & E).
    apply class_of_dict in Hct as (d & -> & _).
    assert (forall dm' e, from_document wf dm' e -> from_document ((id, JDict d) :: wf) dm' e)
      as Hmono.
    { intros dm' e (id' & node' & Hin & ?). exists id', node'. split; [by right|done]. }
    assert (forall dm' name,
               _get_node_identifier (with_id id (JDict d)) dm' = Ok name ->
               from_document ((id, JDict d) :: wf) dm'
                 (suffixed name id (p_inputs st), with_id id (JDict d))) as Hnew.
    { intros dm' name Hn. exists id, (JDict d). split; [left|]. split; [done|].
      split; [apply getitem_id|]. exists name. split; [done|apply suffixed_cases]. }
    destruct (is_input_type ct); [|destruct (is_output_type ct)].
    + destruct E as (name & Hn & Ei & Eo). rewrite Ei, Eo in *. split.
      * intros e He. destruct (Hi e He) as [He'|He']; [|by auto].
        apply dict_set_elem in He' as [->|?]; auto.
      * intros e He. destruct (Ho e He); auto.
    + destruct E as (name & Hn & Ei & Eo). rewrite Ei, Eo in *. split.
      * intros e He. destruct (Hi e He); auto.
      * intros e He. destruct (Ho e He) as [He'|He']; [|by auto].
        apply dict_set_elem in He' as [->|?]; auto.
    + destruct E as [Ei Eo]. rewrite Ei, Eo in *. split.
      * intros e He. destruct (Hi e He); auto.
      * intros e He. destruct (Ho e He); auto.
Qed.

Lemma parse_inv wf p :
  _parse_workflow wf = Ok p ->
  dict_has "last_node_id" wf = false /\
  exists dm, build_dep_map wf = Ok dm /\
             foldM (classify_node dm) (Parsed [] [] []) wf = Ok p.
Proof.
  unfold _parse_workflow. destruct (dict_has "last_node_id" wf); [done|].
  intros H. bind_inv H. eauto.
Qed.

Lemma foldM_each {A B} (f : A -> B -> res A) l a a' x :
  foldM f a l = Ok a' -> x ∈ l -> exists a1 a2, f a1 x = Ok a2.
Proof.
  revert a. induction l as [|y l IH]; intros a; simpl.
  - intros _ H. by apply elem_of_nil in H.
  - intros H Hx. bind_inv H. apply elem_of_cons in Hx as [->|Hx]; eauto.
Qed.

Lemma node_links_inv dm id node dm' :
  node_links dm (id, node) = Ok dm' ->
  exists d ins, node = JDict d /\ dict_get "inputs" d = Some (JDict ins) /\
                foldM add_link dm ins = Ok dm'.
Proof.
  unfold node_links. cbn [fst snd]. intros H.
  destruct node as [| | | | | |d]; try done. cbn [getitem] in H.
  destruct (dict_get "inputs" d) as [ins|] eqn:Ei; [|done]. cbn [of_option bind] in H.
  destruct ins as [| | | | | |ins]; try done. cbn [items bind] in H. eauto.
Qed.

(** Every node of a document that parses is a mapping with its inputs. *)
Lemma parse_node_shape wf p id node :
  _parse_workflow wf = Ok p -> (id, node) ∈ wf ->
  exists d ins, node = JDict d /\ dict_get "inputs" d = Some (JDict ins).
Proof.
  intros H Hin. apply parse_inv in H as (_ & dm & H & _).
  destruct (foldM_each _ _ _ _ _ H Hin) as (dm1 & dm2 & Hn).
  apply node_links_inv in Hn as (d & ins & ? & ? & _). eauto.
Qed.

Lemma parse_entries wf p :
  _parse_workflow wf = Ok p ->
  exists dm,
    (forall e, e ∈ p_inputs p -> from_document wf dm e) /\
    (forall e, e ∈ p_outputs p -> from_document wf [] e).
Proof.
  intros H. apply parse_inv in H as (_ & dm & _ & H).
  apply classify_fold_entries in H as [Hi Ho]. exists dm. split.
  - intros e He. destruct (Hi e He) as [H|H]; [|done]. by apply elem_of_nil in H.
  - intros e He. destruct (Ho e He) as [H|H]; [|done]. by apply elem_of_nil in H.
Qed.

Lemma parse_workflow_annotated wf p :
  _parse_workflow wf = Ok p -> p_workflow p = annotate <$> wf.
Proof.
  intros H. apply parse_inv in H as (_ & dm & _ & H).
  by apply classify_fold_workflow in H.
Qed.

(** *** A valid document parses *)

Lemma add_link_valid dm ins :
  forallb (fun slot : string * json => valid_slot slot.2) ins = true ->
  exists dm', foldM add_link dm ins = Ok dm'.
Proof.
  revert dm. induction ins as [|[k v] ins IH]; intros dm; simpl; [eauto|].
  rewrite andb_true_iff. intros [Hv Hins]. unfold add_link at 1. cbn [fst snd].
  destruct v as [| | | | |l|]; simpl; try (by apply IH).
  destruct l as [|a [|b [|c l]]]; simpl; try (by apply IH).
  simpl in Hv. rewrite Hv. simpl. by apply IH.
Qed.

Lemma build_dep_map_valid wf dm :
  forallb (fun item : string * json => valid_node item.2) wf = true ->
  exists dm', foldM node_links dm wf = Ok dm'.
Proof.
  revert dm. induction wf as [|[id node] wf IH]; intros dm; simpl; [eauto|].
  rewrite andb_true_iff. intros [Hn Hwf]. unfold node_links at 1. cbn [fst snd].
  destruct node as [| | | | | |d]; try done. simpl in Hn. cbn [getitem].
  destruct (dict_get "inputs" d) as [[| | | | | |ins]|]; try done.
  destruct (dict_get "class_type" d) as [[| | | |ct| |]|]; try done.
  apply andb_true_iff in Hn as [Hins _]. cbn [of_option bind items].
  destruct (add_link_valid dm ins Hins) as [dm' ->]. cbn [bind]. by apply IH.
Qed.

Lemma identifier_titled id d dm :
  titled d = true -> exists name, _get_node_identifier (with_id id (JDict d)) dm = Ok name.
Proof.
  unfold titled, _get_node_identifier, with_id. intros Ht.
  rewrite getitem_with_id by done. simpl.
  destruct (dict_get "_meta" d) as [[| | | | | |meta]|]; try done. simpl.
  destruct (dict_get "title" meta) as [[| | | |t| |]|]; try done. simpl.
  destruct (isidentifier t); [eauto|].
  rewrite dict_get_set_eq. simpl. destruct (dep_lookup id dm); eauto.
Qed.

Lemma classify_node_valid dm st id node :
  valid_node node = true -> exists st', classify_node dm st (id, node) = Ok st'.
Proof.
  intros Hn. destruct node as [| | | | | |d]; try done. simpl in Hn.
  destruct (dict_get "inputs" d) as [[| | | | | |ins]|] eqn:Ei; try done.
  destruct (dict_get "class_type" d) as [[| | | |ct| |]|] eqn:Ec; try done.
  apply andb_true_iff in Hn as [_ Ht].
  unfold classify_node. cbn [fst snd setitem bind].
  rewrite getitem_with_id by done. simpl. rewrite Ec. simpl.
  unfold is_input_type, is_output_type in Ht.
  destruct (startswith ct "CPackInput").
  - destruct (identifier_titled id d dm Ht) as [name Hname].
    unfold with_id in Hname. rewrite Hname. simpl. eauto.
  - destruct (startswith ct "CPackOutput"); [|eauto].
    destruct (identifier_titled id d [] Ht) as [name Hname].
    unfold with_id in Hname. rewrite Hname. simpl. eauto.
Qed.

Lemma classify_fold_valid dm wf st :
  forallb (fun item : string * json => valid_node item.2) wf = true ->
  exists st', foldM (classify_node dm) st wf = Ok st'.
Proof.
  revert st. induction wf as [|[id node] wf IH]; intros st; simpl; [eauto|].
  rewrite andb_true_iff. intros [Hn Hwf].
  destruct (classify_node_valid dm st id node Hn) as [st1 ->]. simpl. by apply IH.
Qed.

Lemma parse_valid wf :
  valid_workflow wf = true -> exists p, _parse_workflow wf = Ok p.
Proof.
  unfold valid_workflow, _parse_workflow. rewrite andb_true_iff, negb_true_iff.
  intros [-> Hwf]. unfold build_dep_map.
  destruct (build_dep_map_valid wf [] Hwf) as [dm ->]. simpl.
  by apply classify_fold_valid.
Qed.

End ParseProps.

Module ParseClaims.
Import Py Utils Shape DictFacts ParseProps Samples.

(** What holds of every valid graph document: every entry of the two
    mappings is a node of the document stored under the identifier derived
    for it, or under that identifier suffixed with the node id, and the
    stored node carries an [id] field equal to its key in the document. That
    no key occurs twice is true of any mapping, and says nothing of the nodes
    that get no entry. *)
Lemma parse_workflow_unique_names wf :
  valid_workflow wf = true ->
  exists p dm,
    _parse_workflow wf = Ok p /\ build_dep_map wf = Ok dm /\
    NoDup (keys (p_inputs p)) /\ NoDup (keys (p_outputs p)) /\
    (forall e, e ∈ p_inputs p -> from_document wf dm e) /\
    (forall e, e ∈ p_outputs p -> from_document wf [] e).
Proof.
  intros Hv. destruct (parse_valid wf Hv) as [p Hp].
  destruct (parse_inv wf p Hp) as (_ & dm & Hdm & Hfold).
  destruct (classify_fold_NoDup dm wf _ p Hfold) as [Hni Hno];
    [split; apply NoDup_nil_2|].
  exists p, dm. split_and!; [done|done|done|done| |].
  - intros e He. apply classify_fold_entries in Hfold as [Hi _].
    destruct (Hi e He) as [H|H]; [|done]. by apply elem_of_nil in H.
  - intros e He. apply classify_fold_entries in Hfold as [_ Ho].
    destruct (Ho e He) as [H|H]; [|done]. by apply elem_of_nil in H.
Qed.

(** C2. The parser does not break every collision of names, and a node
    whose name collides can lose its entry. With two output nodes of the same
    title, the test of line 94 looks for the name among the inputs, so the
    second node takes the key of the first and replaces it. With three input
    nodes titled [a_2], [a] and [a], the third is suffixed to [a_2], a key the
    first holds, and replaces it. Both documents are valid; in both, a
    mapping has fewer entries than the document has nodes of its kind. *)
Theorem parse_loses_colliding_nodes :
  (valid_workflow twin_outputs = true /\
   Forall (fun item : string * json => is_output_node item.2 = true) twin_outputs /\
   exists p node,
     _parse_workflow twin_outputs = Ok p /\
     p_outputs p = [("out", node)] /\
     getitem node "id" = Ok (JStr "4")) /\
  (valid_workflow shadowed_inputs = true /\
   Forall (fun item : string * json => is_input_node item.2 = true) shadowed_inputs /\
   exists p first second,
     _parse_workflow shadowed_inputs = Ok p /\
     p_inputs p = [("a_2", first); ("a", second)] /\
     getitem first "id" = Ok (JStr "2") /\
     getitem second "id" = Ok (JStr "x")).
Proof.
  split.
  - split_and!; [reflexivity|repeat constructor|].
    do 2 eexists. split_and!; reflexivity.
  - split_and!; [reflexivity|repeat constructor|].
    do 3 eexists. split_and!; reflexivity.
Qed.

(** C9. [_parse_workflow] fails with the error of the wrong export format
    on every document that has the key [last_node_id], whatever the values
    of the document are. *)
Theorem parse_rejects_editor_export wf :
  "last_node_id" ∈ keys wf ->
  _parse_workflow wf = Err (ValueError API_WORKFLOW_MESSAGE).
Proof.
  intros H. apply dict_has_keys in H. unfold _parse_workflow. by rewrite H.
Qed.

Lemma parse_rejects_editor_export_witness :
  "last_node_id" ∈ keys editor_export /\
  _parse_workflow editor_export = Err (ValueError API_WORKFLOW_MESSAGE).
Proof.
  assert ("last_node_id" ∈ keys editor_export) as H by (simpl; left).
  split; [exact H|]. exact (parse_rejects_editor_export editor_export H).
Defined.

(** C7. The normalisation does not always return a valid identifier: a
    leading digit is first guarded by an underscore, which the stripping of
    underscores then removes. The name parsed for an input whose title is
    [3D Model] is [3d_model]. *)
Theorem normalize_keeps_leading_digit :
  _normalize_to_identifier "1abc" = "1abc" /\
  isidentifier "1abc" = false /\
  (exists p, _parse_workflow digit_workflow = Ok p /\ keys (p_inputs p) = ["3d_model"]) /\
  isidentifier "3d_model" = false.
Proof.
  split_and!; [reflexivity..| |reflexivity].
  eexists. split; reflexivity.
Qed.

End ParseClaims.

(** ** The input schema *)

Module SchemaClaims.
Import Py Utils Shape DictFacts Samples.

(** C3. Schema generation on an input node with class_type
    [CPackInputValue], current value 0.5 and options
    [{min:0, max:1, step:0.01}] yields an integer-typed field, with default
    0.5, lower bound 0 and upper bound 1, and not the floating-point field
    of the specification: line 142 takes an absent [round] for 1, which is
    not below 1, so the type of the field cannot hold its own default. *)
Theorem input_value_without_round d meta slot rest :
  dict_get "class_type" d = Some (JStr "CPackInputValue") ->
  dict_get "inputs" d = Some (JDict ((slot, JFloat 0.5) :: rest)) ->
  dict_get "_meta" d = Some (JDict meta) ->
  dict_get "options" meta =
    Some (JDict [("min", JInt 0); ("max", JInt 1); ("step", JFloat 0.01)]) ->
  input_field (JDict d) =
    Ok (Field TInt (Some (JFloat 0.5)) (Some (JInt 0)) (Some (JInt 1))).
Proof.
  intros Hc Hi Hm Ho. unfold input_field, _get_node_value.
  cbn [getitem dget]. rewrite Hc, Hi, Hm. cbn [of_option bind as_str].
  replace (str_in "CPackInputValue" CPACK_PATH_INPUT_NODES) with false by reflexivity.
  rewrite String.eqb_refl. cbn [dget bind]. rewrite Ho. reflexivity.
Qed.

Lemma input_value_without_round_witness :
  input_field bounded_input =
    Ok (Field TInt (Some (JFloat 0.5)) (Some (JInt 0)) (Some (JInt 1))).
Proof.
  unfold bounded_input.
  apply input_value_without_round
    with (meta := [("title", JStr "strength");
                   ("options", JDict [("min", JInt 0); ("max", JInt 1);
                                      ("step", JFloat 0.01)])])
         (slot := "value") (rest := []);
    reflexivity.
Defined.

(** The field generated for the example of the specification is not
    floating-point-typed. *)
Lemma schema_example_is_not_float :
  exists f, generate_input_model bounded_workflow = Ok [("strength", f)] /\
            f_type f <> TFloat.
Proof. eexists. split; [reflexivity|]. simpl. discriminate. Qed.

End SchemaClaims.

(** ** Retrieving outputs *)

Module RetrieveClaims.
Import Py Utils Shape DictFacts ParseProps Samples.

Lemma classify_node_outputs dm st id node st' :
  classify_node dm st (id, node) = Ok st' ->
  if is_output_node node
  then exists name, p_outputs st' = dict_set name (with_id id node) (p_outputs st)
  else p_outputs st' = p_outputs st.
Proof.
  intros H. apply classify_node_inv in H as (ct & Hct & _ & H).
  unfold is_output_node. rewrite Hct.
  destruct (is_input_type ct) eqn:Ei.
  - rewrite (input_not_output ct Ei). by destruct H as (_ & _ & _ & ->).
  - destruct (is_output_type ct).
    + destruct H as (name & _ & _ & ->). eauto.
    + by destruct H as [_ ->].
Qed.

(** A document with one output node parses to one output. *)
Lemma classify_fold_one_output dm wf st st' id node :
  foldM (classify_node dm) st wf = Ok st' ->
  List.filter (fun item : string * json => is_output_node item.2) wf = [(id, node)] ->
  p_outputs st = [] ->
  exists name, p_outputs st' = [(name, with_id id node)].
Proof.
  revert st. induction wf as [|[id0 node0] wf IH]; intros st; simpl; [done|].
  intros H Hf Hst. bind_inv H. apply classify_node_outputs in E.
  destruct (is_output_node node0).
  - injection Hf as -> -> Hf. destruct E as [name E]. rewrite Hst in E. simpl in E.
    exists name. rewrite <- E. clear E Hst IH st. revert a H.
    induction wf as [|[id1 node1] wf IH]; intros st; simpl; [by intros [= <-]|].
    intros H. bind_inv H. apply classify_node_outputs in E. simpl in Hf.
    destruct (is_output_node node1); [done|]. rewrite <- E. by apply IH.
  - apply (IH a); [done..|congruence].
Qed.

Section Pathlib.
Context {Path : Type}.
Variable truediv : Path -> string -> Path.
Variable as_posix : Path -> string.
Variable glob : Path -> string -> list Path.

(** C6. When the document has exactly one output node: if its class is not
    one of the recognized output kinds, retrieval fails with a [ValueError];
    otherwise it globs the output directory for [{session_id}{node_id}_*]
    and returns the path when exactly one file matches, and the list of the
    matches when none or several do. *)
Theorem retrieve_single_output wf output_path session_id id node class_type :
  valid_workflow wf = true ->
  List.filter (fun item : string * json => is_output_node item.2) wf = [(id, node)] ->
  class_of node = Some class_type ->
  (str_in class_type CPACK_OUTPUT_NODES = false ->
   exists msg, retrieve_workflow_outputs Path glob wf output_path session_id
               = Err (ValueError msg)) /\
  (str_in class_type CPACK_OUTPUT_NODES = true ->
   retrieve_workflow_outputs Path glob wf output_path session_id
   = Ok (Single
           (let matches := glob output_path (session_id ++ id ++ "_*") in
            match matches with
            | [p] => One p
            | _ => Many matches
            end))).
Proof.
  intros Hv Hone Hct. destruct (parse_valid wf Hv) as [p Hp].
  destruct (parse_inv wf p Hp) as (_ & dm & _ & Hfold).
  destruct (classify_fold_one_output dm wf _ p id node Hfold Hone eq_refl)
    as [name Hout].
  apply class_of_dict in Hct as (d & -> & Hd).
  unfold retrieve_workflow_outputs. rewrite Hp. cbn [bind]. rewrite Hout.
  unfold with_id. rewrite getitem_with_id by done. cbn [getitem].
  rewrite Hd. cbn [of_option bind in_set].
  split; intros ->; cbn [negb]; [eauto|].
  unfold node_id_str. rewrite getitem_id. reflexivity.
Qed.

End Pathlib.

Lemma retrieve_single_output_witness :
  retrieve_workflow_outputs string
    (fun dir pattern => if String.eqb pattern "run1_7_*" then [dir ++ "/run1_7_00001.png"] else [])
    small_workflow "/out" "run1_"
  = Ok (Single (One "/out/run1_7_00001.png")).
Proof.
  apply (retrieve_single_output
           (fun dir pattern => if String.eqb pattern "run1_7_*" then [dir ++ "/run1_7_00001.png"] else [])
           small_workflow "/out" "run1_" "7"
           (node "CPackOutputImage" "result"
              [("images", JList [JStr "2"; JInt 0]); ("filename_prefix", JStr "x")])
           "CPackOutputImage"); reflexivity.
Defined.

End RetrieveClaims.

(** ** Population *)

Module PopulateProps.
Import Py Utils Shape DictFacts ParseProps.


Lemma pointwise_keys R wf wf' : pointwise R wf wf' -> keys wf' = keys wf.
Proof.
  unfold keys. induction 1 as [|[k v] [k' v'] l l' [Hk _] _ IH]; [done|].
  rewrite !fmap_cons. simpl in *. congruence.
Qed.

Lemma pointwise_get R wf wf' id n :
  pointwise R wf wf' -> dict_get id wf = Some n ->
  exists n', dict_get id wf' = Some n' /\ R id n n'.
Proof.
  induction 1 as [|[k v] [k' v'] l l' [Hk HR] _ IH]; simpl in *; [done|].
  subst k'. destruct (String.eqb_spec id k) as [->|]; [|done].
  intros [= ->]. eauto.
Qed.

Lemma pointwise_get_inv R wf wf' id n' :
  pointwise R wf wf' -> dict_get id wf' = Some n' ->
  exists n, dict_get id wf = Some n /\ R id n n'.
Proof.
  induction 1 as [|[k v] [k' v'] l l' [Hk HR] _ IH]; simpl in *; [done|].
  subst k'. destruct (String.eqb_spec id k) as [->|]; [|done].
  intros [= ->]. eauto.
Qed.

(** Replacing the node under [id] keeps the relation when the new node is
    related to whatever the old one was related to. *)
Lemma pointwise_set R wf wf' id n n' :
  pointwise R wf wf' -> dict_get id wf' = Some n ->
  (forall n0, R id n0 n -> R id n0 n') ->
  pointwise R wf (dict_set id n' wf').
Proof.
  intros H Hget Hstep. revert Hget.
  induction H as [|[k v] [k' v'] l l' [Hk HR] Hl IH]; simpl in *; [done|].
  subst k'. destruct (String.eqb_spec id k) as [->|].
  - intros [= ->]. constructor; [split; [done|by apply Hstep]|done].
  - intros Hget. constructor; [done|by apply IH].
Qed.

Lemma pointwise_weaken (R R' : string -> json -> json -> Prop) wf wf' :
  (forall id n n', R id n n' -> R' id n n') -> pointwise R wf wf' -> pointwise R' wf wf'.
Proof.
  intros HR H. eapply Forall2_impl; [exact H|].
  intros [] [] [? ?]; split; auto.
Qed.

Lemma pointwise_annotate (R : string -> json -> json -> Prop) wf :
  (forall id n, (id, n) ∈ wf -> R id n (with_id id n)) ->
  pointwise R wf (annotate <$> wf).
Proof.
  induction wf as [|[id n] wf IH]; intros H; simpl; [constructor|].
  constructor; [split; [done|apply H; left]|].
  apply IH. intros ? ? ?. apply H. by right.
Qed.

Section Pathlib.
Context {Path : Type}.
Variable truediv : Path -> string -> Path.
Variable as_posix : Path -> string.

#[local] Abbreviation set_input := (set_input Path as_posix).
#[local] Abbreviation set_prefix := (set_prefix Path truediv as_posix).
#[local] Abbreviation populate_workflow := (populate_workflow Path truediv as_posix).
#[local] Abbreviation filename_prefix := (filename_prefix Path truediv as_posix).
#[local] Abbreviation plain := (plain Path as_posix).


(** What one turn of the first loop of [populate_workflow] does. *)
Lemma set_input_inv input_spec wf k v wf' :
  set_input input_spec wf (k, v) = Ok wf' ->
  exists node id d s x rest,
    dict_get k input_spec = Some node /\
    getitem node "id" = Ok (JStr id) /\
    dict_get id wf = Some (JDict d) /\
    dict_get "inputs" d = Some (JDict ((s, x) :: rest)) /\
    wf' = dict_set id (write_slot d ((s, x) :: rest) s (plain v)) wf.
Proof.
  unfold set_input. cbn [fst snd]. intros H.
  destruct (dict_get k input_spec) as [node|]; [|done]. cbn [of_option bind] in H.
  destruct (getitem node "class_type") as [ct|]; [|done]. cbn [bind] in H.
  destruct (as_str ct) as [c|]; [|done]. cbn [bind] in H.
  destruct (startswith c "CPackInput"); cbn [negb] in H; [|done].
  destruct (getitem node "id") as [nid|] eqn:Eid; [|done]. cbn [bind] in H.
  destruct nid as [| | | |id| |]; try done. cbn [lookup_node] in H.
  destruct (dict_get id wf) as [n|] eqn:En; [|done]. cbn [of_option bind fst snd] in H.
  unfold _set_node_value in H.
  destruct n as [| | | | | |d]; try done. cbn [getitem] in H.
  destruct (dict_get "inputs" d) as [ins|] eqn:Ei; [|done]. cbn [of_option bind] in H.
  destruct ins as [| | | | | |ins]; try done. cbn [items bind] in H.
  destruct ins as [|[s x] rest]; [done|]. cbn [first_item bind fst setitem] in H.
  injection H as <-. exists node, id, d, s, x, rest. done.
Qed.

(** What one turn of the second loop does. *)
Lemma set_prefix_inv output_path session_id wf name node wf' :
  set_prefix output_path session_id wf (name, node) = Ok wf' ->
  match class_of node with
  | Some class_type =>
      if str_in class_type CPACK_OUTPUT_NODES then
        exists id d ins,
          getitem node "id" = Ok (JStr id) /\
          dict_get id wf = Some (JDict d) /\
          dict_get "inputs" d = Some (JDict ins) /\
          wf' = dict_set id
                  (write_slot d ins "filename_prefix"
                     (filename_prefix output_path session_id id))
                  wf
      else wf' = wf
  | None => wf' = wf
  end.
Proof.
  unfold set_prefix, class_of. cbn [fst snd]. intros H.
  destruct (getitem node "id") as [nid|] eqn:Eid; [|done]. cbn [bind] in H.
  destruct (getitem node "class_type") as [ct|] eqn:Ect; [|done]. cbn [bind] in H.
  destruct ct as [| | | |ct| |]; cbn [in_set bind] in H; try done;
    try (by injection H as <-).
  destruct (str_in ct CPACK_OUTPUT_NODES); [|by injection H as <-].
  destruct nid as [| | | |id| |]; try done. cbn [lookup_node] in H.
  destruct (dict_get id wf) as [n|] eqn:En; [|done]. cbn [of_option bind fst snd] in H.
  destruct n as [| | | | | |d]; try done. cbn [getitem] in H.
  destruct (dict_get "inputs" d) as [ins|] eqn:Ei; [|done]. cbn [of_option bind] in H.
  destruct ins as [| | | | | |ins]; try done. cbn [setitem bind] in H.
  injection H as <-. exists id, d, ins. done.
Qed.

(** Population, node by node. A relation between a node of the document and
    what population has made of it so far holds in the end when parsing
    establishes it, every write of an input value keeps it, and so does,
    for a possibly weaker relation, every write of a filename prefix. *)
Lemma populate_pointwise (R1 R2 : string -> json -> json -> Prop)
    wf p output_path session_id values wf' :
  _parse_workflow wf = Ok p ->
  populate_workflow wf output_path session_id values = Ok wf' ->
  (forall id n, (id, n) ∈ wf -> R1 id n (with_id id n)) ->
  (forall k v node id d s x rest n0,
      (k, v) ∈ values -> dict_get k (p_inputs p) = Some node ->
      getitem node "id" = Ok (JStr id) ->
      dict_get "inputs" d = Some (JDict ((s, x) :: rest)) ->
      R1 id n0 (JDict d) ->
      R1 id n0 (write_slot d ((s, x) :: rest) s (plain v))) ->
  (forall id n n', R1 id n n' -> R2 id n n') ->
  (forall name node class_type id d ins n0,
      (name, node) ∈ p_outputs p -> class_of node = Some class_type ->
      str_in class_type CPACK_OUTPUT_NODES = true ->
      getitem node "id" = Ok (JStr id) ->
      dict_get "inputs" d = Some (JDict ins) ->
      R2 id n0 (JDict d) ->
      R2 id n0 (write_slot d ins "filename_prefix"
                  (filename_prefix output_path session_id id))) ->
  pointwise R2 wf wf'.
Proof.
  intros Hp Hpop Hinit Hstep1 Hweak Hstep2.
  unfold populate_workflow, Utils.populate_workflow in Hpop. rewrite Hp in Hpop.
  cbn [bind] in Hpop. rewrite (parse_workflow_annotated wf p Hp) in Hpop.
  apply bind_Ok in Hpop as (wf1 & H1 & H2).
  assert (pointwise R1 wf wf1) as Hwf1.
  { eapply (foldM_invariant (pointwise R1 wf)); [|by apply pointwise_annotate|exact H1].
    intros wfc [k v] wfc' Hin Hinv Hs.
    apply set_input_inv in Hs as (node & id & d & s & x & rest & Hk & Hid & Hget & Hins & ->).
    eapply pointwise_set; [exact Hinv|exact Hget|].
    intros n0 Hn0. eapply Hstep1; eauto. }
  eapply (foldM_invariant (pointwise R2 wf)); [|eapply pointwise_weaken; eauto|exact H2].
  intros wfc [name node] wfc' Hin Hinv Hs.
  apply set_prefix_inv in Hs.
  destruct (class_of node) as [ct|] eqn:Hct; [|by subst].
  destruct (str_in ct CPACK_OUTPUT_NODES) eqn:Erec; [|by subst].
  destruct Hs as (id & d & ins & Hid & Hget & Hins & ->).
  eapply pointwise_set; [exact Hinv|exact Hget|].
  intros n0 Hn0. eapply Hstep2; eauto.
Qed.

End Pathlib.

End PopulateProps.

Module FrameClaims.
Import Py Utils Shape DictFacts ParseProps PopulateProps Samples.


Lemma kept_write (may : string -> Prop) same_slots n d ins s v :
  kept may same_slots n (JDict d) ->
  dict_get "inputs" d = Some (JDict ins) ->
  may s ->
  (same_slots = true -> s ∈ keys ins) ->
  kept may same_slots n (write_slot d ins s v).
Proof.
  intros (d0 & d' & ins0 & ins' & -> & [= <-] & Hf & Hi0 & Hi & Hs & Hk) Hins Hmay Hpresent.
  rewrite Hi in Hins. injection Hins as ->.
  exists d0, (dict_set "inputs" (JDict (dict_set s v ins)) d), ins0, (dict_set s v ins).
  split_and!; [done|done| |done| | |].
  - intros f ? ?. rewrite dict_get_set_ne by done. auto.
  - apply dict_get_set_eq.
  - intros s' Hs'. destruct (decide (s = s')) as [->|]; [done|].
    rewrite dict_get_set_ne by done. auto.
  - intros E. rewrite keys_dict_set_present by auto. auto.
Qed.

Lemma kept_weaken (may may' : string -> Prop) b n n' :
  (forall s, may s -> may' s) -> kept may b n n' -> kept may' false n n'.
Proof.
  intros Hm (d & d' & ins & ins' & ? & ? & ? & ? & ? & Hs & _).
  exists d, d', ins, ins'. split_and!; try done. intros s Hs'. apply Hs. auto.
Qed.

Section Pathlib.
Context {Path : Type}.
Variable truediv : Path -> string -> Path.
Variable as_posix : Path -> string.

#[local] Abbreviation populate_workflow := (populate_workflow Path truediv as_posix).

(** C10. Population keeps the keys of the document and, in every node,
    every field but [id] and [inputs]; within the inputs of a node it keeps
    every slot but the first slot of an input node named by a key of the
    values, and the [filename_prefix] slot of a recognized output node. *)
Theorem populate_frame wf p output_path session_id values wf' :
  NoDup (keys wf) ->
  _parse_workflow wf = Ok p ->
  populate_workflow wf output_path session_id values = Ok wf' ->
  keys wf' = keys wf /\
  forall id node,
    dict_get id wf = Some node ->
    exists node',
      dict_get id wf' = Some node' /\
      (forall f, f <> "id" -> f <> "inputs" -> getitem node' f = getitem node f) /\
      (forall slot, ~ written p (keys values) id node slot ->
                    slot_of node' slot = slot_of node slot).
Proof.
  intros Hnd Hp Hpop.
  set (R1 := fun id n n' =>
               dict_get id wf = Some n /\
               kept (fun s => targets p (keys values) id /\ first_slot n = Some s) true n n').
  set (R2 := fun id n n' =>
               dict_get id wf = Some n /\ kept (written p (keys values) id n) false n n').
  assert (pointwise R2 wf wf') as Hpw.
  { eapply (populate_pointwise truediv as_posix R1 R2); [exact Hp|exact Hpop|..].
    - intros id n Hin. split; [by apply dict_get_NoDup|].
      destruct (parse_node_shape wf p id n Hp Hin) as (d & ins & -> & Hins).
      exists d, (dict_set "id" (JStr id) d), ins, ins.
      split_and!; try done.
      + intros f ? ?. by rewrite dict_get_set_ne.
      + by rewrite dict_get_set_ne.
    - intros k v node id d s x rest n0 Hin Hk Hid Hins [Hn0 Hkept].
      split; [done|]. apply kept_write; [done|done| |intros _; left].
      split.
      + exists k, node. split; [|done]. apply list_elem_of_fmap. by exists (k, v).
      + destruct Hkept as (d0 & d' & ins0 & ins' & -> & [= <-] & _ & Hi0 & Hi & _ & Hkeys).
        rewrite Hi in Hins. injection Hins as ->.
        unfold first_slot. cbn [getitem]. rewrite Hi0. cbn [of_option].
        specialize (Hkeys eq_refl). destruct ins0 as [|[s0 x0] ins0]; [done|].
        by injection Hkeys as -> _.
    - intros id n n' [? Hk]. split; [done|].
      eapply kept_weaken; [|exact Hk]. intros s ?. by left.
    - intros name node ct id d ins n0 Hin Hct Hrec Hid Hins [Hn0 Hkept].
      split; [done|]. apply kept_write; [done|done| |done].
      right. split; [done|].
      destruct (parse_entries wf p Hp) as (dm & _ & Ho).
      destruct (Ho _ Hin) as (id' & n0' & Hin' & Hnode & Hid' & _). cbn [fst snd] in *.
      rewrite Hid in Hid'. injection Hid' as <-.
      rewrite (dict_get_NoDup _ _ _ Hnd Hin') in Hn0. injection Hn0 as ->.
      rewrite Hnode, class_of_with_id in Hct.
      unfold is_recognized_output. rewrite Hct, Hrec.
      by rewrite (recognized_is_output ct Hrec). }
  split; [by eapply pointwise_keys|].
  intros id node Hget.
  destruct (pointwise_get _ _ _ _ _ Hpw Hget) as (node' & Hget' & _ & Hkept).
  exists node'. split; [done|].
  destruct Hkept as (d & d' & ins & ins' & -> & -> & Hf & Hi & Hi' & Hs & _).
  split.
  - intros f ? ?. cbn [getitem]. by rewrite Hf.
  - intros s Hs'. unfold slot_of. cbn [getitem]. rewrite Hi, Hi'. cbn [of_option]. auto.
Qed.

End Pathlib.

End FrameClaims.

(** ** Parsing again after population *)

Module ReparseProps.
Import Py Utils Shape DictFacts ParseProps PopulateProps.

Lemma dict_has_same_keys {V W} (d : dict V) (d' : dict W) k :
  keys d = keys d' -> dict_has k d = dict_has k d'.
Proof.
  intros Hk. destruct (dict_has k d') eqn:E.
  - apply dict_has_keys. rewrite Hk. by apply dict_has_keys.
  - destruct (dict_has k d) eqn:E'; [|done].
    apply dict_has_keys in E'. rewrite Hk in E'. apply dict_has_keys in E'. congruence.
Qed.

Lemma keys_dict_set_same_keys {V W} (d : dict V) (d' : dict W) k v v' :
  keys d = keys d' -> keys (dict_set k v d) = keys (dict_set k v' d').
Proof.
  intros Hk. rewrite !keys_dict_set, (dict_has_same_keys d d' k Hk), Hk. done.
Qed.

Lemma add_link_plain dm s v : is_link v = false -> add_link dm (s, v) = Ok dm.
Proof.
  unfold add_link. cbn [fst snd]. destruct v as [| | | | |l|]; try done.
  by destruct l as [|a [|b [|c l]]].
Qed.

(** Writing a value that is no link over one that is none, or into a new
    slot, leaves the links of a node as they were. *)
Lemma add_link_set dm ins s v :
  is_link v = false ->
  (forall x, dict_get s ins = Some x -> is_link x = false) ->
  foldM add_link dm (dict_set s v ins) = foldM add_link dm ins.
Proof.
  intros Hv. revert dm. induction ins as [|[k x] ins IH]; intros dm Hold; simpl.
  - by rewrite add_link_plain.
  - simpl in Hold. destruct (String.eqb_spec s k) as [->|Hne]; simpl.
    + rewrite !add_link_plain; auto.
    + destruct (add_link dm (k, x)); simpl; [|done]. apply IH. exact Hold.
Qed.


Lemma alike_write b n d ins s v :
  alike b n (JDict d) ->
  dict_get "inputs" d = Some (JDict ins) ->
  is_link v = false ->
  (forall x, dict_get s ins = Some x -> is_link x = false) ->
  (b = true -> s ∈ keys ins) ->
  alike b n (write_slot d ins s v).
Proof.
  intros (d0 & d' & ins0 & ins' & -> & [= <-] & Hc & Hm & Hi0 & Hi & Hl & Hs & Hk)
         Hins Hv Hold Hpresent.
  rewrite Hi in Hins. injection Hins as ->.
  exists d0, (dict_set "inputs" (JDict (dict_set s v ins)) d), ins0, (dict_set s v ins).
  split_and!; [done|done| | |done| | | |].
  - by rewrite dict_get_set_ne.
  - by rewrite dict_get_set_ne.
  - apply dict_get_set_eq.
  - intros dm. rewrite add_link_set by done. apply Hl.
  - intros s' x. destruct (decide (s = s')) as [<-|Hne].
    + rewrite dict_get_set_eq. intros [= <-]. congruence.
    + rewrite dict_get_set_ne by done. apply Hs.
  - intros E. rewrite keys_dict_set_present by auto. auto.
Qed.

Lemma alike_weaken b n n' : alike b n n' -> alike false n n'.
Proof.
  intros (d & d' & ins & ins' & ? & ? & ? & ? & ? & ? & ? & ? & _).
  exists d, d', ins, ins'. split_and!; done.
Qed.

Lemma identifier_same_meta id d d' dm :
  dict_get "_meta" d' = dict_get "_meta" d ->
  _get_node_identifier (with_id id (JDict d')) dm
  = _get_node_identifier (with_id id (JDict d)) dm.
Proof.
  intros Hm. unfold _get_node_identifier, with_id.
  rewrite (getitem_with_id id d' "_meta"), (getitem_with_id id d "_meta") by done.
  rewrite !getitem_id. cbn [getitem]. by rewrite Hm.
Qed.

(** One turn of the second loop of [_parse_workflow] on two nodes alike,
    from states with the same names. *)
Lemma classify_node_alike dm st st2 id n n' r b :
  alike b n n' ->
  keys (p_inputs st) = keys (p_inputs st2) ->
  keys (p_outputs st) = keys (p_outputs st2) ->
  classify_node dm st (id, n) = Ok r ->
  exists r2,
    classify_node dm st2 (id, n') = Ok r2 /\
    keys (p_inputs r) = keys (p_inputs r2) /\
    keys (p_outputs r) = keys (p_outputs r2).
Proof.
  intros (d & d' & ins & ins' & -> & -> & Hc & Hm & _) Hi Ho.
  unfold classify_node. cbn [fst snd setitem bind].
  rewrite (getitem_with_id id d' "class_type"), (getitem_with_id id d "class_type") by done.
  cbn [getitem]. rewrite Hc.
  destruct (dict_get "class_type" d) as [ct|]; [|done]. cbn [of_option bind].
  destruct (as_str ct) as [c|]; [|done]. cbn [bind].
  pose proof (identifier_same_meta id d d' dm Hm) as Hid.
  pose proof (identifier_same_meta id d d' [] Hm) as Hid0.
  unfold with_id in Hid, Hid0. rewrite Hid, Hid0. clear Hid Hid0.
  unfold suffixed.
  destruct (startswith c "CPackInput").
  - destruct (_get_node_identifier _ dm) as [name|]; cbn [bind]; [|done].
    intros [= <-]. eexists. split; [done|]. cbn [p_inputs p_outputs].
    rewrite (dict_has_same_keys _ _ name Hi). split; [|done].
    by apply keys_dict_set_same_keys.
  - destruct (startswith c "CPackOutput").
    + destruct (_get_node_identifier _ []) as [name|]; cbn [bind]; [|done].
      intros [= <-]. eexists. split; [done|]. cbn [p_inputs p_outputs].
      rewrite (dict_has_same_keys _ _ name Hi). split; [done|].
      by apply keys_dict_set_same_keys.
    + intros [= <-]. eexists. split; [done|]. done.
Qed.

Lemma classify_fold_alike dm (R : string -> json -> json -> Prop) wf wf' :
  (forall id n n', R id n n' -> alike false n n') ->
  pointwise R wf wf' ->
  forall st st2 r,
    keys (p_inputs st) = keys (p_inputs st2) ->
    keys (p_outputs st) = keys (p_outputs st2) ->
    foldM (classify_node dm) st wf = Ok r ->
    exists r2,
      foldM (classify_node dm) st2 wf' = Ok r2 /\
      keys (p_inputs r) = keys (p_inputs r2) /\
      keys (p_outputs r) = keys (p_outputs r2).
Proof.
  intros HR. induction 1 as [|[id n] [id' n'] l l' [Hk Hn] _ IH];
    intros st st2 r Hi Ho; simpl.
  - intros [= <-]. eauto.
  - simpl in Hk, Hn. subst id'. intros H. bind_inv H.
    destruct (classify_node_alike dm st st2 id n n' a false (HR _ _ _ Hn) Hi Ho E)
      as (a2 & -> & Hi' & Ho').
    cbn [bind]. by apply (IH a).
Qed.

Lemma dep_map_alike (R : string -> json -> json -> Prop) wf wf' :
  (forall id n n', R id n n' -> alike false n n') ->
  pointwise R wf wf' ->
  forall dm, foldM node_links dm wf' = foldM node_links dm wf.
Proof.
  intros HR. induction 1 as [|[id n] [id' n'] l l' [Hk Hn] _ IH]; intros dm; simpl; [done|].
  simpl in Hk, Hn. apply HR in Hn as (d & d' & ins & ins' & -> & -> & _ & _ & Hi & Hi' & Hl & _).
  unfold node_links at 1 3. cbn [fst snd getitem]. rewrite Hi, Hi'.
  cbn [of_option bind items]. rewrite Hl.
  destruct (foldM add_link dm ins); simpl; [apply IH|done].
Qed.

(** Documents alike node by node parse to the same names. *)
Lemma parse_alike (R : string -> json -> json -> Prop) wf wf' p :
  (forall id n n', R id n n' -> alike false n n') ->
  pointwise R wf wf' ->
  _parse_workflow wf = Ok p ->
  exists p',
    _parse_workflow wf' = Ok p' /\
    keys (p_inputs p') = keys (p_inputs p) /\
    keys (p_outputs p') = keys (p_outputs p).
Proof.
  intros HR Hpw Hp. apply parse_inv in Hp as (Hs & dm & Hdm & Hfold).
  unfold _parse_workflow.
  rewrite (dict_has_same_keys wf' wf "last_node_id" (pointwise_keys _ _ _ Hpw)), Hs.
  unfold build_dep_map in *. rewrite (dep_map_alike R wf wf' HR Hpw), Hdm. cbn [bind].
  destruct (classify_fold_alike dm R wf wf' HR Hpw _ (Parsed [] [] []) p eq_refl eq_refl Hfold)
    as (p' & Hp' & Hi & Ho).
  exists p'. done.
Qed.

End ReparseProps.

Module RoundTripClaims.
Import Py Utils Shape DictFacts ParseProps PopulateProps ReparseProps Samples.

(** An entry of a parsed mapping is the node the document holds under the
    id the entry carries. *)
Lemma entry_is_document_node wf p name node id :
  NoDup (keys wf) ->
  _parse_workflow wf = Ok p ->
  (name, node) ∈ p_inputs p \/ (name, node) ∈ p_outputs p ->
  getitem node "id" = Ok (JStr id) ->
  exists n0, dict_get id wf = Some n0 /\ node = with_id id n0.
Proof.
  intros Hnd Hp Hin Hid. destruct (parse_entries wf p Hp) as (dm & Hi & Ho).
  assert (exists dm', from_document wf dm' (name, node)) as (dm' & id' & n0 & Hin' & Hn & Hid' & _).
  { destruct Hin as [Hin|Hin]; eauto. }
  cbn [fst snd] in *. rewrite Hid in Hid'. injection Hid' as <-.
  exists n0. split; [by apply dict_get_NoDup|done].
Qed.

Lemma alike_with_id id d ins :
  dict_get "inputs" d = Some (JDict ins) ->
  alike true (JDict d) (with_id id (JDict d)).
Proof.
  intros Hi. exists d, (dict_set "id" (JStr id) d), ins, ins.
  split_and!; try done; by rewrite dict_get_set_ne.
Qed.

Section Pathlib.
Context {Path : Type}.
Variable truediv : Path -> string -> Path.
Variable as_posix : Path -> string.

#[local] Abbreviation populate_workflow := (populate_workflow Path truediv as_posix).
#[local] Abbreviation plain := (plain Path as_posix).
#[local] Abbreviation keeps_links := (keeps_links Path as_posix).


(** C5, as the code has it. When population writes no link and overwrites
    none, parsing the populated document yields the input names and the
    output names of the first parse, in the same order. *)
Theorem populate_then_parse wf p output_path session_id values wf' :
  NoDup (keys wf) ->
  _parse_workflow wf = Ok p ->
  populate_workflow wf output_path session_id values = Ok wf' ->
  keeps_links p values ->
  exists p',
    _parse_workflow wf' = Ok p' /\
    keys (p_inputs p') = keys (p_inputs p) /\
    keys (p_outputs p') = keys (p_outputs p).
Proof.
  intros Hnd Hp Hpop (Hval & Hfirst & Hprefix).
  set (R1 := fun id n n' => dict_get id wf = Some n /\ alike true n n').
  set (R2 := fun id n n' => dict_get id wf = Some n /\ alike false n n').
  apply (parse_alike R2 wf wf' p); [by intros ? ? ? [_ ?]| |exact Hp].
  eapply (populate_pointwise truediv as_posix R1 R2); [exact Hp|exact Hpop|..].
  - intros id n Hin. split; [by apply dict_get_NoDup|].
    destruct (parse_node_shape wf p id n Hp Hin) as (d & ins & -> & Hins).
    by eapply alike_with_id.
  - intros k v node id d s x rest n0 Hin Hk Hid Hins [Hn0 Hal].
    split; [done|]. apply alike_write; [done|done|by eapply Hval| |intros _; left].
    intros x'. cbn [dict_get]. rewrite String.eqb_refl. intros [= <-].
    destruct (is_link x) eqn:Ex; [|done].
    destruct (entry_is_document_node wf p k node id Hnd Hp) as (n0' & Hn0' & ->);
      [left; by apply dict_get_elem|done|].
    rewrite Hn0 in Hn0'. injection Hn0' as <-.
    destruct Hal as (d0 & d' & ins0 & ins' & -> & [= <-] & _ & _ & Hi0 & Hi & _ & Hs & Hkeys).
    rewrite Hi in Hins. injection Hins as ->.
    specialize (Hkeys eq_refl). destruct ins0 as [|[s0 x0] ins0]; [done|].
    injection Hkeys as <- _.
    specialize (Hs s x). cbn [dict_get] in Hs. rewrite String.eqb_refl in Hs.
    specialize (Hs eq_refl Ex). injection Hs as ->.
    rewrite <- Ex. apply (Hfirst k (with_id id (JDict d0)) x); [|done|].
    + apply list_elem_of_fmap. by exists (k, v).
    + unfold _get_node_value, with_id. rewrite getitem_with_id by done.
      cbn [getitem]. rewrite Hi0. reflexivity.
  - intros id n n' [? Hal]. split; [done|]. by eapply alike_weaken.
  - intros name node ct id d ins n0 Hin Hct Hrec Hid Hins [Hn0 Hal].
    split; [done|]. apply alike_write; [done|done|done| |done].
    intros x Hx. destruct (is_link x) eqn:Ex; [|done].
    destruct (entry_is_document_node wf p name node id Hnd Hp) as (n0' & Hn0' & ->);
      [by right|done|].
    rewrite Hn0 in Hn0'. injection Hn0' as <-.
    destruct Hal as (d0 & d' & ins0 & ins' & -> & [= <-] & _ & _ & Hi0 & Hi & _ & Hs & _).
    rewrite Hi in Hins. injection Hins as ->.
    rewrite <- Ex. apply (Hprefix name (with_id id (JDict d0)) x); [done| |].
    + unfold is_recognized_output. rewrite Hct, Hrec.
      by rewrite (recognized_is_output ct Hrec).
    + unfold slot_of, with_id. rewrite getitem_with_id by done.
      cbn [getitem]. rewrite Hi0. cbn [of_option]. by apply Hs.
Qed.

End Pathlib.

End RoundTripClaims.

Module PopulateClaims.
Import Py Utils Shape DictFacts ParseProps PopulateProps ReparseProps Samples.
Import FrameClaims RoundTripClaims.

Lemma populate_frame_witness :
  exists p wf',
    _parse_workflow small_workflow = Ok p /\
    populate_workflow string join id small_workflow "/out" "run1_"
      [("seed", PJson (JInt 7))] = Ok wf' /\
    keys wf' = keys small_workflow /\
    forall id node,
      dict_get id small_workflow = Some node ->
      exists node',
        dict_get id wf' = Some node' /\
        (forall f, f <> "id" -> f <> "inputs" -> getitem node' f = getitem node f) /\
        (forall slot, ~ written p ["seed"] id node slot ->
                      slot_of node' slot = slot_of node slot).
Proof.
  do 2 eexists. split; [reflexivity|]. split; [reflexivity|].
  apply (populate_frame join id small_workflow _ "/out" "run1_" [("seed", PJson (JInt 7))]).
  - compute_done.
  - reflexivity.
  - reflexivity.
Defined.

(** Population overwrites the link that gave an input its name: the input
    named [filename_prefix] at the first parse is [file_prefix] at the
    second. *)
Lemma populate_renames_input :
  valid_workflow prefix_link_workflow = true /\
  exists p wf' p',
    _parse_workflow prefix_link_workflow = Ok p /\
    populate_workflow string join id prefix_link_workflow "/out" "run1_" [] = Ok wf' /\
    _parse_workflow wf' = Ok p' /\
    keys (p_inputs p) = ["filename_prefix"] /\
    keys (p_inputs p') = ["file_prefix"].
Proof.
  split; [reflexivity|]. do 3 eexists. split_and!; reflexivity.
Qed.

Lemma populate_then_parse_witness :
  exists p wf',
    _parse_workflow small_workflow = Ok p /\
    populate_workflow string join id small_workflow "/out" "run1_"
      [("seed", PJson (JInt 7))] = Ok wf' /\
    exists p',
      _parse_workflow wf' = Ok p' /\
      keys (p_inputs p') = keys (p_inputs p) /\
      keys (p_outputs p') = keys (p_outputs p).
Proof.
  do 2 eexists. split; [reflexivity|]. split; [reflexivity|].
  apply (populate_then_parse join id small_workflow _ "/out" "run1_"
           [("seed", PJson (JInt 7))]).
  - compute_done.
  - reflexivity.
  - reflexivity.
  - split_and!.
    + intros k v H. apply list_elem_of_singleton in H. by injection H as -> ->.
    + intros k node x H. apply list_elem_of_singleton in H as ->.
      intros [= <-] [= <-]. reflexivity.
    + intros name node x H. apply list_elem_of_singleton in H. injection H as -> ->.
      intros _ [= <-]. reflexivity.
Defined.

End PopulateClaims.

(** ** The filename prefix of the outputs *)

Module PrefixClaims.
Import Py Utils Shape DictFacts ParseProps PopulateProps Samples.

Section Pathlib.
Context {Path : Type}.
Variable truediv : Path -> string -> Path.
Variable as_posix : Path -> string.

#[local] Abbreviation set_prefix := (set_prefix Path truediv as_posix).
#[local] Abbreviation populate_workflow := (populate_workflow Path truediv as_posix).
#[local] Abbreviation filename_prefix := (filename_prefix Path truediv as_posix).
#[local] Abbreviation prefixed := (prefixed Path truediv as_posix).


Lemma prefixed_write output_path session_id wf id d ins :
  dict_get "inputs" d = Some (JDict ins) ->
  prefixed output_path session_id
    (dict_set id (write_slot d ins "filename_prefix"
                    (filename_prefix output_path session_id id)) wf) id.
Proof.
  intros Hi. eexists. split; [apply dict_get_set_eq|].
  unfold slot_of, write_slot. cbn [getitem]. rewrite dict_get_set_eq. cbn [of_option].
  apply dict_get_set_eq.
Qed.

Lemma set_prefix_keeps output_path session_id wf kv wf' id :
  set_prefix output_path session_id wf kv = Ok wf' ->
  prefixed output_path session_id wf id ->
  prefixed output_path session_id wf' id.
Proof.
  destruct kv as [name node]. intros H Hp.
  apply set_prefix_inv in H.
  destruct (class_of node) as [ct|]; [|by subst].
  destruct (str_in ct CPACK_OUTPUT_NODES); [|by subst].
  destruct H as (id1 & d & ins & _ & Hget & Hins & ->).
  destruct (decide (id1 = id)) as [->|Hne]; [by apply prefixed_write|].
  destruct Hp as (n & Hn & Hs). exists n. by rewrite dict_get_set_ne.
Qed.

Lemma set_prefix_fold output_path session_id l wf wf' name node class_type id :
  foldM (set_prefix output_path session_id) wf l = Ok wf' ->
  (name, node) ∈ l ->
  class_of node = Some class_type ->
  str_in class_type CPACK_OUTPUT_NODES = true ->
  getitem node "id" = Ok (JStr id) ->
  prefixed output_path session_id wf' id.
Proof.
  intros H Hin Hct Hrec Hid. revert wf H.
  induction l as [|kv l IH]; intros wf; simpl; [by apply elem_of_nil in Hin|].
  intros H. bind_inv H. apply elem_of_cons in Hin as [<-|Hin]; [|by eapply IH].
  eapply (foldM_invariant (fun w => prefixed output_path session_id w id)); [| |exact H].
  { intros w kv w' _ Hw Hs. by eapply set_prefix_keeps. }
  apply set_prefix_inv in E. rewrite Hct, Hrec in E.
  destruct E as (id1 & d & ins & Hid1 & Hget & Hins & ->).
  rewrite Hid in Hid1. injection Hid1 as <-. by apply prefixed_write.
Qed.

(** What population does set: the prefix of every recognized output the
    parse lists. *)
Lemma populate_sets_listed_prefix wf p output_path session_id values wf'
    name node class_type id :
  _parse_workflow wf = Ok p ->
  populate_workflow wf output_path session_id values = Ok wf' ->
  (name, node) ∈ p_outputs p ->
  class_of node = Some class_type ->
  str_in class_type CPACK_OUTPUT_NODES = true ->
  getitem node "id" = Ok (JStr id) ->
  prefixed output_path session_id wf' id.
Proof.
  intros Hp Hpop Hin Hct Hrec Hid.
  unfold populate_workflow, Utils.populate_workflow in Hpop. rewrite Hp in Hpop.
  cbn [bind] in Hpop. apply bind_Ok in Hpop as (wf1 & _ & H).
  by eapply set_prefix_fold.
Qed.

End Pathlib.

(** C8. A recognized output node that shares its title with a later one
    is not populated: [_parse_workflow] checks the name of an output against
    the inputs, not against the outputs, and the later node replaces the
    earlier one in the mapping. Here node 3 keeps its prefix and node 4 gets
    the prefix of the run. *)
Theorem populate_skips_twin_output :
  (forall id node, (id, node) ∈ twin_outputs -> is_recognized_output node = true) /\
  exists wf' n3 n4,
    populate_workflow string join id twin_outputs "/out" "run1_" [] = Ok wf' /\
    dict_get "3" wf' = Some n3 /\
    slot_of n3 "filename_prefix" = Some (JStr "x") /\
    dict_get "4" wf' = Some n4 /\
    slot_of n4 "filename_prefix" = Some (JStr "/out/run1_4_").
Proof.
  split.
  - intros id node H. unfold twin_outputs in H.
    repeat (apply elem_of_cons in H as [[= -> ->]|H]; [reflexivity|]).
    by apply elem_of_nil in H.
  - do 3 eexists. split_and!; reflexivity.
Qed.

End PrefixClaims.

(** ** Model retrieval *)

Module PackageProps.
Import Py Package Store.
#[local] Open Scope list_scope.

Lemma realpath_S fs n p :
  realpath (S n) fs p =
  match fs !! p with
  | Some (Symlink q) => realpath n fs q
  | _ => Some p
  end.
Proof. done. Qed.

Lemma realpath_absent fs n p : fs !! p = None -> realpath n fs p = Some p.
Proof. intros H. destruct n; simpl; by rewrite H. Qed.

Lemma realpath_plain fs n p e :
  fs !! p = Some e -> (forall q, e <> Symlink q) -> realpath n fs p = Some p.
Proof. intros H He. destruct n; simpl; rewrite H; destruct e; try done; by destruct (He target). Qed.

Lemma realpath_mono fs n p q : realpath n fs p = Some q -> realpath (S n) fs p = Some q.
Proof.
  revert p. induction n as [|n IH]; intros p.
  - rewrite realpath_S. simpl. destruct (fs !! p) as [[| |]|]; done.
  - rewrite (realpath_S fs (S n)), (realpath_S fs n).
    destruct (fs !! p) as [[|t|]|]; try done. apply IH.
Qed.

(** A link that resolves points at something that exists. *)
Lemma exists_link_target fs p t :
  fs !! p = Some (Symlink t) -> exists_ fs p = true -> exists_ fs t = true.
Proof.
  unfold exists_, stat. change max_links with (S (Nat.pred max_links)).
  intros Hp. rewrite (realpath_S fs _ p), Hp.
  destruct (realpath (Nat.pred max_links) fs t) as [q|] eqn:E; [|done].
  rewrite (realpath_mono fs _ t q E). done.
Qed.

Lemma stat_absent fs p : fs !! p = None -> stat fs p = None.
Proof. intros H. unfold stat. rewrite (realpath_absent fs _ p H). simpl. done. Qed.

Lemma stat_plain fs p e :
  fs !! p = Some e -> (forall q, e <> Symlink q) -> stat fs p = Some e.
Proof. intros H He. unfold stat. rewrite (realpath_plain fs _ p e H He). simpl. done. Qed.

Lemma is_dir_present fs p : is_dir fs p = true -> p = [] \/ is_Some (fs !! p).
Proof.
  intros H. destruct p as [|c p]; [by left|]. right.
  destruct (fs !! (c :: p)) as [e|] eqn:E; [done|].
  unfold is_dir in H. by rewrite (stat_absent fs _ E) in H.
Qed.

(** [mkdir] of a directory that is there changes nothing. *)
Lemma mkdir_existing p w : is_dir (files w) p = true -> mkdir p w = (Ok tt, w).
Proof.
  intros Hd. unfold mkdir. destruct (reverse p) as [|c rp] eqn:Erev.
  - done.
  - cbn [mkdir_parents]. rewrite <- Erev, reverse_involutive.
    destruct (is_dir_present _ _ Hd) as [->|[e He]]; [done|].
    unfold iobind, read. cbn beta iota. rewrite He. cbn beta iota. rewrite Hd. done.
Qed.

Lemma parent_stored MODEL_DIR sha : parent (stored MODEL_DIR sha) = MODEL_DIR.
Proof. unfold parent, stored. apply removelast_last. Qed.

Lemma plain_dir_is_dir fs p : plain_dir fs p -> is_dir fs p = true.
Proof.
  intros [->|H]; [done|]. destruct p as [|c p]; [done|].
  unfold is_dir. by rewrite (stat_plain fs _ Dir H).
Qed.

Section Environment.
Variable MODEL_DIR : path.
Variable digest : string -> string.
Variable urlopen : string -> response.

#[local] Abbreviation create_model_symlink := (create_model_symlink).
#[local] Abbreviation retrive_model := (retrive_model MODEL_DIR digest urlopen).
#[local] Abbreviation retrive_models := (retrive_models MODEL_DIR digest urlopen).
#[local] Abbreviation linked := (linked MODEL_DIR).
#[local] Abbreviation stored := (stored MODEL_DIR).

(** Unfolds the monad at a world. *)
Ltac step := unfold iobind, read, ret, raise, change; cbn beta iota.

Lemma retrive_model_linked workspace download m w :
  linked (files w) workspace m -> retrive_model workspace download m w = (Ok tt, w).
Proof.
  intros [Hlink Hthere]. unfold retrive_model, Package.retrive_model. step.
  rewrite Hthere. cbn iota.
  unfold Store.stored in Hlink. rewrite (exists_link_target _ _ _ Hlink Hthere). done.
Qed.

(** C4. On a workspace where every entry of the manifest is linked into
    the store, [retrive_models] returns without an error and leaves the
    world as it found it: no write is made and no line is read. *)
Theorem retrive_models_idempotent models workspace download w :
  is_dir (files w) MODEL_DIR = true ->
  Forall (linked (files w) workspace) models ->
  retrive_models models workspace download w = (Ok tt, w).
Proof.
  intros Hstore Hall. unfold retrive_models, Package.retrive_models.
  destruct models as [|m0 models0] eqn:Em; [done|]. rewrite <- Em in *. clear Em.
  unfold iobind at 1. rewrite (mkdir_existing _ _ Hstore).
  induction Hall as [|m models Hm _ IH]; [done|].
  cbn [forM]. unfold iobind at 1. fold retrive_model.
  rewrite (retrive_model_linked workspace download m w Hm). exact IH.
Qed.

Lemma create_model_symlink_conflict global_path sha target_path name content w :
  files w !! (target_path ++ name) = Some (File content) ->
  create_model_symlink global_path sha target_path name w
  = (Err (RuntimeError "File already exists and is not a symlink"), w).
Proof.
  intros Hfile. unfold create_model_symlink, Package.create_model_symlink. step.
  unfold exists_. rewrite (stat_plain _ _ _ Hfile) by done.
  unfold is_symlink. rewrite Hfile. done.
Qed.

(** C1, as the code has it. When the workspace path of a manifest entry
    holds a regular file, whatever its content: [create_model_symlink] on that
    path raises and changes nothing; [retrive_models] does not call it there
    and raises nothing. Its turn for the entry leaves the world as it is when
    the store has the hash, and otherwise moves the file into the store under
    the hash of the manifest and puts a link in its place. *)
Theorem regular_file_at_workspace_path workspace download m content w :
  let here := workspace ++ filename m in
  let there := stored (sha256 m) in
  files w !! here = Some (File content) ->
  create_model_symlink MODEL_DIR (sha256 m) workspace (filename m) w
  = (Err (RuntimeError "File already exists and is not a symlink"), w)
  /\ (exists_ (files w) there = true ->
      retrive_model workspace download m w = (Ok tt, w))
  /\ (exists_ (files w) there = false ->
      is_dir (files w) MODEL_DIR = true ->
      plain_dir (files w) (parent here) ->
      retrive_model workspace download m w
      = (Ok tt,
         World (<[here := Symlink there]> (<[there := File content]> (delete here (files w))))
               (stdin w)
               (WSymlink there here :: WMove here there :: writes w))).
Proof.
  intros here there Hfile.
  assert (exists_ (files w) here = true) as Hhere.
  { unfold exists_. by rewrite (stat_plain _ _ _ Hfile). }
  split; [by eapply create_model_symlink_conflict|]. split.
  - intros Hthere. unfold retrive_model, Package.retrive_model. step.
    fold here. rewrite Hhere. cbn iota. fold (stored (sha256 m)). fold there.
    rewrite Hthere. done.
  - intros Hthere Hstore Hparent.
    assert (here <> there) as Hne by (intros E; congruence).
    assert (files w !! there <> Some Dir) as Hnodir.
    { intros E. unfold exists_ in Hthere. by rewrite (stat_plain _ _ _ E) in Hthere. }
    set (fs1 := <[there := File content]> (delete here (files w))).
    assert (fs1 !! here = None) as Hgone.
    { unfold fs1. rewrite lookup_insert_ne by done. apply lookup_delete_eq. }
    assert (plain_dir fs1 (parent here)) as Hparent1.
    { destruct Hparent as [E|E]; [by left|right].
      unfold fs1. rewrite lookup_insert_ne by congruence.
      rewrite lookup_delete_ne by congruence. done. }
    unfold retrive_model, Package.retrive_model. step.
    fold here. rewrite Hhere. cbn iota. fold (stored (sha256 m)). fold there.
    rewrite Hthere. unfold is_file. rewrite (stat_plain _ _ _ Hfile) by done. cbn.
    unfold shutil_move. step. rewrite Hfile. cbn iota beta.
    unfold there at 1. rewrite parent_stored, Hstore. fold there. cbn.
    unfold Package.create_model_symlink. step. cbn [files]. fold here there fs1.
    unfold exists_ at 1. rewrite (stat_absent _ _ Hgone). cbn iota beta.
    rewrite mkdir_existing by (cbn [files]; by apply plain_dir_is_dir).
    cbn iota beta. unfold symlink. step. cbn [files]. rewrite Hgone. cbn iota beta.
    cbn [files]. rewrite (plain_dir_is_dir _ _ Hparent1). done.
Qed.

End Environment.

End PackageProps.

Module PackageClaims.
Import Py Package Store PackageProps.
#[local] Open Scope list_scope.

Lemma retrive_models_idempotent_witness :
  retrive_models home zero_digest offline [wanted] ["ws"] true linked_world
  = (Ok tt, linked_world).
Proof.
  apply (retrive_models_idempotent home zero_digest offline [wanted] ["ws"] true linked_world).
  - vm_compute. reflexivity.
  - constructor; [|constructor]. split; vm_compute; reflexivity.
Defined.

Lemma regular_file_at_workspace_path_witness :
  retrive_model home zero_digest offline ["ws"] true wanted user_world
  = (Ok tt,
     World (<[ ["ws"; "models"; "x.bin"] := Symlink (stored home "ab") ]>
              (<[ stored home "ab" := File "user data" ]>
                 (delete ["ws"; "models"; "x.bin"] user_files)))
           []
           [WSymlink (stored home "ab") ["ws"; "models"; "x.bin"];
            WMove ["ws"; "models"; "x.bin"] (stored home "ab")]).
Proof.
  assert (files user_world !! (["ws"] ++ filename wanted) = Some (File "user data"))
    as Hfile by (vm_compute; reflexivity).
  destruct (regular_file_at_workspace_path home zero_digest offline
              ["ws"] true wanted "user data" user_world Hfile) as (_ & _ & H).
  apply H.
  - vm_compute. reflexivity.
  - vm_compute. reflexivity.
  - right. vm_compute. reflexivity.
Defined.

(** A file of the user whose digest is not the hash of the manifest raises
    no conflict: [retrive_models] moves it into the store under that hash
    and puts a link in its place. *)
Lemma mismatched_file_is_adopted :
  let here := ["ws"; "models"; "x.bin"] in
  let there := stored home (sha256 wanted) in
  let r := retrive_models home zero_digest offline [wanted] ["ws"] true user_world in
  files user_world !! here = Some (File "user data") /\
  zero_digest "user data" <> sha256 wanted /\
  r.1 = Ok tt /\
  files r.2 !! here = Some (Symlink there) /\
  files r.2 !! there = Some (File "user data").
Proof.
  cbv zeta. split_and!; [vm_compute; reflexivity|discriminate|vm_compute; reflexivity..].
Qed.

End PackageClaims.

(** ** Normalised names *)

Module NormalizeProps.
Import Py Utils Names.

(** Case analysis on the 256 characters. *)
Ltac each_char c :=
  destruct c as [[] [] [] [] [] [] [] []]; vm_compute; try done.

Lemma lower_char_word c : is_word c = true -> is_lower_word (lower_char c) = true.
Proof. each_char c. Qed.

Lemma lower_word_continue c : is_lower_word c = true -> xid_continue c = true.
Proof. each_char c. Qed.

Lemma lower_word_start c :
  is_lower_word c = true -> xid_start c || is_underscore c = negb (is_ascii_digit c).
Proof. each_char c. Qed.

Lemma all_chars_impl (P Q : ascii -> bool) s :
  (forall c, P c = true -> Q c = true) -> all_chars P s = true -> all_chars Q s = true.
Proof.
  intros H. induction s as [|c s IH]; simpl; [done|].
  rewrite !andb_true_iff. intros [? ?]. auto.
Qed.

Lemma all_chars_sub_nonword s : all_chars is_word (sub_nonword s) = true.
Proof.
  unfold sub_nonword. induction s as [|c s IH]; simpl; [done|].
  rewrite IH, andb_true_r. by destruct (is_word c) eqn:E.
Qed.

Lemma all_chars_sub_underscores P s :
  all_chars P s = true -> all_chars P (sub_underscores s) = true.
Proof.
  induction s as [|c s IH]; [done|]. cbn [all_chars sub_underscores].
  rewrite andb_true_iff. intros [Hc Hs].
  destruct (is_underscore c); [destruct s as [|c' s']|].
  - simpl. by rewrite Hc.
  - destruct (is_underscore c'); [by apply IH|].
    cbn [all_chars]. rewrite Hc. by apply IH.
  - cbn [all_chars]. rewrite Hc. by apply IH.
Qed.

Lemma all_chars_lstrip P s :
  all_chars P s = true -> all_chars P (lstrip_underscore s) = true.
Proof.
  induction s as [|c s IH]; [done|]. cbn [lstrip_underscore].
  destruct (is_underscore c); [|done].
  cbn [all_chars]. rewrite andb_true_iff. intros [_ ?]. auto.
Qed.

Lemma all_chars_rstrip P s :
  all_chars P s = true -> all_chars P (rstrip_underscore s) = true.
Proof.
  induction s as [|c s IH]; [done|]. cbn [all_chars rstrip_underscore].
  rewrite andb_true_iff. intros [Hc Hs]. specialize (IH Hs).
  destruct (rstrip_underscore s) as [|c' r].
  - destruct (is_underscore c); [done|]. simpl. by rewrite Hc.
  - cbn [all_chars] in *. by rewrite Hc.
Qed.

Lemma all_chars_lower s :
  all_chars is_word s = true -> all_chars is_lower_word (lower s) = true.
Proof.
  unfold lower. induction s as [|c s IH]; simpl; [done|].
  rewrite !andb_true_iff. intros [Hc Hs]. split; [by apply lower_char_word|auto].
Qed.

(** The shape of a normalised name: not empty, and made of lower-case
    letters, digits and underscores. *)
Lemma normalize_shape s :
  _normalize_to_identifier s <> "" /\
  all_chars is_lower_word (_normalize_to_identifier s) = true.
Proof.
  unfold _normalize_to_identifier. destruct s as [|c0 s0]; [done|].
  set (s := String c0 s0).
  set (t := match sub_nonword s with
            | String c _ => if isdigit c then String underscore (sub_nonword s)
                            else sub_nonword s
            | EmptyString => sub_nonword s
            end).
  assert (all_chars is_word t = true) as Ht.
  { unfold t. pose proof (all_chars_sub_nonword s) as H.
    destruct (sub_nonword s) as [|c r]; [done|].
    destruct (isdigit c); [|done].
    change (is_word underscore && all_chars is_word (String c r) = true).
    by rewrite H. }
  assert (all_chars is_word (strip_underscore (sub_underscores t)) = true) as Hu.
  { unfold strip_underscore.
    by apply all_chars_rstrip, all_chars_lstrip, all_chars_sub_underscores. }
  destruct (strip_underscore (sub_underscores t)) as [|c r]; [done|].
  split; [done|]. by apply all_chars_lower.
Qed.

(** X1. A normalised name is never empty and holds only lower-case
    letters, digits and underscores. *)
Theorem normalize_lower_word s :
  _normalize_to_identifier s <> "" /\
  all_chars is_lower_word (_normalize_to_identifier s) = true.
Proof. apply normalize_shape. Qed.

(** X2. A normalised name is a valid identifier exactly when it does not
    start with a digit. *)
Theorem normalize_identifier_iff s :
  isidentifier (_normalize_to_identifier s)
  = negb (starts_with_digit (_normalize_to_identifier s)).
Proof.
  destruct (normalize_shape s) as [Hne Hall].
  destruct (_normalize_to_identifier s) as [|c r]; [done|].
  cbn [all_chars] in Hall. apply andb_true_iff in Hall as [Hc Hr].
  cbn [isidentifier starts_with_digit].
  rewrite (lower_word_start c Hc).
  rewrite (all_chars_impl _ _ r lower_word_continue Hr). apply andb_true_r.
Qed.

Lemma lower_char_underscore c : is_underscore (lower_char c) = is_underscore c.
Proof. each_char c. Qed.

Lemma lower_char_lower_word c : is_lower_word c = true -> lower_char c = c.
Proof. each_char c. Qed.

Lemma lower_word_word c : is_lower_word c = true -> is_word c = true.
Proof. each_char c. Qed.

Lemma lower_word_isdigit c : is_lower_word c = true -> isdigit c = is_ascii_digit c.
Proof. each_char c. Qed.

Lemma digit_not_underscore c : is_ascii_digit c = true -> is_underscore c = false.
Proof. each_char c. Qed.

Lemma starts_sub_underscores s :
  starts_with_underscore (sub_underscores s) = starts_with_underscore s.
Proof.
  induction s as [|c s IH]; [done|]. cbn [sub_underscores].
  destruct (is_underscore c) eqn:Ec; [|by cbn; rewrite Ec].
  destruct s as [|c' s']; [by cbn; rewrite Ec|].
  destruct (is_underscore c') eqn:Ec'; [|by cbn; rewrite Ec].
  rewrite IH. cbn. by rewrite Ec, Ec'.
Qed.

Lemma no_double_sub_underscores s : no_double_underscore (sub_underscores s) = true.
Proof.
  induction s as [|c s IH]; [done|]. cbn [sub_underscores].
  destruct (is_underscore c) eqn:Ec.
  - destruct s as [|c' s']; [by cbn; rewrite Ec|].
    destruct (is_underscore c') eqn:Ec'; [done|].
    cbn [no_double_underscore]. rewrite IH, starts_sub_underscores. cbn.
    by rewrite Ec, Ec'.
  - cbn [no_double_underscore]. by rewrite IH, Ec.
Qed.

Lemma no_double_lstrip s :
  no_double_underscore s = true -> no_double_underscore (lstrip_underscore s) = true.
Proof.
  induction s as [|c s IH]; [done|]. cbn [lstrip_underscore].
  destruct (is_underscore c); [|done].
  cbn [no_double_underscore]. rewrite andb_true_iff. intros [_ ?]. auto.
Qed.

Lemma starts_lstrip s : starts_with_underscore (lstrip_underscore s) = false.
Proof.
  induction s as [|c s IH]; [done|]. cbn [lstrip_underscore].
  destruct (is_underscore c) eqn:Ec; [done|]. cbn. by rewrite Ec.
Qed.

Lemma starts_rstrip s :
  starts_with_underscore s = false -> starts_with_underscore (rstrip_underscore s) = false.
Proof.
  destruct s as [|c s]; [done|]. cbn [rstrip_underscore starts_with_underscore].
  intros Hc. destruct (rstrip_underscore s); [by rewrite Hc|done].
Qed.

Lemma rstrip_cons c s :
  rstrip_underscore (String c s) =
  match rstrip_underscore s with
  | EmptyString => if is_underscore c then EmptyString else String c EmptyString
  | r => String c r
  end.
Proof. done. Qed.

Lemma ends_rstrip s : ends_with_underscore (rstrip_underscore s) = false.
Proof.
  induction s as [|c s IH]; [done|]. rewrite rstrip_cons.
  destruct (rstrip_underscore s) as [|c' r].
  - destruct (is_underscore c) eqn:Ec; [done|]. cbn. by rewrite Ec.
  - exact IH.
Qed.

Lemma rstrip_head s c r :
  rstrip_underscore s = String c r -> starts_with_underscore s = is_underscore c.
Proof.
  destruct s as [|c1 s1]; [done|]. rewrite rstrip_cons.
  destruct (rstrip_underscore s1); [destruct (is_underscore c1)|];
    intros [= <- _]; done.
Qed.

Lemma no_double_rstrip s :
  no_double_underscore s = true -> no_double_underscore (rstrip_underscore s) = true.
Proof.
  induction s as [|c s IH]; [done|]. rewrite rstrip_cons.
  cbn [no_double_underscore]. rewrite andb_true_iff. intros [Hc Hs].
  specialize (IH Hs). destruct (rstrip_underscore s) as [|c' r] eqn:Er.
  - destruct (is_underscore c) eqn:Ec; cbn; [done|]. by rewrite Ec.
  - change (negb (is_underscore c && is_underscore c')
            && no_double_underscore (String c' r) = true).
    rewrite IH, andb_true_r, <- (rstrip_head s c' r Er). exact Hc.
Qed.

Lemma rstrip_id s : ends_with_underscore s = false -> rstrip_underscore s = s.
Proof.
  induction s as [|c s IH]; [done|]. rewrite rstrip_cons.
  destruct s as [|c' s'].
  - cbn. by intros ->.
  - intros H. rewrite IH by exact H. done.
Qed.

Lemma lstrip_id s : starts_with_underscore s = false -> lstrip_underscore s = s.
Proof. destruct s as [|c s]; [done|]. cbn. by intros ->. Qed.

Lemma sub_underscores_id s : no_double_underscore s = true -> sub_underscores s = s.
Proof.
  induction s as [|c s IH]; [done|]. cbn [no_double_underscore sub_underscores].
  rewrite andb_true_iff. intros [Hc Hs]. rewrite (IH Hs).
  destruct (is_underscore c); [|done].
  destruct s as [|c' s']; [done|]. cbn in Hc. by destruct (is_underscore c').
Qed.

Lemma sub_nonword_id s : all_chars is_word s = true -> sub_nonword s = s.
Proof.
  unfold sub_nonword. induction s as [|c s IH]; simpl; [done|].
  rewrite andb_true_iff. intros [-> Hs]. by rewrite IH.
Qed.

Lemma lower_id s : all_chars is_lower_word s = true -> lower s = s.
Proof.
  unfold lower. induction s as [|c s IH]; simpl; [done|].
  rewrite andb_true_iff. intros [Hc Hs]. by rewrite IH, lower_char_lower_word.
Qed.

Lemma starts_lower s : starts_with_underscore (lower s) = starts_with_underscore s.
Proof. destruct s as [|c s]; [done|]. cbn. apply lower_char_underscore. Qed.

Lemma ends_lower s : ends_with_underscore (lower s) = ends_with_underscore s.
Proof.
  unfold lower. induction s as [|c s IH]; [done|].
  destruct s as [|c' s']; [cbn; apply lower_char_underscore|exact IH].
Qed.

Lemma no_double_lower s : no_double_underscore (lower s) = no_double_underscore s.
Proof.
  induction s as [|c s IH]; [done|].
  change (lower (String c s)) with (String (lower_char c) (lower s)).
  cbn [no_double_underscore]. by rewrite IH, starts_lower, lower_char_underscore.
Qed.

Lemma normalize_tidy s : tidy (_normalize_to_identifier s).
Proof.
  split; [apply normalize_shape|].
  unfold _normalize_to_identifier. destruct s as [|c0 s0]; [split; [done|by left]|].
  set (t := match sub_nonword (String c0 s0) with
            | String c _ => if isdigit c then String underscore (sub_nonword (String c0 s0))
                            else sub_nonword (String c0 s0)
            | EmptyString => sub_nonword (String c0 s0)
            end).
  set (u := strip_underscore (sub_underscores t)).
  assert (no_double_underscore u = true) as Hd.
  { apply no_double_rstrip, no_double_lstrip, no_double_sub_underscores. }
  assert (starts_with_underscore u = false) as Hs.
  { apply starts_rstrip, starts_lstrip. }
  assert (ends_with_underscore u = false) as He by apply ends_rstrip.
  destruct u as [|c r] eqn:Eu; [split; [done|by left]|].
  rewrite no_double_lower, starts_lower, ends_lower. split; [done|]. right. done.
Qed.

Lemma normalize_fixpoint s : tidy s -> _normalize_to_identifier s = s.
Proof.
  intros (Hall & Hd & Hends).
  destruct s as [|c r]; [by destruct Hends as [?|[? _]]|].
  assert (is_lower_word c = true) as Hc.
  { cbn in Hall. by apply andb_true_iff in Hall as [? _]. }
  unfold _normalize_to_identifier.
  rewrite (sub_nonword_id (String c r))
    by (eapply all_chars_impl; [exact lower_word_word|done]).
  cbv beta iota. rewrite (lower_word_isdigit c Hc).
  destruct (is_ascii_digit c) eqn:Edig.
  - destruct Hends as [E|(_ & Hst & Hen)]; [by simplify_eq|].
    assert (sub_underscores (String underscore (String c r))
            = String underscore (String c r)) as ->.
    { apply sub_underscores_id.
      change (negb (is_underscore underscore && starts_with_underscore (String c r))
              && no_double_underscore (String c r) = true).
      by rewrite Hd, Hst, andb_false_r. }
    unfold strip_underscore.
    change (lstrip_underscore (String underscore (String c r)))
      with (lstrip_underscore (String c r)).
    rewrite lstrip_id, rstrip_id by done. by apply lower_id.
  - rewrite (sub_underscores_id _ Hd).
    destruct Hends as [E|(_ & Hst & Hen)]; [by rewrite E|].
    unfold strip_underscore. rewrite lstrip_id, rstrip_id by done.
    by apply lower_id.
Qed.

(** X3. Normalisation is idempotent: a normalised name is left as it is. *)
Theorem normalize_idempotent s :
  _normalize_to_identifier (_normalize_to_identifier s) = _normalize_to_identifier s.
Proof. apply normalize_fixpoint, normalize_tidy. Qed.

End NormalizeProps.

(** ** More on parsing *)

Module ParseMore.
Import Py Utils Shape DictFacts ParseProps.

Lemma dict_set_twice {V} k (v : V) d : dict_set k v (dict_set k v d) = dict_set k v d.
Proof.
  induction d as [|[k' v'] d IH]; simpl.
  - by rewrite String.eqb_refl.
  - destruct (String.eqb_spec k k') as [->|Hne]; simpl.
    + by rewrite String.eqb_refl.
    + destruct (String.eqb_spec k k'); [done|]. by rewrite IH.
Qed.

Lemma with_id_twice id node : with_id id (with_id id node) = with_id id node.
Proof. destruct node; try done. simpl. by rewrite dict_set_twice. Qed.

Lemma node_links_with_id dm id node :
  node_links dm (id, with_id id node) = node_links dm (id, node).
Proof.
  destruct node as [| | | | | |d]; try done. unfold node_links, with_id. cbn [fst snd].
  by rewrite getitem_with_id.
Qed.

Lemma classify_node_with_id dm st id node :
  classify_node dm st (id, with_id id node) = classify_node dm st (id, node).
Proof.
  destruct node as [| | | | | |d]; try done.
  unfold classify_node, with_id. cbn [fst snd setitem bind]. by rewrite dict_set_twice.
Qed.

Lemma keys_annotate (wf : list (string * json)) : keys (annotate <$> wf) = keys wf.
Proof. unfold keys. rewrite <- list_fmap_compose. by apply list_fmap_ext. Qed.

Lemma dict_has_annotate k (wf : list (string * json)) : dict_has k (annotate <$> wf) = dict_has k wf.
Proof.
  destruct (dict_has k wf) eqn:E.
  - apply dict_has_keys. rewrite keys_annotate. by apply dict_has_keys.
  - destruct (dict_has k (annotate <$> wf)) eqn:E'; [|done].
    apply dict_has_keys in E'. rewrite keys_annotate in E'.
    apply dict_has_keys in E'. congruence.
Qed.

Lemma node_links_annotate (wf : list (string * json)) dm :
  foldM node_links dm (annotate <$> wf) = foldM node_links dm wf.
Proof.
  revert dm. induction wf as [|[id n] wf IH]; intros dm; [done|].
  rewrite fmap_cons. cbn [foldM]. unfold annotate at 1. cbn [fst snd].
  rewrite node_links_with_id. destruct (node_links dm (id, n)); simpl; [apply IH|done].
Qed.

Lemma classify_annotate (wf : list (string * json)) dm st :
  foldM (classify_node dm) st (annotate <$> wf) = foldM (classify_node dm) st wf.
Proof.
  revert st. induction wf as [|[id n] wf IH]; intros st; [done|].
  rewrite fmap_cons. cbn [foldM]. unfold annotate at 1. cbn [fst snd].
  rewrite classify_node_with_id.
  destruct (classify_node dm st (id, n)); simpl; [apply IH|done].
Qed.

(** Parsing a document whose nodes already carry their ids goes as parsing
    the document itself, errors included. *)
Lemma parse_annotated (wf : list (string * json)) :
  _parse_workflow (annotate <$> wf) = _parse_workflow wf.
Proof.
  unfold _parse_workflow, build_dep_map.
  rewrite dict_has_annotate, node_links_annotate.
  destruct (dict_has "last_node_id" wf); [done|].
  destruct (foldM node_links [] wf) as [dm|]; [|done].
  cbn [bind]. apply classify_annotate.
Qed.

(** X4. Parsing changes nothing in the document but the [id] of each node:
    the keys and their order stay, every node is the node it was with its key
    stored under [id], and every other field reads as before. *)
Theorem parse_only_annotates wf p :
  _parse_workflow wf = Ok p ->
  p_workflow p = annotate <$> wf /\
  forall id node,
    (id, node) ∈ wf ->
    getitem (with_id id node) "id" = Ok (JStr id) /\
    forall f, f <> "id" -> getitem (with_id id node) f = getitem node f.
Proof.
  intros Hp. split; [by apply parse_workflow_annotated|].
  intros id node Hin.
  destruct (parse_node_shape wf p id node Hp Hin) as (d & ins & -> & _).
  split; [apply getitem_id|]. intros f Hf. by apply getitem_with_id.
Qed.

(** X5. Parsing is idempotent: parsing the document a parse has left gives
    the same mappings and the same document. *)
Theorem parse_twice wf p :
  _parse_workflow wf = Ok p -> _parse_workflow (p_workflow p) = Ok p.
Proof.
  intros Hp. rewrite (parse_workflow_annotated wf p Hp), parse_annotated. exact Hp.
Qed.

(** *** The documents that parse *)

Lemma add_link_fold_valid dm ins dm' :
  foldM add_link dm ins = Ok dm' ->
  forallb (fun slot : string * json => valid_slot slot.2) ins = true.
Proof.
  revert dm. induction ins as [|[k v] ins IH]; intros dm; simpl; [done|].
  intros H. bind_inv H. rewrite (IH _ H), andb_true_r.
  unfold add_link in E. cbn [fst snd] in E.
  destruct v as [| | | | |l|]; try done.
  destruct l as [|x [|y [|z l]]]; try done. simpl.
  by destruct (hashable x && hashable y).
Qed.

Lemma identifier_needs_title id d dm name :
  _get_node_identifier (with_id id (JDict d)) dm = Ok name -> titled d = true.
Proof.
  unfold _get_node_identifier, with_id, titled.
  rewrite (getitem_with_id id d "_meta") by done. cbn [getitem].
  destruct (dict_get "_meta" d) as [meta|]; [|done]. cbn [of_option bind].
  destruct meta as [| | | | | |meta]; try done. cbn [getitem].
  destruct (dict_get "title" meta) as [t|]; [|done]. cbn [of_option bind].
  by destruct t.
Qed.

Lemma classify_node_needs dm st id node st' :
  classify_node dm st (id, node) = Ok st' ->
  exists d class_type,
    node = JDict d /\ dict_get "class_type" d = Some (JStr class_type) /\
    (is_input_type class_type || is_output_type class_type = true -> titled d = true).
Proof.
  intros H. apply classify_node_inv in H as (ct & Hct & _ & H).
  apply class_of_dict in Hct as (d & -> & Hd). exists d, ct. split_and!; [done..|].
  destruct (is_input_type ct); [|destruct (is_output_type ct); [|done]]; intros _.
  - destruct H as (name & Hn & _). by eapply identifier_needs_title.
  - destruct H as (name & Hn & _). by eapply identifier_needs_title.
Qed.

(** X6. The documents that parse are the valid ones: [_parse_workflow]
    returns its mappings exactly when the document lacks the key
    [last_node_id] and each of its nodes is a mapping that has its inputs, a
    mapping whose links are hashable, and its class, a string, with a string
    title when the class is that of an input or an output. *)
Theorem parse_succeeds_iff_valid wf :
  (exists p, _parse_workflow wf = Ok p) <-> valid_workflow wf = true.
Proof.
  split; [|apply parse_valid]. intros [p Hp].
  destruct (parse_inv wf p Hp) as (Hs & dm & Hdm & Hfold).
  unfold valid_workflow. rewrite Hs. cbn [negb andb].
  apply forallb_forall. intros [id node] Hin. apply list_elem_of_In in Hin.
  destruct (foldM_each _ _ _ _ _ Hdm Hin) as (dm1 & dm2 & Hl).
  destruct (foldM_each _ _ _ _ _ Hfold Hin) as (st1 & st2 & Hc).
  apply node_links_inv in Hl as (d & ins & -> & Hi & Hl).
  apply classify_node_needs in Hc as (d' & ct & [= <-] & Hct & Ht).
  cbn [snd valid_node]. rewrite Hi, Hct, (add_link_fold_valid _ _ _ Hl). cbn [andb].
  destruct (is_input_type ct || is_output_type ct); auto.
Qed.

End ParseMore.

(** ** Errors of population *)

Module PopulateErrors.
Import Py Utils Shape DictFacts ParseProps PopulateProps Errors.

Lemma foldM_Err {A B} (f : A -> B -> res A) l a e :
  foldM f a l = Err e -> exists a1 x, x ∈ l /\ f a1 x = Err e.
Proof.
  revert a. induction l as [|y l IH]; intros a; simpl; [done|].
  destruct (f a y) as [a'|e'] eqn:E; simpl.
  - intros H. destruct (IH _ H) as (a1 & x & ? & ?). exists a1, x. split; [by right|done].
  - intros [= ->]. exists a, y. split; [left|done].
Qed.

(** A step that fails makes the loop fail. *)
Lemma foldM_fails {A B} (f : A -> B -> res A) l a x :
  x ∈ l -> (forall a1, exists e, f a1 x = Err e) -> exists e, foldM f a l = Err e.
Proof.
  intros Hin Hx. revert a. induction l as [|y l IH]; intros a; simpl.
  - by apply elem_of_nil in Hin.
  - destruct (f a y) as [a'|e'] eqn:E; simpl; [|eauto].
    apply elem_of_cons in Hin as [->|Hin]; [|by apply IH].
    destruct (Hx a) as [e He]. congruence.
Qed.

(** The entries of the inputs mapping are input nodes, those of the
    outputs mapping are not. *)
Lemma classify_fold_classes dm wf st st' :
  foldM (classify_node dm) st wf = Ok st' ->
  Forall (fun e : string * json => is_input_node e.2 = true) (p_inputs st) /\
  Forall (fun e : string * json => is_input_node e.2 = false) (p_outputs st) ->
  Forall (fun e : string * json => is_input_node e.2 = true) (p_inputs st') /\
  Forall (fun e : string * json => is_input_node e.2 = false) (p_outputs st').
Proof.
  intros H Hst.
  eapply (foldM_invariant
            (fun st => Forall (fun e : string * json => is_input_node e.2 = true) (p_inputs st) /\
                       Forall (fun e : string * json => is_input_node e.2 = false) (p_outputs st)));
    [|exact Hst|exact H].
  clear. intros st [id node] st' _ [Hi Ho] H.
  apply classify_node_inv in H as (ct & Hct & _ & H).
  assert (forall (P : string * json -> Prop) name d,
             P (name, with_id id node) -> Forall P d ->
             Forall P (dict_set name (with_id id node) d)) as Hset.
  { intros P name d Hnew Hd. apply Forall_forall. intros e He.
    apply dict_set_elem in He as [->|He]; [done|].
    by eapply Forall_forall in Hd. }
  destruct (is_input_type ct) eqn:Ei; [|destruct (is_output_type ct)].
  - destruct H as (name & _ & -> & ->). split; [|done]. apply Hset; [|done].
    cbn [snd]. unfold is_input_node. by rewrite class_of_with_id, Hct.
  - destruct H as (name & _ & -> & ->). split; [done|]. apply Hset; [|done].
    cbn [snd]. unfold is_input_node. by rewrite class_of_with_id, Hct.
  - destruct H as [-> ->]. done.
Qed.

Lemma parse_classes wf p :
  _parse_workflow wf = Ok p ->
  Forall (fun e : string * json => is_input_node e.2 = true) (p_inputs p) /\
  Forall (fun e : string * json => is_input_node e.2 = false) (p_outputs p).
Proof.
  intros H. apply parse_inv in H as (_ & dm & _ & H).
  eapply classify_fold_classes; [exact H|]. split; constructor.
Qed.

Lemma add_link_no_value_error dm slot e :
  add_link dm slot = Err e -> is_value_error e = false.
Proof.
  unfold add_link. destruct slot.2 as [| | | | |l|]; try done.
  destruct l as [|x [|y [|z l]]]; try done.
  destruct (hashable x && hashable y); [done|]. by intros [= <-].
Qed.

Lemma node_links_no_value_error dm item e :
  node_links dm item = Err e -> is_value_error e = false.
Proof.
  unfold node_links. destruct item.2 as [| | | | | |d]; try (by intros [= <-]).
  cbn [getitem]. destruct (dict_get "inputs" d) as [ins|]; [|by intros [= <-]].
  cbn [of_option bind]. destruct ins as [| | | | | |ins]; try (by intros [= <-]).
  cbn [items bind]. intros H. apply foldM_Err in H as (dm1 & x & _ & H).
  by eapply add_link_no_value_error.
Qed.

Lemma identifier_no_value_error node dm e :
  _get_node_identifier node dm = Err e -> is_value_error e = false.
Proof.
  unfold _get_node_identifier.
  destruct node as [| | | | | |d]; try (by intros [= <-]). cbn [getitem].
  destruct (dict_get "_meta" d) as [meta|]; [|by intros [= <-]]. cbn [of_option bind].
  destruct meta as [| | | | | |meta]; try (by intros [= <-]). cbn [getitem].
  destruct (dict_get "title" meta) as [t|]; [|by intros [= <-]]. cbn [of_option bind].
  destruct t as [| | | |t| |]; try (by intros [= <-]). cbn [as_str bind].
  destruct (isidentifier t); [done|].
  destruct (dict_get "id" d) as [nid|]; [|by intros [= <-]]. cbn [of_option bind].
  by destruct (match nid with JStr s => dep_lookup s dm | _ => None end).
Qed.

Lemma classify_node_no_value_error dm st item e :
  classify_node dm st item = Err e -> is_value_error e = false.
Proof.
  unfold classify_node. destruct item as [id node]. cbn [fst snd].
  destruct node as [| | | | | |d]; try (by intros [= <-]). cbn [setitem bind getitem].
  destruct (dict_get "class_type" _) as [ct|]; [|by intros [= <-]]. cbn [of_option bind].
  destruct ct as [| | | |ct| |]; try (by intros [= <-]). cbn [as_str bind].
  destruct (startswith ct "CPackInput").
  - destruct (_get_node_identifier _ dm) as [name|e'] eqn:E; [done|].
    cbn [bind]. intros [= <-]. by eapply identifier_no_value_error.
  - destruct (startswith ct "CPackOutput"); [|done].
    destruct (_get_node_identifier _ []) as [name|e'] eqn:E; [done|].
    cbn [bind]. intros [= <-]. by eapply identifier_no_value_error.
Qed.

(** The only [ValueError] of the parser is that of the wrong format. *)
Lemma parse_value_error wf msg :
  _parse_workflow wf = Err (ValueError msg) ->
  "last_node_id" ∈ keys wf /\ msg = API_WORKFLOW_MESSAGE.
Proof.
  unfold _parse_workflow. destruct (dict_has "last_node_id" wf) eqn:Es.
  - intros [= <-]. split; [by apply dict_has_keys|done].
  - unfold build_dep_map. destruct (foldM node_links [] wf) as [dm|e] eqn:El; cbn [bind].
    + intros H. apply foldM_Err in H as (st & x & _ & H).
      by apply classify_node_no_value_error in H.
    + intros [= ->]. apply foldM_Err in El as (dm1 & x & _ & H).
      by apply node_links_no_value_error in H.
Qed.

Section Pathlib.
Context {Path : Type}.
Variable truediv : Path -> string -> Path.
Variable as_posix : Path -> string.

#[local] Abbreviation set_input := (set_input Path as_posix).
#[local] Abbreviation set_prefix := (set_prefix Path truediv as_posix).
#[local] Abbreviation populate_workflow := (populate_workflow Path truediv as_posix).

Lemma set_input_no_value_error input_spec wf kv e :
  Forall (fun e : string * json => is_input_node e.2 = true) input_spec ->
  set_input input_spec wf kv = Err e -> is_value_error e = false.
Proof.
  intros Hin. unfold set_input, Utils.set_input. destruct kv as [k v]. cbn [fst snd].
  destruct (dict_get k input_spec) as [node|] eqn:Ek; [|by intros [= <-]].
  cbn [of_option bind].
  apply dict_get_elem in Ek. eapply Forall_forall in Hin; [|exact Ek]. cbn [snd] in Hin.
  unfold is_input_node in Hin.
  destruct (class_of node) as [ct|] eqn:Hct; [|done].
  apply class_of_dict in Hct as (dn & -> & Hct). cbn [getitem]. rewrite Hct.
  cbn [of_option bind as_str].
  unfold is_input_type in Hin. rewrite Hin. cbn [negb].
  destruct (dict_get "id" dn) as [nid|]; [|by intros [= <-]]. cbn [of_option bind].
  destruct nid as [| | | |id| |]; try (by intros [= <-]). cbn [lookup_node].
  destruct (dict_get id wf) as [n|]; [|by intros [= <-]]. cbn [of_option bind fst snd].
  unfold _set_node_value.
  destruct n as [| | | | | |d]; try (by intros [= <-]). cbn [getitem].
  destruct (dict_get "inputs" d) as [ins|]; [|by intros [= <-]]. cbn [of_option bind].
  destruct ins as [| | | | | |ins]; try (by intros [= <-]). cbn [items bind].
  destruct ins as [|[s x] rest]; [by intros [= <-]|]. done.
Qed.

Lemma set_prefix_no_value_error output_path session_id wf kv e :
  set_prefix output_path session_id wf kv = Err e -> is_value_error e = false.
Proof.
  unfold set_prefix, Utils.set_prefix. destruct kv as [name node]. cbn [fst snd].
  destruct node as [| | | | | |dn]; try (by intros [= <-]). cbn [getitem].
  destruct (dict_get "id" dn) as [nid|]; [|by intros [= <-]]. cbn [of_option bind].
  destruct (dict_get "class_type" dn) as [ct|]; [|by intros [= <-]]. cbn [of_option bind].
  destruct ct as [| | | |ct| |]; cbn [in_set bind]; try done; try (by intros [= <-]).
  destruct (str_in ct CPACK_OUTPUT_NODES); [|done].
  destruct nid as [| | | |id| |]; try (by intros [= <-]). cbn [lookup_node].
  destruct (dict_get id wf) as [n|]; [|by intros [= <-]]. cbn [of_option bind fst snd].
  destruct n as [| | | | | |d]; try (by intros [= <-]). cbn [getitem].
  destruct (dict_get "inputs" d) as [ins|]; [|by intros [= <-]]. cbn [of_option bind].
  destruct ins as [| | | | | |ins]; try (by intros [= <-]); done.
Qed.

(** X7. The check of [populate_workflow] that a targeted node is an input
    node never fires: the only [ValueError] population raises is that of the
    parser for a document in the wrong format. *)
Theorem populate_value_error wf output_path session_id values msg :
  populate_workflow wf output_path session_id values = Err (ValueError msg) ->
  "last_node_id" ∈ keys wf /\ msg = API_WORKFLOW_MESSAGE.
Proof.
  unfold populate_workflow, Utils.populate_workflow.
  destruct (_parse_workflow wf) as [p|e] eqn:Hp; cbn [bind].
  - destruct (parse_classes wf p Hp) as [Hin _].
    destruct (foldM (set_input (p_inputs p)) (p_workflow p) values) as [wf1|e] eqn:H1;
      cbn [bind].
    + intros H. apply foldM_Err in H as (w & x & _ & H).
      by apply set_prefix_no_value_error in H.
    + intros [= ->]. apply foldM_Err in H1 as (w & x & _ & H).
      by apply (set_input_no_value_error _ _ _ _ Hin) in H.
  - intros [= ->]. by apply parse_value_error.
Qed.

(** X8. Population fails when a key of the values names no input. *)
Theorem populate_unknown_input wf p output_path session_id values name :
  _parse_workflow wf = Ok p ->
  name ∈ keys values ->
  name ∉ keys (p_inputs p) ->
  exists e, populate_workflow wf output_path session_id values = Err e.
Proof.
  intros Hp Hin Hnot. unfold populate_workflow, Utils.populate_workflow.
  rewrite Hp. cbn [bind].
  apply list_elem_of_fmap in Hin as ([k v] & -> & Hin). cbn [fst] in Hnot.
  destruct (foldM_fails (set_input (p_inputs p)) values (p_workflow p) (k, v) Hin)
    as [e ->].
  - intros w. exists (KeyError k). unfold set_input, Utils.set_input. cbn [fst snd].
    apply dict_get_None in Hnot. by rewrite Hnot.
  - cbn [bind]. eauto.
Qed.

End Pathlib.

End PopulateErrors.

(** ** The values population writes *)

Module PopulateValues.
Import Py Utils Shape DictFacts ParseProps PopulateProps Errors PopulateErrors Ids.
Import RoundTripClaims.
#[local] Open Scope list_scope.

Lemma NoDup_ids_dict_set (d : list (string * json)) k v :
  NoDup ((fun e : string * json => id_of e.2) <$> d) ->
  (forall e, e ∈ d -> id_of e.2 <> id_of v) ->
  NoDup ((fun e : string * json => id_of e.2) <$> dict_set k v d).
Proof.
  induction d as [|[k' v'] d IH]; intros Hnd Hne; simpl.
  - apply NoDup_singleton.
  - rewrite fmap_cons in Hnd. apply NoDup_cons in Hnd as [Hv' Hd]. cbn [snd] in Hv'.
    destruct (String.eqb_spec k k') as [->|Hk]; rewrite fmap_cons; apply NoDup_cons; cbn [snd].
    + split; [|done]. intros Hin. apply list_elem_of_fmap in Hin as (e & He & Hin).
      apply (Hne e); [by right|done].
    + split.
      * intros Hin. apply list_elem_of_fmap in Hin as (e & He & Hin).
        apply dict_set_elem in Hin as [->|Hin].
        -- apply (Hne (k', v')); [left|done].
        -- apply Hv'. apply list_elem_of_fmap. eauto.
      * apply IH; [done|]. intros e He. apply Hne. by right.
Qed.

Lemma NoDup_fmap_same {A B} (f : A -> B) (l : list A) x y :
  NoDup (f <$> l) -> x ∈ l -> y ∈ l -> f x = f y -> x = y.
Proof.
  induction l as [|a l IH]; intros Hnd Hx Hy Hf; [by apply elem_of_nil in Hx|].
  rewrite fmap_cons in Hnd. apply NoDup_cons in Hnd as [Ha Hl].
  apply elem_of_cons in Hx as [->|Hx]; apply elem_of_cons in Hy as [->|Hy]; auto.
  - exfalso. apply Ha. rewrite Hf. apply list_elem_of_fmap. eauto.
  - exfalso. apply Ha. rewrite <- Hf. apply list_elem_of_fmap. eauto.
Qed.

Lemma id_of_with_id id d : id_of (with_id id (JDict d)) = Some id.
Proof. unfold id_of, with_id. by rewrite getitem_id. Qed.

(** No two entries of the inputs mapping carry the same id. *)
Lemma classify_fold_ids dm wf st st' seen :
  foldM (classify_node dm) st wf = Ok st' ->
  NoDup (seen ++ keys wf) ->
  (forall e, e ∈ p_inputs st -> exists id, id_of e.2 = Some id /\ id ∈ seen) ->
  NoDup ((fun e : string * json => id_of e.2) <$> p_inputs st) ->
  NoDup ((fun e : string * json => id_of e.2) <$> p_inputs st').
Proof.
  revert st seen. induction wf as [|[id node] wf IH]; intros st seen; simpl.
  - by intros [= <-].
  - intros H Hnd Hseen Hids. bind_inv H.
    apply classify_node_inv in E as (ct & Hct & _ & E).
    apply class_of_dict in Hct as (d & -> & _).
    change (id :: keys wf) with ([id] ++ keys wf) in Hnd. rewrite app_assoc in Hnd.
    assert (id ∉ seen) as Hfresh.
    { apply NoDup_app in Hnd as (Hnd & _ & _). apply NoDup_app in Hnd as (_ & Hnd & _).
      intros Hin. apply (Hnd id Hin). left. }
    apply (IH a (seen ++ [id])); [exact H|exact Hnd| |].
    + intros e He.
      assert (e ∈ p_inputs st \/ e.2 = with_id id (JDict d)) as [Hin| ->].
      { destruct (is_input_type ct); [|destruct (is_output_type ct)].
        - destruct E as (name & _ & Ei & _). rewrite Ei in He.
          apply dict_set_elem in He as [->|?]; auto.
        - destruct E as (name & _ & Ei & _). rewrite Ei in He. auto.
        - destruct E as [Ei _]. rewrite Ei in He. auto. }
      * destruct (Hseen e Hin) as (id' & ? & ?). exists id'. split; [done|].
        apply elem_of_app. by left.
      * exists id. split; [apply id_of_with_id|]. apply elem_of_app. right. left.
    + destruct (is_input_type ct); [|destruct (is_output_type ct)].
      * destruct E as (name & _ & -> & _). apply NoDup_ids_dict_set; [done|].
        intros e He. rewrite id_of_with_id. destruct (Hseen e He) as (id' & -> & Hin).
        intros [= ->]. done.
      * destruct E as (name & _ & -> & _). done.
      * destruct E as [-> _]. done.
Qed.

(** Two names of the inputs mapping with the same id are one name. *)
Lemma input_ids_distinct wf p k k' node node' id :
  NoDup (keys wf) -> _parse_workflow wf = Ok p ->
  dict_get k (p_inputs p) = Some node -> dict_get k' (p_inputs p) = Some node' ->
  getitem node "id" = Ok (JStr id) -> getitem node' "id" = Ok (JStr id) ->
  k = k'.
Proof.
  intros Hnd Hp Hk Hk' Hid Hid'. apply parse_inv in Hp as (_ & dm & _ & Hfold).
  assert (NoDup ((fun e : string * json => id_of e.2) <$> p_inputs p)) as Hids.
  { apply (classify_fold_ids dm wf _ p [] Hfold); [done| |constructor].
    intros e He. by apply elem_of_nil in He. }
  apply dict_get_elem in Hk, Hk'.
  assert ((k, node) = (k', node')) as [= -> _]; [|done].
  eapply NoDup_fmap_same; [exact Hids|done|done|].
  cbn [snd]. unfold id_of. by rewrite Hid, Hid'.
Qed.

Section Pathlib.
Context {Path : Type}.
Variable truediv : Path -> string -> Path.
Variable as_posix : Path -> string.

#[local] Abbreviation set_input := (set_input Path as_posix).
#[local] Abbreviation set_prefix := (set_prefix Path truediv as_posix).
#[local] Abbreviation populate_workflow := (populate_workflow Path truediv as_posix).
#[local] Abbreviation plain := (plain Path as_posix).

Lemma holds_other wf id v id' node' :
  id' <> id -> holds wf id v -> holds (dict_set id' node' wf) id v.
Proof. intros Hne (n & Hn & Hv). exists n. by rewrite dict_get_set_ne. Qed.

Lemma holds_written wf id d s x rest v :
  holds (dict_set id (write_slot d ((s, x) :: rest) s v) wf) id v.
Proof.
  eexists. split; [apply dict_get_set_eq|].
  unfold _get_node_value, write_slot. cbn [getitem]. rewrite dict_get_set_eq.
  cbn [of_option bind items dict_set]. by rewrite String.eqb_refl.
Qed.

(** The later values leave the node alone: their names are other names. *)
Lemma set_input_fold_keeps input_spec l wf wf' k id v :
  foldM (set_input input_spec) wf l = Ok wf' ->
  k ∉ keys l ->
  (forall k' node', dict_get k' input_spec = Some node' ->
                    getitem node' "id" = Ok (JStr id) -> k' = k) ->
  holds wf id v -> holds wf' id v.
Proof.
  intros H Hk Hsame. revert wf H. induction l as [|[k0 v0] l IH]; intros wf; simpl.
  - by intros [= <-].
  - intros H Hh. bind_inv H. unfold keys in Hk. rewrite fmap_cons in Hk.
    apply not_elem_of_cons in Hk as [Hne Hk]. cbn [fst] in Hne.
    apply (IH Hk a); [exact H|].
    apply set_input_inv in E as (node0 & id0 & d & s & x & rest & Hk0 & Hid0 & _ & _ & ->).
    apply holds_other; [|done]. intros ->. apply Hne. symmetry. by eapply Hsame.
Qed.

Lemma set_input_fold_writes input_spec l wf wf' k v node id :
  foldM (set_input input_spec) wf l = Ok wf' ->
  NoDup (keys l) ->
  (k, v) ∈ l ->
  dict_get k input_spec = Some node ->
  getitem node "id" = Ok (JStr id) ->
  (forall k' node', dict_get k' input_spec = Some node' ->
                    getitem node' "id" = Ok (JStr id) -> k' = k) ->
  holds wf' id (plain v).
Proof.
  intros H Hnd Hin Hnode Hid Hsame. revert wf H.
  induction l as [|[k0 v0] l IH]; intros wf; simpl; [by apply elem_of_nil in Hin|].
  intros H. bind_inv H. unfold keys in Hnd. rewrite fmap_cons in Hnd.
  apply NoDup_cons in Hnd as [Hk0 Hnd]. cbn [fst] in Hk0.
  apply elem_of_cons in Hin as [[= <- <-]|Hin]; [|by apply (IH Hnd Hin a)].
  eapply set_input_fold_keeps; [exact H|exact Hk0|exact Hsame|].
  apply set_input_inv in E as (node0 & id0 & d & s & x & rest & Hk' & Hid0 & _ & _ & ->).
  rewrite Hnode in Hk'. injection Hk' as <-. rewrite Hid in Hid0. injection Hid0 as <-.
  apply holds_written.
Qed.

Lemma set_prefix_fold_keeps output_path session_id l wf wf' id v :
  foldM (set_prefix output_path session_id) wf l = Ok wf' ->
  (forall e, e ∈ l -> getitem e.2 "id" <> Ok (JStr id)) ->
  holds wf id v -> holds wf' id v.
Proof.
  intros H Hl Hh. eapply (foldM_invariant (fun w => holds w id v)); [|exact Hh|exact H].
  intros w [name node] w' Hin Hw Hs. apply set_prefix_inv in Hs.
  destruct (class_of node) as [ct|]; [|by subst].
  destruct (str_in ct CPACK_OUTPUT_NODES); [|by subst].
  destruct Hs as (id1 & d & ins & Hid1 & _ & _ & ->).
  apply holds_other; [|done]. intros ->. by apply (Hl _ Hin).
Qed.

(** X9. Population writes the values: once it has returned, the node of an
    input named by a key of the values reads, through [_get_node_value], as
    the value handed in under that key (a path as its portable string). *)
Theorem populate_sets_value wf p output_path session_id values wf' name v node id :
  NoDup (keys wf) ->
  NoDup (keys values) ->
  _parse_workflow wf = Ok p ->
  populate_workflow wf output_path session_id values = Ok wf' ->
  (name, v) ∈ values ->
  dict_get name (p_inputs p) = Some node ->
  getitem node "id" = Ok (JStr id) ->
  exists node', dict_get id wf' = Some node' /\ _get_node_value node' = Ok (plain v).
Proof.
  intros Hnd Hvals Hp Hpop Hin Hnode Hid.
  unfold populate_workflow, Utils.populate_workflow in Hpop. rewrite Hp in Hpop.
  cbn [bind] in Hpop. apply bind_Ok in Hpop as (wf1 & H1 & H2).
  eapply set_prefix_fold_keeps; [exact H2| |].
  - intros [oname onode] Ho Hoid. cbn [snd] in Hoid.
    destruct (entry_is_document_node wf p name node id Hnd Hp) as (n0 & Hn0 & ->);
      [left; by apply dict_get_elem|done|].
    destruct (entry_is_document_node wf p oname onode id Hnd Hp) as (n0' & Hn0' & ->);
      [by right|done|].
    rewrite Hn0 in Hn0'. injection Hn0' as <-.
    destruct (parse_classes wf p Hp) as [Hci Hco].
    eapply Forall_forall in Hci; [|apply dict_get_elem; exact Hnode].
    eapply Forall_forall in Hco; [|exact Ho]. cbn [snd] in *. congruence.
  - eapply set_input_fold_writes; [exact H1|done|exact Hin|exact Hnode|exact Hid|].
    intros k' node' Hk' Hid'. by eapply (input_ids_distinct wf p k' name).
Qed.

End Pathlib.

End PopulateValues.

(** ** Mappings built entry by entry *)

Module BuildProps.
Import Py Utils Shape DictFacts ParseProps PopulateErrors.
#[local] Open Scope list_scope.

Lemma dict_set_absent {V} k (v : V) d : k ∉ keys d -> dict_set k v d = d ++ [(k, v)].
Proof.
  unfold keys. induction d as [|[k' v'] d IH]; simpl; [done|].
  rewrite not_elem_of_cons. intros [Hne Hk].
  destruct (String.eqb_spec k k'); [done|]. by rewrite IH.
Qed.

(** A loop that stores [g] of every value of a mapping under its key builds
    the mapping of the results, in the same order. *)
Lemma foldM_build {V W} (g : V -> res W) (f : dict W -> string * V -> res (dict W))
    (l : list (string * V)) (acc acc' : list (string * W)) :
  (forall m kv, f m kv = bind (g kv.2) (fun w => Ok (dict_set kv.1 w m))) ->
  NoDup (keys acc ++ keys l) ->
  foldM f acc l = Ok acc' ->
  exists l', acc' = acc ++ l' /\
             Forall2 (fun kv kw => kw.1 = kv.1 /\ g kv.2 = Ok kw.2) l l'.
Proof.
  intros Hf. revert acc. induction l as [|[k v] l IH]; intros acc Hnd; simpl.
  - intros [= <-]. exists []. by rewrite app_nil_r.
  - rewrite Hf. cbn [fst snd]. destruct (g v) as [w|] eqn:Eg; [|done]. cbn [bind].
    unfold keys in Hnd. rewrite fmap_cons in Hnd. cbn [fst] in Hnd.
    rewrite dict_set_absent.
    2:{ apply NoDup_app in Hnd as (_ & Hnd & _). intros Hin. apply (Hnd k Hin). left. }
    intros H. apply IH in H as (l' & -> & Hl').
    + exists ((k, w) :: l'). rewrite <- app_assoc. split; [done|]. by constructor.
    + unfold keys. rewrite fmap_app. cbn. rewrite <- app_assoc. exact Hnd.
Qed.

Lemma Forall2_keys {V W} (R : V -> W -> Prop) (l : list (string * V))
    (l' : list (string * W)) :
  Forall2 (fun kv kw => kw.1 = kv.1 /\ R kv.2 kw.2) l l' -> keys l' = keys l.
Proof.
  unfold keys. induction 1 as [|[k v] [k' w] l l' [Hk _] _ IH]; [done|].
  rewrite !fmap_cons. simpl in *. congruence.
Qed.

Lemma Forall2_get {V W} (R : V -> W -> Prop) (l : list (string * V))
    (l' : list (string * W)) k v :
  Forall2 (fun kv kw => kw.1 = kv.1 /\ R kv.2 kw.2) l l' ->
  dict_get k l = Some v -> exists w, dict_get k l' = Some w /\ R v w.
Proof.
  induction 1 as [|[k0 v0] [k' w] l l' [Hk HR] _ IH]; simpl in *; [done|].
  subst k'. destruct (String.eqb_spec k k0); [|done]. intros [= ->]. eauto.
Qed.

End BuildProps.

(** ** Several outputs, and the schema *)

Module RetrieveMore.
Import Py Utils Shape DictFacts ParseProps PopulateErrors BuildProps.

Section Pathlib.
Context {Path : Type}.
Variable glob : Path -> string -> list Path.

#[local] Abbreviation retrieve_workflow_outputs := (retrieve_workflow_outputs Path glob).

(** X10. With no output or with several, [retrieve_workflow_outputs]
    returns a mapping with the names of the outputs as keys, in their
    order; each name maps to what the glob of [{node_id}_*] finds, the path
    when it is one and the list otherwise. The session id plays no part. *)
Theorem retrieve_by_name wf p output_path session_id :
  _parse_workflow wf = Ok p ->
  length (p_outputs p) <> 1 ->
  exists value_map,
    retrieve_workflow_outputs wf output_path session_id = Ok (ByName value_map) /\
    keys value_map = keys (p_outputs p) /\
    forall name node,
      dict_get name (p_outputs p) = Some node ->
      exists id,
        getitem node "id" = Ok (JStr id) /\
        dict_get name value_map = Some (collect Path (glob output_path (id ++ "_*"))).
Proof.
  intros Hp Hlen.
  set (g := fun node : json =>
              bind (node_id_str node)
                   (fun id => Ok (collect Path (glob output_path (id ++ "_*"))))).
  set (f := fun (value_map : dict (found Path)) (kv : string * json) =>
              bind (node_id_str kv.2)
                   (fun node_id =>
                      Ok (dict_set kv.1 (collect Path (glob output_path (node_id ++ "_*")))
                            value_map))).
  assert (exists value_map, foldM f [] (p_outputs p) = Ok value_map) as [value_map Hfold].
  { destruct (foldM f [] (p_outputs p)) as [m|e] eqn:E; [eauto|exfalso].
    apply foldM_Err in E as (m & [name node] & Hin & E).
    destruct (parse_entries wf p Hp) as (dm & _ & Ho).
    destruct (Ho _ Hin) as (id & n0 & _ & _ & Hid & _). cbn [snd] in Hid.
    unfold f, node_id_str in E. cbn [snd] in E. by rewrite Hid in E. }
  destruct (foldM_build g f (p_outputs p) [] value_map) as (l' & -> & Hl').
  { intros m kv. unfold f, g. by destruct (node_id_str kv.2). }
  { destruct (parse_inv wf p Hp) as (_ & dm & _ & H).
    by destruct (classify_fold_NoDup dm wf _ p H (conj NoDup_nil_2 NoDup_nil_2)). }
  { exact Hfold. }
  exists l'. split_and!.
  - unfold retrieve_workflow_outputs, Utils.retrieve_workflow_outputs. rewrite Hp.
    cbn [bind]. fold f.
    destruct (p_outputs p) as [|[n1 v1] [|e2 rest]]; [| done |].
    + by rewrite Hfold.
    + by rewrite Hfold.
  - exact (Forall2_keys (fun v w => g v = Ok w) _ _ Hl').
  - intros name node Hget.
    destruct (Forall2_get (fun v w => g v = Ok w) _ _ name node Hl' Hget)
      as (w & Hw & Hg).
    unfold g, node_id_str in Hg.
    destruct (getitem node "id") as [nid|]; [|done]. cbn [bind] in Hg.
    destruct nid as [| | | |id| |]; try done. cbn in Hg. injection Hg as <-.
    exists id. done.
Qed.

End Pathlib.

(** The field of every input, or the first error. *)
Lemma generate_inv wf fields :
  generate_input_model wf = Ok fields ->
  exists p,
    _parse_workflow wf = Ok p /\
    Forall2 (fun kv kw : string * _ => kw.1 = kv.1 /\ input_field kv.2 = Ok kw.2)
            (p_inputs p) fields.
Proof.
  unfold generate_input_model. destruct (_parse_workflow wf) as [p|] eqn:Hp; [|done].
  cbn [bind]. intros H. exists p. split; [done|].
  eapply (foldM_build input_field) in H as (l' & -> & Hl'); [exact Hl'|done|].
  destruct (parse_inv wf p Hp) as (_ & dm & _ & Hf).
  by destruct (classify_fold_NoDup dm wf _ p Hf (conj NoDup_nil_2 NoDup_nil_2)).
Qed.

(** X11. The schema has one field for each named input: its fields carry
    the names of the inputs, in their order, and the field of a name is the
    one [generate_input_model] derives from the node of that input. *)
Theorem schema_fields_are_inputs wf fields :
  generate_input_model wf = Ok fields ->
  exists p,
    _parse_workflow wf = Ok p /\
    keys fields = keys (p_inputs p) /\
    forall name node,
      dict_get name (p_inputs p) = Some node ->
      exists f, input_field node = Ok f /\ dict_get name fields = Some f.
Proof.
  intros H. apply generate_inv in H as (p & Hp & Hl). exists p. split_and!; [done| |].
  - exact (Forall2_keys (fun v w => input_field v = Ok w) _ _ Hl).
  - intros name node Hget.
    destruct (Forall2_get (fun v w => input_field v = Ok w) _ _ name node Hl Hget)
      as (f & ? & ?).
    eauto.
Qed.

(** X12. Schema generation fails when the class of some input node is
    none of [CPackInputFile], [CPackInputImage] and [CPackInputValue]. *)
Theorem schema_unsupported_input wf p name node class_type :
  _parse_workflow wf = Ok p ->
  (name, node) ∈ p_inputs p ->
  class_of node = Some class_type ->
  str_in class_type ("CPackInputValue" :: CPACK_PATH_INPUT_NODES) = false ->
  exists e, generate_input_model wf = Err e.
Proof.
  intros Hp Hin Hct Hno. unfold generate_input_model. rewrite Hp. cbn [bind].
  apply (foldM_fails _ _ _ (name, node) Hin). intros m. cbn [snd].
  exists (ValueError ("Unsupported class type: " ++ class_type)).
  apply class_of_dict in Hct as (d & -> & Hd).
  unfold input_field. cbn [getitem]. rewrite Hd. cbn [of_option bind as_str].
  cbn [str_in existsb] in Hno. apply orb_false_iff in Hno as [Hv Hpath].
  unfold str_in. rewrite Hpath, Hv. done.
Qed.

End RetrieveMore.

(** ** Linking a model *)

Module SymlinkProps.
Import Py Package Store PackageProps Entries.
#[local] Open Scope list_scope.

(** Unfolds the monad at a world. *)
Ltac step := unfold iobind, read, ret, raise, change; cbn beta iota.

Lemma keeps_real_refl fs : keeps_real fs fs.
Proof. by intros p e. Qed.

Lemma keeps_real_trans fs1 fs2 fs3 :
  keeps_real fs1 fs2 -> keeps_real fs2 fs3 -> keeps_real fs1 fs3.
Proof. intros H1 H2 p e Hp He. apply H2; [|done]. by apply H1. Qed.

Lemma keeps_real_insert fs p e : fs !! p = None -> keeps_real fs (<[p := e]> fs).
Proof.
  intros Hp q e' Hq _. rewrite lookup_insert_ne; [done|]. intros ->. congruence.
Qed.

Lemma keeps_real_delete fs p t : fs !! p = Some (Symlink t) -> keeps_real fs (delete p fs).
Proof.
  intros Hp q e' Hq He. rewrite lookup_delete_ne; [done|]. intros ->.
  rewrite Hp in Hq. by injection Hq as <-.
Qed.

(** [mkdir] leaves the paths longer than its own alone. *)
Lemma mkdir_parents_longer rp w q :
  length rp < length q -> files (mkdir_parents rp w).2 !! q = files w !! q.
Proof.
  revert w. induction rp as [|c rp IH]; intros w Hlen; [done|].
  assert (reverse (c :: rp) <> q) as Hne.
  { intros <-. rewrite length_reverse in Hlen. lia. }
  cbn [length] in Hlen. cbn [mkdir_parents]. step.
  destruct (files w !! reverse (c :: rp)) as [e|].
  - by destruct (is_dir (files w) (reverse (c :: rp))).
  - destruct (is_dir (files w) (reverse rp)).
    + cbn [snd files]. by rewrite lookup_insert_ne.
    + destruct (files w !! reverse rp) as [[| |]|]; try done.
      specialize (IH w ltac:(lia)). destruct (mkdir_parents rp w) as [[[]|e] w1]; [|done].
      cbn [snd files] in *. by rewrite lookup_insert_ne.
Qed.

(** [mkdir] only adds directories where there was nothing. *)
Lemma mkdir_parents_keeps rp w :
  keeps_real (files w) (files (mkdir_parents rp w).2).
Proof.
  revert w. induction rp as [|c rp IH]; intros w; [apply keeps_real_refl|].
  cbn [mkdir_parents]. step.
  destruct (files w !! reverse (c :: rp)) as [e|] eqn:E.
  - destruct (is_dir (files w) (reverse (c :: rp))); apply keeps_real_refl.
  - destruct (is_dir (files w) (reverse rp)).
    + cbn [snd files]. by apply keeps_real_insert.
    + destruct (files w !! reverse rp) as [[| |]|] eqn:E'; try apply keeps_real_refl.
      pose proof (IH w) as Hk.
      pose proof (mkdir_parents_longer rp w (reverse (c :: rp))) as Hl.
      rewrite length_reverse in Hl. specialize (Hl ltac:(cbn; lia)).
      destruct (mkdir_parents rp w) as [[[]|e] w1]; [|exact Hk].
      cbn [snd files] in *. eapply keeps_real_trans; [exact Hk|].
      apply keeps_real_insert. by rewrite Hl.
Qed.

Lemma mkdir_keeps p w : keeps_real (files w) (files (mkdir p w).2).
Proof. apply mkdir_parents_keeps. Qed.

Lemma mkdir_longer p w q :
  length p < length q -> files (mkdir p w).2 !! q = files w !! q.
Proof. intros H. apply mkdir_parents_longer. by rewrite length_reverse. Qed.

Lemma length_parent p : p <> [] -> length (parent p) < length p.
Proof.
  intros Hp. unfold parent. destruct (exists_last Hp) as (q & c & ->).
  rewrite removelast_last, length_app. cbn. lia.
Qed.

Section Link.
Variables (global_path : path) (sha : string) (target_path name : path).

#[local] Abbreviation source := (global_path ++ [sha]).
#[local] Abbreviation target := (target_path ++ name).
#[local] Abbreviation link := (create_model_symlink global_path sha target_path name).

(** X13. [create_model_symlink] returns only with the link in place: when
    it raises nothing, the target path holds a symbolic link to the place of
    the hash. *)
Theorem create_model_symlink_links w w' :
  create_model_symlink global_path sha target_path name w = (Ok tt, w') ->
  files w' !! target = Some (Symlink source).
Proof.
  unfold link, Package.create_model_symlink. step.
  destruct (exists_ (files w) target).
  - destruct (is_symlink (files w) target) eqn:El; [|done].
    unfold unlink. step. unfold is_symlink in El.
    destruct (files w !! target) as [[|t|]|] eqn:E; try done.
    cbn beta iota. destruct (mkdir _ _) as [[[]|e] w1]; [|done].
    unfold symlink. step. destruct (files w1 !! target); [done|].
    destruct (is_dir (files w1) (parent target)); [|done].
    intros [= <-]. cbn [files]. apply lookup_insert_eq.
  - destruct (mkdir _ _) as [[[]|e] w1]; [|done].
    unfold symlink. step. destruct (files w1 !! target); [done|].
    destruct (is_dir (files w1) (parent target)); [|done].
    intros [= <-]. cbn [files]. apply lookup_insert_eq.
Qed.

Lemma link_keeps_real w : keeps_real (files w) (files (link w).2).
Proof.
  unfold link, Package.create_model_symlink. step.
  assert (forall w1, keeps_real (files w) (files w1) ->
            keeps_real (files w)
              (files (let (r, w2) := mkdir (parent target) w1 in
                      match r with
                      | Ok _ => symlink source target w2
                      | Err e => (Err e, w2)
                      end).2)) as Hrest.
  { intros w1 H1. pose proof (mkdir_keeps (parent target) w1) as H2.
    destruct (mkdir (parent target) w1) as [[[]|e] w2];
      cbn [snd] in *; [|by eapply keeps_real_trans].
    unfold symlink. step. destruct (files w2 !! target) eqn:E.
    - by eapply keeps_real_trans.
    - destruct (is_dir (files w2) (parent target)); cbn [snd files].
      + eapply keeps_real_trans; [exact H1|]. eapply keeps_real_trans; [exact H2|].
        by apply keeps_real_insert.
      + by eapply keeps_real_trans. }
  destruct (exists_ (files w) target).
  - destruct (is_symlink (files w) target) eqn:El; [|apply keeps_real_refl].
    unfold unlink. step. unfold is_symlink in El.
    destruct (files w !! target) as [[|t|]|] eqn:E; try done. cbn beta iota.
    apply Hrest. cbn [files]. by eapply keeps_real_delete.
  - apply Hrest. apply keeps_real_refl.
Qed.

(** X14. [create_model_symlink] never removes or replaces a file or a
    directory: whatever it returns or raises, every entry that is no
    symbolic link is afterwards where and what it was. *)
Theorem create_model_symlink_keeps_files w :
  keeps_real (files w) (files (create_model_symlink global_path sha target_path name w).2).
Proof. exact (link_keeps_real w). Qed.

(** X15. A symbolic link that resolves is replaced: the old link is
    removed and the new one made, and nothing else changes. *)
Theorem create_model_symlink_replaces w old :
  files w !! target = Some (Symlink old) ->
  exists_ (files w) target = true ->
  plain_dir (files w) (parent target) ->
  create_model_symlink global_path sha target_path name w
  = (Ok tt,
     World (<[target := Symlink source]> (delete target (files w)))
           (stdin w)
           (WSymlink source target :: WUnlink target :: writes w)).
Proof.
  intros Hold Hthere Hparent. unfold link, Package.create_model_symlink. step.
  rewrite Hthere. unfold is_symlink. rewrite Hold. cbn iota.
  unfold unlink. step. rewrite Hold. cbn beta iota.
  assert (plain_dir (delete target (files w)) (parent target)) as Hparent1.
  { destruct Hparent as [E|E]; [by left|right].
    rewrite lookup_delete_ne; [done|]. intros E'. rewrite <- E' in E. congruence. }
  rewrite mkdir_existing by (cbn [files]; by apply plain_dir_is_dir).
  cbn beta iota. unfold symlink. step. cbn [files]. rewrite lookup_delete_eq.
  cbn beta iota. cbn [files]. rewrite (plain_dir_is_dir _ _ Hparent1). done.
Qed.

(** X16. A dangling symbolic link is not replaced: [exists] does not see
    it, so it is not removed, and [os.symlink] then raises. *)
Theorem create_model_symlink_dangling w old :
  files w !! target = Some (Symlink old) ->
  exists_ (files w) target = false ->
  is_dir (files w) (parent target) = true ->
  create_model_symlink global_path sha target_path name w = (Err FileExistsError, w).
Proof.
  intros Hold Habsent Hparent. unfold link, Package.create_model_symlink. step.
  rewrite Habsent. cbn beta iota. rewrite (mkdir_existing _ _ Hparent).
  unfold symlink. step. rewrite Hold. done.
Qed.

End Link.

End SymlinkProps.

(** ** Retrieval without the network *)

Module OfflineProps.
Import Py Package Store PackageProps Entries Quiet SymlinkProps.
#[local] Open Scope list_scope.

Ltac step := unfold iobind, read, ret, raise, change; cbn beta iota.

Lemma keeps_stdin_ret {A} (a : A) : keeps_stdin (ret a).
Proof. done. Qed.

Lemma keeps_stdin_raise {A} e : keeps_stdin (@raise A e).
Proof. done. Qed.

Lemma keeps_stdin_read {A} (f : gmap path entry -> A) : keeps_stdin (read f).
Proof. done. Qed.

Lemma keeps_stdin_change ev f : keeps_stdin (change ev f).
Proof. done. Qed.

Lemma keeps_stdin_bind {A B} (m : io A) (f : A -> io B) :
  keeps_stdin m -> (forall a, keeps_stdin (f a)) -> keeps_stdin (iobind m f).
Proof.
  intros Hm Hf w. unfold iobind. specialize (Hm w).
  destruct (m w) as [[a|e] w1]; cbn [snd] in *; [|done].
  by rewrite Hf.
Qed.

Ltac quiet :=
  repeat first
    [ apply keeps_stdin_bind; [|intros ?]
    | apply keeps_stdin_ret | apply keeps_stdin_raise
    | apply keeps_stdin_read | apply keeps_stdin_change
    | match goal with
      | |- keeps_stdin (match ?x with _ => _ end) => destruct x
      | |- keeps_stdin (if ?x then _ else _) => destruct x
      end ].

Lemma keeps_stdin_unlink p : keeps_stdin (unlink p).
Proof. unfold unlink. quiet. Qed.

Lemma keeps_stdin_symlink s t : keeps_stdin (symlink s t).
Proof. unfold symlink. quiet. Qed.

Lemma keeps_stdin_shutil_move s t : keeps_stdin (shutil_move s t).
Proof. unfold shutil_move. quiet. Qed.

Lemma keeps_stdin_mkdir_parents rp : keeps_stdin (mkdir_parents rp).
Proof.
  induction rp as [|c rp IH]; [apply keeps_stdin_ret|].
  cbn [mkdir_parents]. quiet. exact IH.
Qed.

Lemma keeps_stdin_mkdir p : keeps_stdin (mkdir p).
Proof. apply keeps_stdin_mkdir_parents. Qed.

Lemma keeps_stdin_create_model_symlink g sha t name :
  keeps_stdin (create_model_symlink g sha t name).
Proof.
  unfold create_model_symlink.
  quiet; first [apply keeps_stdin_unlink|apply keeps_stdin_mkdir|apply keeps_stdin_symlink].
Qed.

Lemma keeps_stdin_forM {A} (f : A -> io unit) l :
  (forall a, keeps_stdin (f a)) -> keeps_stdin (forM f l).
Proof.
  intros Hf. induction l as [|a l IH]; [apply keeps_stdin_ret|].
  cbn [forM]. apply keeps_stdin_bind; [apply Hf|by intros _].
Qed.

Section Environment.
Variable MODEL_DIR : path.
Variable digest : string -> string.
Variable urlopen : string -> response.

#[local] Abbreviation retrive_model := (retrive_model MODEL_DIR digest urlopen).
#[local] Abbreviation retrive_models := (retrive_models MODEL_DIR digest urlopen).
#[local] Abbreviation ask := (ask MODEL_DIR digest urlopen).
#[local] Abbreviation install_from := (install_from MODEL_DIR digest urlopen).
#[local] Abbreviation linked := (linked MODEL_DIR).
#[local] Abbreviation stored := (stored MODEL_DIR).

Lemma keeps_stdin_retrive_model workspace m :
  keeps_stdin (retrive_model workspace false m).
Proof.
  unfold retrive_model, Package.retrive_model. cbn [negb].
  quiet;
    first [apply keeps_stdin_shutil_move|apply keeps_stdin_unlink
          |apply keeps_stdin_mkdir|apply keeps_stdin_symlink].
Qed.

(** X17. With [download=False] no line of standard input is read, whatever
    the manifest and the file system hold and whether or not an error is
    raised. *)
Theorem retrive_models_offline_reads_nothing models workspace w :
  stdin (retrive_models models workspace false w).2 = stdin w.
Proof.
  unfold retrive_models, Package.retrive_models. destruct models as [|m models]; [done|].
  apply keeps_stdin_bind; [apply keeps_stdin_mkdir|]. intros _.
  apply keeps_stdin_forM. apply keeps_stdin_retrive_model.
Qed.

End Environment.

Lemma retrive_model_offline_same MODEL_DIR digest urlopen digest' urlopen' workspace m w :
  Package.retrive_model MODEL_DIR digest urlopen workspace false m w
  = Package.retrive_model MODEL_DIR digest' urlopen' workspace false m w.
Proof.
  unfold Package.retrive_model. step.
  destruct (exists_ (files w) (workspace ++ filename m)); [done|].
  destruct (exists_ (files w) (MODEL_DIR ++ [sha256 m])); [done|].
  by destruct (disabled m).
Qed.

Lemma forM_ext {A} (f g : A -> io unit) l w :
  (forall a w, f a w = g a w) -> forM f l w = forM g l w.
Proof.
  intros Hfg. revert w. induction l as [|a l IH]; intros w; [done|].
  cbn [forM]. unfold iobind. rewrite Hfg. by destruct (g a w) as [[[]|e] w1].
Qed.

(** X18. With [download=False] neither the digest function nor the network
    is used: the result and the world left are the same whatever they are. *)
Theorem retrive_models_offline_is_local
    MODEL_DIR digest urlopen digest' urlopen' models workspace w :
  Package.retrive_models MODEL_DIR digest urlopen models workspace false w
  = Package.retrive_models MODEL_DIR digest' urlopen' models workspace false w.
Proof.
  unfold Package.retrive_models. destruct models as [|m models]; [done|].
  unfold iobind at 1. symmetry. unfold iobind at 1. symmetry.
  destruct (mkdir MODEL_DIR w) as [[[]|e] w1]; [|done].
  apply forM_ext. intros a w2. apply retrive_model_offline_same.
Qed.

End OfflineProps.

(** ** Writing through links *)

Module StoreProps.
Import Py Package Store PackageProps Entries Quiet SymlinkProps.
#[local] Open Scope list_scope.

Ltac step := unfold iobind, read, ret, raise, change; cbn beta iota.

(** A chain of links ends at no link. *)
Lemma realpath_end n fs p q t : realpath n fs p = Some q -> fs !! q <> Some (Symlink t).
Proof.
  revert p. induction n as [|n IH]; intros p.
  - cbn [realpath]. destruct (fs !! p) as [[| |]|] eqn:E; try done; intros [= <-]; congruence.
  - rewrite realpath_S. destruct (fs !! p) as [[|t'|]|] eqn:E; try apply IH;
      intros [= <-]; congruence.
Qed.

(** Writing a file or a directory at the end of a chain keeps the chain. *)
Lemma realpath_insert_end n fs p q e :
  realpath n fs p = Some q -> is_real e = true -> realpath n (<[q := e]> fs) p = Some q.
Proof.
  intros Hp He. revert p Hp. induction n as [|n IH]; intros p Hp.
  - cbn [realpath] in *. destruct (fs !! p) as [[| |]|] eqn:E; try done;
      injection Hp as <-; rewrite lookup_insert_eq; by destruct e.
  - pose proof (fun t => realpath_end _ _ _ _ t Hp) as Hend.
    rewrite realpath_S in *. destruct (fs !! p) as [[|t|]|] eqn:E.
    + injection Hp as <-. rewrite lookup_insert_eq. by destruct e.
    + assert (q <> p) as Hne by (intros ->; by eapply Hend).
      rewrite lookup_insert_ne, E by done. by apply IH.
    + injection Hp as <-. rewrite lookup_insert_eq. by destruct e.
    + injection Hp as <-. rewrite lookup_insert_eq. by destruct e.
Qed.

Lemma stat_insert_end fs p q e :
  realpath max_links fs p = Some q -> is_real e = true -> stat (<[q := e]> fs) p = Some e.
Proof.
  intros Hp He. unfold stat. rewrite (realpath_insert_end _ _ _ _ e Hp He). simpl.
  apply lookup_insert_eq.
Qed.

(** Where there is no link, [stat] is the lookup. *)
Lemma stat_nonlink fs p : (forall t, fs !! p <> Some (Symlink t)) -> stat fs p = fs !! p.
Proof.
  intros Hp. destruct (fs !! p) as [e|] eqn:E.
  - apply stat_plain; [done|]. intros q ->. by eapply Hp.
  - by apply stat_absent.
Qed.

Lemma realpath_nonlink n fs p :
  (forall t, fs !! p <> Some (Symlink t)) -> realpath n fs p = Some p.
Proof.
  intros Hp. destruct (fs !! p) as [e|] eqn:E.
  - eapply realpath_plain; [done|]. intros q ->. by eapply Hp.
  - by apply realpath_absent.
Qed.

(** What [store] does: it writes the file at the end of the chain, or it
    raises and changes nothing. *)
Lemma store_inv p c w :
  (exists q, realpath max_links (files w) p = Some q
     /\ files w !! q <> Some Dir
     /\ store p c w
        = (Ok tt, World (<[q := File c]> (files w)) (stdin w) (WStore q c :: writes w)))
  \/ (exists e, store p c w = (Err e, w)).
Proof.
  unfold store. step. destruct (realpath max_links (files w) p) as [q|] eqn:E.
  - destruct (files w !! q) as [[| |]|] eqn:Eq;
      destruct (is_dir (files w) (parent q)); try (right; by eexists);
      left; exists q; by rewrite Eq.
  - right. by eexists.
Qed.

End StoreProps.

(** ** Downloads *)

Module DownloadProps.
Import Py Package Store PackageProps Entries Quiet Download SymlinkProps StoreProps.
#[local] Open Scope list_scope.

Ltac step := unfold iobind, read, ret, raise, change; cbn beta iota.

Section Environment.
Variable MODEL_DIR : path.
Variable digest : string -> string.
Variable urlopen : string -> response.

#[local] Abbreviation download_file := (download_file urlopen).
#[local] Abbreviation transfer := (transfer urlopen).

Lemma cleanup_inv dest w :
  (cleanup dest w = (Ok false, w) /\ exists_ (files w) dest = false)
  \/ (exists e, files w !! dest = Some e /\ e <> Dir
        /\ cleanup dest w
           = (Ok false, World (delete dest (files w)) (stdin w) (WUnlink dest :: writes w)))
  \/ (files w !! dest = Some Dir /\ cleanup dest w = (Err IsADirectoryError, w)).
Proof.
  unfold cleanup. step. destruct (exists_ (files w) dest) eqn:E; [|by left].
  right. unfold unlink. step. destruct (files w !! dest) as [[|t|]|] eqn:El.
  - left. by eexists.
  - left. by eexists.
  - by right.
  - unfold exists_ in E. by rewrite (stat_absent _ _ El) in E.
Qed.

Lemma cleanup_gone dest w w' :
  cleanup dest w = (Ok false, w') -> exists_ (files w') dest = false.
Proof.
  destruct (cleanup_inv dest w) as [[-> H]|[(e & _ & _ & ->)|[_ ->]]]; try done.
  - by intros [= <-].
  - intros [= <-]. cbn [files]. unfold exists_.
    by rewrite stat_absent by apply lookup_delete_eq.
Qed.

Lemma download_file_eq url dest w :
  download_file url dest w
  = match transfer url dest w with
    | (Ok _, w1) => (Ok true, w1)
    | (Err _, w1) => cleanup dest w1
    end.
Proof.
  unfold download_file, Package.download_file, transfer, cleanup, try_.
  unfold iobind at 1. destruct (urlopen url) as [|content|received]; [done|..].
  - by destruct (store dest content w) as [[[]|e] w1].
  - unfold iobind, raise. by destruct (store dest received w) as [[[]|e] w1].
Qed.

(** X19. [download_file] returns [True] only when neither [urlopen] nor a
    read nor a write has raised, and the destination then reads as exactly
    what the reads returned. Nothing compares that with the length the
    server announced: a body cut short without an error gives [True] too. *)
Theorem download_file_true url dest w w' :
  download_file url dest w = (Ok true, w') ->
  exists content, urlopen url = Body content /\ slurp dest w' = (Ok content, w').
Proof.
  rewrite download_file_eq. unfold transfer.
  assert (forall w1, cleanup dest w1 <> (Ok true, w')) as Hclean.
  { intros w1.
    destruct (cleanup_inv dest w1) as [[-> _]|[(e & _ & _ & ->)|[_ ->]]]; done. }
  destruct (urlopen url) as [|content|received].
  - unfold raise. intros H. by apply Hclean in H.
  - destruct (store_inv dest content w) as [(q & Hq & _ & ->)|[e ->]].
    + intros [= <-]. exists content. split; [done|]. unfold slurp. step. cbn [files].
      by rewrite (stat_insert_end _ _ _ (File content) Hq).
    + intros H. by apply Hclean in H.
  - unfold iobind, raise.
    destruct (store dest received w) as [[[]|e] w1]; intros H; by apply Hclean in H.
Qed.

(** X20. After [download_file] has returned [False], nothing exists at the
    destination: what a broken transfer wrote is removed, and so is a file
    that was there before the call. *)
Theorem download_file_false url dest w w' :
  download_file url dest w = (Ok false, w') -> exists_ (files w') dest = false.
Proof.
  rewrite download_file_eq.
  destruct (transfer url dest w) as [[[]|e] w1]; [done|]. apply cleanup_gone.
Qed.

Lemma transfer_dir url dest w :
  files w !! dest = Some Dir -> exists e, transfer url dest w = (Err e, w).
Proof.
  intros Hd.
  assert (forall c, store dest c w = (Err IsADirectoryError, w)) as Hs.
  { intros c. unfold store. step.
    rewrite (realpath_plain _ _ _ _ Hd) by done. by rewrite Hd. }
  unfold transfer. destruct (urlopen url); [by eexists|..].
  - rewrite Hs. by eexists.
  - unfold iobind. rewrite Hs. by eexists.
Qed.

Lemma transfer_fails url dest w e w1 :
  transfer url dest w = (Err e, w1) ->
  w1 = w
  \/ exists q c, realpath max_links (files w) dest = Some q
       /\ w1 = World (<[q := File c]> (files w)) (stdin w) (WStore q c :: writes w).
Proof.
  unfold transfer. destruct (urlopen url) as [|content|received].
  - intros [= _ <-]. by left.
  - destruct (store_inv dest content w) as [(q & Hq & _ & ->)|[e' ->]]; [done|].
    intros [= _ <-]. by left.
  - unfold iobind, raise.
    destruct (store_inv dest received w) as [(q & Hq & _ & ->)|[e' ->]].
    + intros [= _ <-]. right. by exists q, received.
    + intros [= _ <-]. by left.
Qed.

(** X21. [download_file] catches every exception of the transfer, but its
    handler can raise: the call raises exactly when the destination is a
    directory, which [unlink] cannot remove. *)
Theorem download_file_raises url dest w :
  (exists e, (download_file url dest w).1 = Err e) <-> files w !! dest = Some Dir.
Proof.
  rewrite download_file_eq. split.
  - intros [e He]. destruct (transfer url dest w) as [[[]|e'] w1] eqn:Et; [done|].
    assert (files w1 !! dest = Some Dir) as Hd.
    { destruct (cleanup_inv dest w1) as [[Hc _]|[(x & _ & _ & Hc)|[Hd _]]];
        [by rewrite Hc in He..|done]. }
    destruct (transfer_fails _ _ _ _ _ Et) as [->|(q & c & Hq & ->)]; [done|].
    cbn [files] in Hd. destruct (decide (q = dest)) as [->|Hne].
    + by rewrite lookup_insert_eq in Hd.
    + rewrite lookup_insert_ne in Hd by done.
      rewrite (realpath_plain _ _ _ _ Hd) in Hq by done. congruence.
  - intros Hd. destruct (transfer_dir url dest w Hd) as [e ->].
    destruct (cleanup_inv dest w) as [[_ Hc]|[(x & Hx & Hne & _)|[_ ->]]].
    + unfold exists_ in Hc. by rewrite (stat_plain _ _ _ Hd) in Hc.
    + congruence.
    + by eexists.
Qed.

(** A destination that is no link is none afterwards. *)
Lemma download_file_nonlink url dest w :
  (forall t, files w !! dest <> Some (Symlink t)) ->
  forall t, files (download_file url dest w).2 !! dest <> Some (Symlink t).
Proof.
  intros Hn t. rewrite download_file_eq.
  assert (forall w1, (forall t, files w1 !! dest <> Some (Symlink t)) ->
            files (cleanup dest w1).2 !! dest <> Some (Symlink t)) as Hclean.
  { intros w1 H1.
    destruct (cleanup_inv dest w1) as [[-> _]|[(e & _ & _ & ->)|[_ ->]]];
      cbn [snd files]; [apply H1| |apply H1]. by rewrite lookup_delete_eq. }
  assert (forall c, forall t, files (store dest c w).2 !! dest <> Some (Symlink t)) as Hstore.
  { intros c t'. destruct (store_inv dest c w) as [(q & Hq & _ & ->)|[e ->]];
      cbn [snd files]; [|apply Hn].
    rewrite (realpath_nonlink _ _ _ Hn) in Hq. injection Hq as <-.
    by rewrite lookup_insert_eq. }
  unfold transfer. destruct (urlopen url) as [|content|received].
  - by apply Hclean.
  - pose proof (Hstore content) as Hs.
    destruct (store dest content w) as [[[]|e] w1]; cbn [snd] in *; [apply Hs|].
    by apply Hclean.
  - pose proof (Hstore received) as Hs. unfold iobind, raise.
    destruct (store dest received w) as [[[]|e] w1]; cbn [snd] in *; by apply Hclean.
Qed.

End Environment.

End DownloadProps.

(** ** The loop of [retrive_models] *)

Module InstallProps.
Import Py Package Store PackageProps Entries Quiet Download.
Import SymlinkProps StoreProps DownloadProps.
#[local] Open Scope list_scope.

Ltac step := unfold iobind, read, ret, raise, change; cbn beta iota.

Section Environment.
Variable MODEL_DIR : path.
Variable digest : string -> string.
Variable urlopen : string -> response.

#[local] Abbreviation download_file := (download_file urlopen).
#[local] Abbreviation retrive_model := (retrive_model MODEL_DIR digest urlopen).
#[local] Abbreviation ask := (ask MODEL_DIR digest urlopen).
#[local] Abbreviation install_from := (install_from MODEL_DIR digest urlopen).
#[local] Abbreviation fetch_url := (fetch_url MODEL_DIR digest urlopen).
#[local] Abbreviation fetch_local := (fetch_local MODEL_DIR digest).
#[local] Abbreviation verified := (verified MODEL_DIR digest).
#[local] Abbreviation linked := (linked MODEL_DIR).
#[local] Abbreviation stored := (stored MODEL_DIR).

(** X22. A model that is missing from the workspace and whose hash the store
    holds is linked, whatever [disabled] and [download] say: the link is the
    only change, and the entry is linked afterwards. *)
Theorem retrive_model_cached workspace download m content w :
  let here := workspace ++ filename m in
  let there := stored (sha256 m) in
  files w !! here = None ->
  files w !! there = Some (File content) ->
  plain_dir (files w) (parent here) ->
  retrive_model workspace download m w
  = (Ok tt, World (<[here := Symlink there]> (files w)) (stdin w)
                  (WSymlink there here :: writes w))
  /\ linked (<[here := Symlink there]> (files w)) workspace m.
Proof.
  intros here there Hhere Hthere Hparent.
  assert (here <> there) as Hne by (intros E; congruence).
  split.
  - unfold retrive_model, Package.retrive_model. step. fold here.
    unfold exists_ at 1. rewrite (stat_absent _ _ Hhere). cbn iota.
    fold (stored (sha256 m)). fold there.
    unfold exists_ at 1. rewrite (stat_plain _ _ _ Hthere) by done. cbn iota.
    unfold Package.create_model_symlink. step. fold here there.
    unfold exists_ at 1. rewrite (stat_absent _ _ Hhere). cbn iota beta.
    rewrite mkdir_existing by (by apply plain_dir_is_dir).
    cbn iota beta. unfold symlink. step. rewrite Hhere. cbn iota beta.
    by rewrite (plain_dir_is_dir _ _ Hparent).
  - split; fold here there.
    + apply lookup_insert_eq.
    + unfold exists_, stat. change max_links with (S (Nat.pred max_links)).
      rewrite realpath_S, lookup_insert_eq.
      assert (<[here := Symlink there]> (files w) !! there = Some (File content)) as H
        by (by rewrite lookup_insert_ne).
      rewrite (realpath_plain _ _ _ _ H) by done. simpl. by rewrite H.
Qed.

Lemma install_from_eq workspace m answer :
  install_from workspace m answer
  = (fetched <~
       (if startswith answer "http://" || startswith answer "https://"
        then fetch_url answer (sha256 m) else fetch_local answer (sha256 m)) ;;
     if fetched then
       create_model_symlink MODEL_DIR (sha256 m) workspace (filename m) ;;; ret true
     else ret false).
Proof. done. Qed.

Lemma install_from_unusable workspace m answer w :
  unusable (files w) answer = true -> install_from workspace m answer w = (Ok false, w).
Proof.
  unfold unusable. intros H. apply andb_prop in H as [H Hex]. apply andb_prop in H as [_ Hurl].
  apply negb_true_iff in Hex, Hurl.
  rewrite install_from_eq, Hurl. unfold Download.fetch_local. step. by rewrite Hex.
Qed.

Lemma ask_step line rest workspace m w :
  stdin w = line :: rest ->
  String.eqb (lower line) "skip" = false ->
  unusable (files w) line = true ->
  forall lines,
    ask (line :: lines) workspace m w
    = ask lines workspace m (World (files w) rest (writes w)).
Proof.
  intros Hin Hskip Hbad lines. cbn [Package.ask]. unfold iobind at 1. unfold input.
  rewrite Hin, Hskip. unfold iobind.
  by rewrite install_from_unusable.
Qed.

Lemma ask_until_skip bad line rest workspace m w :
  stdin w = bad ++ line :: rest ->
  Forall (fun answer => unusable (files w) answer = true) bad ->
  lower line = "skip" ->
  ask (stdin w) workspace m w = (Ok tt, World (files w) rest (writes w)).
Proof.
  intros Hin Hbad Hskip. revert w Hin Hbad. induction bad as [|a bad IH]; intros w Hin Hbad.
  - cbn [app] in Hin. rewrite Hin at 1. cbn [Package.ask]. unfold iobind, input.
    rewrite Hin, Hskip. done.
  - inversion Hbad as [|? ? Ha Hbad']; subst.
    assert (String.eqb (lower a) "skip" = false) as Hs.
    { unfold unusable in Ha. apply andb_prop in Ha as [Ha _]. apply andb_prop in Ha as [Ha _].
      by apply negb_true_iff in Ha. }
    cbn [app] in Hin. rewrite Hin at 1.
    rewrite (ask_step a (bad ++ line :: rest) workspace m w Hin Hs Ha).
    apply (IH (World (files w) (bad ++ line :: rest) (writes w))); done.
Qed.

Lemma ask_end_of_input workspace m w :
  Forall (fun answer => unusable (files w) answer = true) (stdin w) ->
  ask (stdin w) workspace m w = (Err EOFError, World (files w) [] (writes w)).
Proof.
  remember (stdin w) as lines eqn:Hin. intros Hbad. symmetry in Hin.
  revert w Hin Hbad. induction lines as [|a lines IH]; intros w Hin Hbad.
  - destruct w as [fs inp wr]. cbn in *. by subst.
  - inversion Hbad as [|? ? Ha Hbad']; subst.
    assert (String.eqb (lower a) "skip" = false) as Hs.
    { unfold unusable in Ha. apply andb_prop in Ha as [Ha _]. apply andb_prop in Ha as [Ha _].
      by apply negb_true_iff in Ha. }
    rewrite (ask_step a lines workspace m w Hin Hs Ha).
    apply (IH (World (files w) lines (writes w))); done.
Qed.

(** A model that is missing, not in the store and not disabled is asked
    for. *)
Lemma retrive_model_asks workspace m w :
  exists_ (files w) (workspace ++ filename m) = false ->
  exists_ (files w) (stored (sha256 m)) = false ->
  disabled m = false ->
  retrive_model workspace true m w = ask (stdin w) workspace m w.
Proof.
  intros Hhere Hthere Hd. unfold retrive_model, Package.retrive_model. step.
  unfold Store.stored in Hthere. by rewrite Hhere, Hthere, Hd.
Qed.

(** X23. For a model that is asked for, the loop asks again after every
    answer it can do nothing with, and [skip], in any case of letters, ends
    it: the lines up to it are read and nothing else changes. *)
Theorem retrive_model_until_skip bad line rest workspace m w :
  exists_ (files w) (workspace ++ filename m) = false ->
  exists_ (files w) (stored (sha256 m)) = false ->
  disabled m = false ->
  stdin w = bad ++ line :: rest ->
  Forall (fun answer => unusable (files w) answer = true) bad ->
  lower line = "skip" ->
  retrive_model workspace true m w = (Ok tt, World (files w) rest (writes w)).
Proof.
  intros Hhere Hthere Hd Hin Hbad Hskip. rewrite retrive_model_asks by done.
  by eapply ask_until_skip.
Qed.

(** X24. When standard input ends before an answer the loop can use, the
    [EOFError] of [input] leaves [retrive_models]: [input] is called
    outside the [try], and the error comes after every line has been read. *)
Theorem retrive_model_end_of_input workspace m w :
  exists_ (files w) (workspace ++ filename m) = false ->
  exists_ (files w) (stored (sha256 m)) = false ->
  disabled m = false ->
  Forall (fun answer => unusable (files w) answer = true) (stdin w) ->
  retrive_model workspace true m w = (Err EOFError, World (files w) [] (writes w)).
Proof.
  intros Hhere Hthere Hd Hbad. rewrite retrive_model_asks by done.
  by apply ask_end_of_input.
Qed.

End Environment.

End InstallProps.

(** ** What the loop leaves in the store *)

Module VerifiedProps.
Import Py Package Store PackageProps Entries Quiet Download.
Import SymlinkProps StoreProps DownloadProps InstallProps.
#[local] Open Scope list_scope.

Ltac step := unfold iobind, read, ret, raise, change; cbn beta iota.

Section Environment.
Variable MODEL_DIR : path.
Variable digest : string -> string.
Variable urlopen : string -> response.

#[local] Abbreviation download_file := (download_file urlopen).
#[local] Abbreviation transfer := (transfer urlopen).
#[local] Abbreviation retrive_model := (retrive_model MODEL_DIR digest urlopen).
#[local] Abbreviation ask := (ask MODEL_DIR digest urlopen).
#[local] Abbreviation install_from := (install_from MODEL_DIR digest urlopen).
#[local] Abbreviation fetch_url := (fetch_url MODEL_DIR digest urlopen).
#[local] Abbreviation fetch_local := (fetch_local MODEL_DIR digest).
#[local] Abbreviation verified := (verified MODEL_DIR digest).
#[local] Abbreviation stored := (stored MODEL_DIR).

Lemma transfer_done url dest w w1 :
  transfer url dest w = (Ok tt, w1) ->
  exists q c, realpath max_links (files w) dest = Some q
    /\ w1 = World (<[q := File c]> (files w)) (stdin w) (WStore q c :: writes w).
Proof.
  unfold transfer, Download.transfer. destruct (urlopen url) as [|content|received].
  - done.
  - destruct (store_inv dest content w) as [(q & Hq & _ & ->)|[e' ->]]; [|done].
    intros [= <-]. by exists q, content.
  - unfold iobind, raise. by destruct (store dest received w) as [[[]|e] w2].
Qed.

(** [download_file] makes no directory. *)
Lemma download_file_dir url dest w :
  files (download_file url dest w).2 !! dest = Some Dir -> files w !! dest = Some Dir.
Proof.
  rewrite download_file_eq.
  assert (forall q c, realpath max_links (files w) dest = Some q ->
            <[q := File c]> (files w) !! dest = Some Dir -> files w !! dest = Some Dir)
    as Hins.
  { intros q c Hq Hd. destruct (decide (q = dest)) as [->|Hne].
    - by rewrite lookup_insert_eq in Hd.
    - by rewrite lookup_insert_ne in Hd. }
  destruct (transfer url dest w) as [[[]|e] w1] eqn:Et; cbn [snd].
  - destruct (transfer_done _ _ _ _ Et) as (q & c & Hq & ->). cbn [files]. by apply Hins.
  - intros Hd. assert (files w1 !! dest = Some Dir) as Hd1.
    { destruct (cleanup_inv dest w1) as [[Hc _]|[(x & _ & _ & Hc)|[Hx _]]]; [| |done].
      - by rewrite Hc in Hd.
      - rewrite Hc in Hd. cbn [snd files] in Hd. by rewrite lookup_delete_eq in Hd. }
    destruct (transfer_fails _ _ _ _ _ _ Et) as [->|(q & c & Hq & ->)]; [done|].
    cbn [files] in Hd1. by eapply Hins.
Qed.

Lemma try_download url dest w :
  exists b, try_ (download_file url dest ;;; ret tt) w
            = (Ok b, (download_file url dest w).2).
Proof.
  unfold try_, iobind, ret. destruct (Package.download_file urlopen url dest w) as [[b|e] w0];
    by eexists.
Qed.

(** What the branch for a URL leaves at the place of the hash. *)
Lemma fetch_url_inv answer sha w r w1 :
  (forall t, files w !! stored sha <> Some (Symlink t)) ->
  fetch_url answer sha w = (r, w1) ->
  match r with
  | Ok true => exists c, files w1 !! stored sha = Some (File c) /\ digest c = sha
  | Ok false => files w1 !! stored sha = None
  | Err _ => files w !! stored sha = Some Dir
  end.
Proof.
  intros Hn. unfold fetch_url, Download.fetch_url.
  change (MODEL_DIR ++ [sha]) with (stored sha). cbv zeta.
  unfold iobind at 1. destruct (try_download answer (stored sha) w) as [b ->].
  pose proof (download_file_nonlink urlopen answer (stored sha) w Hn) as Hn0.
  pose proof (download_file_dir answer (stored sha) w) as Hd0.
  set (w0 := (Package.download_file urlopen answer (stored sha) w).2) in *.
  pose proof (stat_nonlink _ _ Hn0) as Hs.
  step. unfold exists_. rewrite Hs.
  destruct (files w0 !! stored sha) as [[c|t|]|] eqn:E; cbn [negb].
  - unfold get_sha256, slurp. step. rewrite Hs. cbn iota beta.
    destruct (String.eqb (digest c) sha) eqn:Eq; cbn [negb].
    + intros [= <- <-]. exists c. split; [done|by apply String.eqb_eq].
    + unfold unlink. step. rewrite E. cbn iota beta. intros [= <- <-]. cbn [files].
      apply lookup_delete_eq.
  - by destruct (Hn0 t).
  - unfold get_sha256, slurp. step. rewrite Hs. cbn iota beta.
    intros [= <- <-]. by apply Hd0.
  - by intros [= <- <-].
Qed.

(** What the branch for a local file leaves at the place of the hash. *)
Lemma fetch_local_inv answer sha w r w1 :
  (forall t, files w !! stored sha <> Some (Symlink t)) ->
  fetch_local answer sha w = (r, w1) ->
  match r with
  | Ok true => exists c, files w1 !! stored sha = Some (File c) /\ digest c = sha
  | _ => w1 = w
  end.
Proof.
  intros Hn. unfold fetch_local, Download.fetch_local.
  change (MODEL_DIR ++ [sha]) with (stored sha). cbv zeta. step.
  destruct (exists_ (files w) (Path answer)); cbn [negb]; [|by intros [= <- <-]].
  unfold get_sha256, slurp. step.
  destruct (stat (files w) (Path answer)) as [[c|t|]|] eqn:Es; cbn iota beta;
    try by intros [= <- <-].
  destruct (String.eqb (digest c) sha) eqn:Eq; cbn [negb]; [|by intros [= <- <-]].
  unfold shutil_copy2, slurp. step. rewrite Es. cbn iota beta.
  destruct (store_inv (stored sha) c w) as [(q & Hq & _ & ->)|[e ->]].
  - intros [= <- <-]. rewrite (realpath_nonlink _ _ _ Hn) in Hq. injection Hq as <-.
    exists c. cbn [files]. split; [apply lookup_insert_eq|by apply String.eqb_eq].
  - by intros [= <- <-].
Qed.

Lemma verified_nonlink fs sha t :
  verified fs sha -> fs !! stored sha <> Some (Symlink t).
Proof. intros [H|(c & H & _)]; by rewrite H. Qed.

(** One answer leaves the store verified. *)
Lemma install_from_keeps_verified workspace m answer w :
  verified (files w) (sha256 m) ->
  verified (files (install_from workspace m answer w).2) (sha256 m).
Proof.
  intros HK. pose proof (fun t => verified_nonlink _ _ t HK) as Hn.
  assert (forall w1 c, files w1 !! stored (sha256 m) = Some (File c) ->
            digest c = sha256 m ->
            verified
              (files ((create_model_symlink MODEL_DIR (sha256 m) workspace (filename m) ;;;
                       ret true) w1).2) (sha256 m)) as Hlink.
  { intros w1 c Hc Hdig. right. exists c. split; [|done].
    pose proof (link_keeps_real MODEL_DIR (sha256 m) workspace (filename m) w1
                  _ _ Hc eq_refl) as Hk.
    unfold iobind, ret.
    by destruct (create_model_symlink MODEL_DIR (sha256 m) workspace (filename m) w1)
      as [[[]|e] w2]. }
  rewrite install_from_eq. unfold iobind at 1.
  destruct (startswith answer "http://" || startswith answer "https://").
  - destruct (fetch_url answer (sha256 m) w) as [r w1] eqn:Ef.
    pose proof (fetch_url_inv _ _ _ _ _ Hn Ef) as H. destruct r as [[|]|e].
    + destruct H as (c & Hc & Hdig). by eapply Hlink.
    + by left.
    + destruct HK as [HK|(c & HK & _)]; congruence.
  - destruct (fetch_local answer (sha256 m) w) as [r w1] eqn:Ef.
    pose proof (fetch_local_inv _ _ _ _ _ Hn Ef) as H. destruct r as [[|]|e].
    + destruct H as (c & Hc & Hdig). by eapply Hlink.
    + by subst.
    + by subst.
Qed.

(** The loop leaves the store verified, however it ends. *)
Lemma ask_keeps_verified lines workspace m w :
  verified (files w) (sha256 m) ->
  verified (files (ask lines workspace m w).2) (sha256 m).
Proof.
  revert w. induction lines as [|l lines IH]; intros w HK; [done|].
  cbn [Package.ask]. unfold iobind at 1. unfold input.
  destruct (stdin w) as [|answer rest]; [done|].
  destruct (String.eqb (lower answer) "skip"); [done|].
  unfold iobind.
  pose proof (install_from_keeps_verified workspace m answer
                (World (files w) rest (writes w)) HK) as H.
  destruct (Package.install_from MODEL_DIR digest urlopen workspace m answer
              (World (files w) rest (writes w))) as [[[|]|e] w2]; cbn [snd] in H.
  - done.
  - by apply IH.
  - by apply IH.
Qed.

(** X25. For a model that is missing from the workspace and from the store,
    whatever the user answers and the network returns, and however the call
    ends, the store afterwards holds nothing for the hash or a file whose
    digest is the hash: what the loop downloads or copies is checked. *)
Theorem retrive_model_store_verified workspace download m w :
  exists_ (files w) (workspace ++ filename m) = false ->
  files w !! stored (sha256 m) = None ->
  verified (files (retrive_model workspace download m w).2) (sha256 m).
Proof.
  intros Hhere Hthere. assert (verified (files w) (sha256 m)) as HK by (by left).
  unfold retrive_model, Package.retrive_model. step. rewrite Hhere.
  change (MODEL_DIR ++ [sha256 m]) with (stored (sha256 m)).
  unfold exists_. rewrite (stat_absent _ _ Hthere).
  destruct (disabled m); [done|]. destruct download; cbn [negb]; [|done].
  by apply ask_keeps_verified.
Qed.

End Environment.

End VerifiedProps.

(** ** The properties at work *)

Module Examples.
Import Py Utils Shape Samples Package Store Entries Quiet Download Cases.
Import ParseMore PopulateErrors PopulateValues RetrieveMore.
Import SymlinkProps DownloadProps InstallProps VerifiedProps.
#[local] Open Scope list_scope.

Lemma parse_only_annotates_witness :
  exists p,
    _parse_workflow small_workflow = Ok p /\
    p_workflow p = annotate <$> small_workflow /\
    forall id node,
      (id, node) ∈ small_workflow ->
      getitem (with_id id node) "id" = Ok (JStr id) /\
      forall f, f <> "id" -> getitem (with_id id node) f = getitem node f.
Proof.
  eexists. split; [reflexivity|].
  apply (parse_only_annotates small_workflow). reflexivity.
Defined.

Lemma parse_twice_witness :
  exists p,
    _parse_workflow small_workflow = Ok p /\ _parse_workflow (p_workflow p) = Ok p.
Proof.
  eexists. split; [reflexivity|].
  apply (parse_twice small_workflow). reflexivity.
Defined.

Lemma populate_value_error_witness :
  populate_workflow string join id editor_export "/out" "run1_" []
  = Err (ValueError API_WORKFLOW_MESSAGE) /\
  "last_node_id" ∈ keys editor_export /\
  API_WORKFLOW_MESSAGE = API_WORKFLOW_MESSAGE.
Proof.
  split; [reflexivity|].
  apply (populate_value_error join id editor_export "/out" "run1_" []). reflexivity.
Defined.

Lemma populate_unknown_input_witness :
  exists e,
    populate_workflow string join id small_workflow "/out" "run1_"
      [("steps", PJson (JInt 30))] = Err e.
Proof.
  eapply (populate_unknown_input join id small_workflow _ "/out" "run1_"
            [("steps", PJson (JInt 30))] "steps").
  - reflexivity.
  - compute_done.
  - compute_done.
Defined.

Lemma populate_sets_value_witness :
  exists wf',
    populate_workflow string join id small_workflow "/out" "run1_"
      [("seed", PJson (JInt 7))] = Ok wf' /\
    exists node',
      dict_get "1" wf' = Some node' /\ _get_node_value node' = Ok (JInt 7).
Proof.
  eexists. split; [reflexivity|].
  eapply (populate_sets_value join id small_workflow _ "/out" "run1_"
            [("seed", PJson (JInt 7))] _ "seed" (PJson (JInt 7)) _ "1").
  - compute_done.
  - compute_done.
  - reflexivity.
  - reflexivity.
  - left.
  - reflexivity.
  - reflexivity.
Defined.

Lemma retrieve_by_name_witness :
  exists p value_map,
    _parse_workflow two_outputs = Ok p /\
    retrieve_workflow_outputs string one_image two_outputs "/out" "run1_"
    = Ok (ByName value_map) /\
    keys value_map = keys (p_outputs p) /\
    forall name node,
      dict_get name (p_outputs p) = Some node ->
      exists id,
        getitem node "id" = Ok (JStr id) /\
        dict_get name value_map = Some (collect string (one_image "/out" (id ++ "_*")%string)).
Proof.
  eexists.
  destruct (retrieve_by_name one_image two_outputs _ "/out" "run1_" eq_refl)
    as (value_map & H); [compute_done|].
  exists value_map. split; [reflexivity|exact H].
Defined.

Lemma schema_fields_are_inputs_witness :
  exists fields p,
    generate_input_model bounded_workflow = Ok fields /\
    _parse_workflow bounded_workflow = Ok p /\
    keys fields = keys (p_inputs p) /\
    forall name node,
      dict_get name (p_inputs p) = Some node ->
      exists f, input_field node = Ok f /\ dict_get name fields = Some f.
Proof.
  eexists.
  destruct (schema_fields_are_inputs bounded_workflow _ eq_refl) as (p & H).
  exists p. split; [reflexivity|exact H].
Defined.

Lemma schema_unsupported_input_witness :
  exists e, generate_input_model odd_input = Err e.
Proof.
  eapply (schema_unsupported_input odd_input _ "sound" _ "CPackInputAudio").
  - reflexivity.
  - left.
  - reflexivity.
  - reflexivity.
Defined.

Lemma create_model_symlink_links_witness :
  files (create_model_symlink home "ab" ["ws"] ["models"; "x.bin"] cached_world).2
    !! ["ws"; "models"; "x.bin"]
  = Some (Symlink ["home"; ".comfypack"; "models"; "ab"]).
Proof.
  apply (create_model_symlink_links home "ab" ["ws"] ["models"; "x.bin"] cached_world).
  vm_compute. reflexivity.
Defined.

Lemma create_model_symlink_replaces_witness :
  create_model_symlink home "cd" ["ws"] ["models"; "x.bin"] linked_world
  = (Ok tt,
     World (<[ ["ws"; "models"; "x.bin"] := Symlink ["home"; ".comfypack"; "models"; "cd"] ]>
              (delete ["ws"; "models"; "x.bin"] linked_files))
           []
           [WSymlink ["home"; ".comfypack"; "models"; "cd"] ["ws"; "models"; "x.bin"];
            WUnlink ["ws"; "models"; "x.bin"]]).
Proof.
  apply (create_model_symlink_replaces home "cd" ["ws"] ["models"; "x.bin"] linked_world
           ["home"; ".comfypack"; "models"; "ab"]).
  - vm_compute. reflexivity.
  - vm_compute. reflexivity.
  - right. vm_compute. reflexivity.
Defined.

Lemma create_model_symlink_dangling_witness :
  create_model_symlink home "ab" ["ws"] ["models"; "x.bin"] dangling_world
  = (Err FileExistsError, dangling_world).
Proof.
  apply (create_model_symlink_dangling home "ab" ["ws"] ["models"; "x.bin"] dangling_world
           ["home"; ".comfypack"; "models"; "ab"]).
  - vm_compute. reflexivity.
  - vm_compute. reflexivity.
  - vm_compute. reflexivity.
Defined.

Lemma download_file_true_witness :
  exists content,
    serving "http://h/x" = Body content /\
    slurp (stored home "ab")
      (download_file serving "http://h/x" (stored home "ab") (asking_world [])).2
    = (Ok content,
       (download_file serving "http://h/x" (stored home "ab") (asking_world [])).2).
Proof.
  apply (download_file_true serving "http://h/x" (stored home "ab") (asking_world [])).
  vm_compute. reflexivity.
Defined.

Lemma download_file_false_witness :
  exists_ (files (download_file offline "http://h/x" (stored home "ab") cached_world).2)
    (stored home "ab") = false.
Proof.
  apply (download_file_false offline "http://h/x" (stored home "ab") cached_world).
  vm_compute. reflexivity.
Defined.

Lemma retrive_model_cached_witness :
  retrive_model home zero_digest offline ["ws"] false wanted cached_world
  = (Ok tt,
     World (<[ ["ws"; "models"; "x.bin"] := Symlink (stored home "ab") ]> (files cached_world))
           []
           [WSymlink (stored home "ab") ["ws"; "models"; "x.bin"]])
  /\ linked home (<[ ["ws"; "models"; "x.bin"] := Symlink (stored home "ab") ]>
                    (files cached_world)) ["ws"] wanted.
Proof.
  apply (retrive_model_cached home zero_digest offline ["ws"] false wanted "weights"
           cached_world).
  - vm_compute. reflexivity.
  - vm_compute. reflexivity.
  - right. vm_compute. reflexivity.
Defined.

Lemma retrive_model_until_skip_witness :
  retrive_model home zero_digest offline ["ws"] true wanted
    (asking_world ["nowhere.bin"; "Skip"; "later"])
  = (Ok tt, asking_world ["later"]).
Proof.
  apply (retrive_model_until_skip home zero_digest offline ["nowhere.bin"] "Skip" ["later"]
           ["ws"] wanted (asking_world ["nowhere.bin"; "Skip"; "later"])).
  - vm_compute. reflexivity.
  - vm_compute. reflexivity.
  - reflexivity.
  - reflexivity.
  - constructor; [vm_compute; reflexivity|constructor].
  - vm_compute. reflexivity.
Defined.

Lemma retrive_model_end_of_input_witness :
  retrive_model home zero_digest offline ["ws"] true wanted (asking_world ["nowhere.bin"])
  = (Err EOFError, asking_world []).
Proof.
  apply (retrive_model_end_of_input home zero_digest offline ["ws"] wanted
           (asking_world ["nowhere.bin"])).
  - vm_compute. reflexivity.
  - vm_compute. reflexivity.
  - reflexivity.
  - constructor; [vm_compute; reflexivity|constructor].
Defined.

Lemma retrive_model_store_verified_witness :
  verified home zero_digest
    (files (retrive_model home zero_digest serving ["ws"] true wanted
              (asking_world ["http://h/x"; "skip"])).2)
    "ab".
Proof.
  apply (retrive_model_store_verified home zero_digest serving ["ws"] true wanted
           (asking_world ["http://h/x"; "skip"])).
  - vm_compute. reflexivity.
  - vm_compute. reflexivity.
Defined.

End Examples.
